(** * LinguisticFeatures: the Biber and QUITA feature engines

    A shallow embedding of [LinguisticFeatures/biber.py] and
    [LinguisticFeatures/quita.py].

    Conventions of the embedding.
    - A Python [str] is a [string] with one character per code point:
      the texts of the embedding are those whose code points lie below
      U+0100, and the case mapping and the character classes are Python's
      on this range.
    - A raised exception is the [Raise] branch of [result]; code that can
      raise is written in the error monad.
    - Numbers keep the four run-time kinds the code mixes (Python [int] and
      [float], numpy [int64] and [float64]): the kind decides whether a
      division by zero raises or yields an IEEE special value.  An [int64]
      column holds counts bounded by the length of the token list and is a
      [Z]; the wrap-around at [2^63] is out of reach of any list the
      interpreter can hold and is not modelled.
    - Floating-point arithmetic is an interface ([Float64]) with two
      instances: [float], the binary64 numbers of the kernel (what the code
      runs on), and [Q], exact rationals (what the formulas mean).  A
      statement says which instance it is about.
    - NLTK ([word_tokenize], [pos_tag]) and libm ([sqrt], [log2], [log10],
      [pow]) are parameters of the development. *)

From Stdlib Require Import ZArith QArith List String Ascii Bool Lia Lqa Permutation Sorted.
From Stdlib Require Import Floats.
From stdpp Require Import gmap strings pretty.

Set Default Proof Using "Type".
Local Open Scope Z_scope.

(** ** Exceptions and the error monad *)

(** The exception classes the two modules can raise, and
    [DegenerateInputError], which the specification names and no path of
    the code raises. *)
Inductive exn :=
| ZeroDivisionError | IndexError | KeyError | ValueError | OverflowError
| re_error | DegenerateInputError.

Inductive result (A : Type) :=
| Ok (a : A)
| Raise (e : exn).
Arguments Ok {A} a.
Arguments Raise {A} e.

Definition bind {A B} (m : result A) (k : A -> result B) : result B :=
  match m with
  | Ok a => k a
  | Raise e => Raise e
  end.

Notation "'let*' x ':=' m 'in' k" := (bind m (fun x => k))
  (at level 10, x name, m at level 100, k at level 200).

Definition default_to {A} (m : result A) (d : A) : A :=
  match m with Ok a => a | Raise _ => d end.

Fixpoint mapM {A B} (f : A -> result B) (l : list A) : result (list B) :=
  match l with
  | [] => Ok []
  | a :: l' => let* b := f a in let* bs := mapM f l' in Ok (b :: bs)
  end.

Definition is_Ok {A} (m : result A) : bool :=
  match m with Ok _ => true | Raise _ => false end.

(** ** Characters

    A character is a code point below U+0100.  The classes are those of
    the methods of [str] on this range. *)

Definition ord (c : ascii) : N := N_of_ascii c.

(** [chr(n)]. *)
Definition chr (n : N) : ascii := ascii_of_N n.

Definition in_range (lo hi c : ascii) : bool :=
  ((ord lo <=? ord c) && (ord c <=? ord hi))%N.

(** [str.isupper]: A-Z, U+00C0-U+00D6 and U+00D8-U+00DE. *)
Definition isupper (c : ascii) : bool :=
  in_range "A" "Z" c || in_range (chr 192) (chr 214) c || in_range (chr 216) (chr 222) c.

(** [str.islower]: a-z, the ordinal indicators U+00AA and U+00BA, the
    micro sign U+00B5, U+00DF-U+00F6 and U+00F8-U+00FF. *)
Definition islower (c : ascii) : bool :=
  in_range "a" "z" c || Ascii.eqb c (chr 170) || Ascii.eqb c (chr 181)
  || Ascii.eqb c (chr 186) || in_range (chr 223) (chr 246) c
  || in_range (chr 248) (chr 255) c.

(** [str.isdecimal]: the digits 0-9. *)
Definition isdecimal (c : ascii) : bool := in_range "0" "9" c.

(** [str.isdigit]: the digits 0-9 and the superscripts U+00B2, U+00B3 and
    U+00B9. *)
Definition isdigit (c : ascii) : bool :=
  isdecimal c || in_range (chr 178) (chr 179) c || Ascii.eqb c (chr 185).

(** [str.isnumeric]: these and the fractions U+00BC-U+00BE. *)
Definition isnumeric (c : ascii) : bool :=
  isdigit c || in_range (chr 188) (chr 190) c.

(** [str.isalnum]. *)
Definition isalnum (c : ascii) : bool :=
  isupper c || islower c || isnumeric c.

(** [\w] in a pattern of type [str]: the alphanumeric characters and the
    underscore. *)
Definition isword (c : ascii) : bool :=
  isalnum c || Ascii.eqb c "_".

(** The lower-case form of a character: every upper-case letter of the
    range has one, 32 code points up. *)
Definition lower_char (c : ascii) : ascii :=
  if isupper c then chr (ord c + 32) else c.

(** [str.lower]. *)
Fixpoint lower (s : string) : string :=
  match s with
  | EmptyString => EmptyString
  | String c s' => String (lower_char c) (lower s')
  end.

Fixpoint chars (s : string) : list ascii :=
  match s with
  | EmptyString => []
  | String c s' => c :: chars s'
  end.

(** [sep.join(l)]. *)
Fixpoint join (sep : string) (l : list string) : string :=
  match l with
  | [] => EmptyString
  | [x] => x
  | x :: l' => x +:+ sep +:+ join sep l'
  end.

(** ** Regular expressions: the part of Python's [re] the two modules use *)

Module Re.

Inductive regex :=
| Eps
| Chr (c : ascii)                      (* a literal character *)
| Any                                  (* [.]: any character but newline *)
| Word                                 (* [\w] *)
| Class (ranges : list (ascii * ascii)) (* [[a-z0-9]] *)
| Seq (r1 r2 : regex)
| Alt (r1 r2 : regex)
| Rep (r : regex) (lo : nat) (hi : option nat) (greedy : bool).

(** *** Parsing a pattern *)

Definition is_special (c : ascii) : bool :=
  existsb (Ascii.eqb c) (chars "()|[]\+*?{}.").

Fixpoint parse_nat (s : string) (acc : nat) (seen : bool)
  : option (nat * string) :=
  match s with
  | String c s' =>
      if isdecimal c
      then parse_nat s' (10 * acc + N.to_nat (ord c - 48)) true
      else if seen then Some (acc, s) else None
  | EmptyString => if seen then Some (acc, s) else None
  end.

(** The items of a character class up to its closing bracket. *)
Fixpoint parse_class (s : string) (acc : list (ascii * ascii))
  : option (regex * string) :=
  match s with
  | String "]" s' => Some (Class (rev acc), s')
  | String a s1 =>
      match s1 with
      | String "-" (String b s2) =>
          if Ascii.eqb b "]" then parse_class s1 ((a, a) :: acc)
          else parse_class s2 ((a, b) :: acc)
      | _ => parse_class s1 ((a, a) :: acc)
      end
  | EmptyString => None
  end.

(** A quantifier after an atom, when there is one. *)
Definition parse_quant (r : regex) (s : string) : regex * string :=
  let lazy lo hi s' :=
    match s' with
    | String "?" s'' => (Rep r lo hi false, s'')
    | _ => (Rep r lo hi true, s')
    end in
  match s with
  | String "+" s' => lazy 1%nat None s'
  | String "*" s' => lazy 0%nat None s'
  | String "?" s' => lazy 0%nat (Some 1%nat) s'
  | String "{" s' =>
      match parse_nat s' 0 false with
      | Some (lo, String "," s'') =>
          match parse_nat s'' 0 false with
          | Some (hi, String "}" s3) => lazy lo (Some hi) s3
          | _ => (r, s)
          end
      | Some (n, String "}" s'') => lazy n (Some n) s''
      | _ => (r, s)
      end
  | _ => (r, s)
  end.

(** An escape: [\w] is the word class and a character that is no ASCII
    letter or digit stands for itself; the other escapes are not used by
    the two modules and are refused here. *)
Definition parse_escape (c : ascii) : option regex :=
  if Ascii.eqb c "w" then Some Word
  else if in_range "A" "Z" c || in_range "a" "z" c || isdecimal c then None
  else Some (Chr c).

(** [parse_alt n s] reads an alternation and stops at a closing
    parenthesis or at the end; [n] bounds the nesting depth. *)
Fixpoint parse_alt (n : nat) (s : string) : option (regex * string) :=
  match n with
  | O => None
  | S n' =>
      let parse_atom (s : string) : option (regex * string) :=
        match s with
        | String "(" s' =>
            match parse_alt n' s' with
            | Some (r, String ")" s'') => Some (r, s'')
            | _ => None
            end
        | String "[" s' => parse_class s' []
        | String "\" (String c s') =>
            match parse_escape c with
            | Some r => Some (r, s')
            | None => None
            end
        | String "." s' => Some (Any, s')
        | String c s' => if is_special c then None else Some (Chr c, s')
        | EmptyString => None
        end in
      let fix parse_seq (m : nat) (s : string) : option (regex * string) :=
        match m with
        | O => None
        | S m' =>
            match s with
            | EmptyString | String "|" _ | String ")" _ => Some (Eps, s)
            | _ =>
                match parse_atom s with
                | Some (a, s1) =>
                    let '(a', s2) := parse_quant a s1 in
                    match parse_seq m' s2 with
                    | Some (Eps, s3) => Some (a', s3)
                    | Some (r, s3) => Some (Seq a' r, s3)
                    | None => None
                    end
                | None => None
                end
            end
        end in
      match parse_seq (S (String.length s)) s with
      | Some (r1, String "|" s1) =>
          match parse_alt n' s1 with
          | Some (r2, s2) => Some (Alt r1 r2, s2)
          | None => None
          end
      | other => other
      end
  end.

(** [re.compile]. *)
Definition compile (pattern : string) : result regex :=
  match parse_alt (S (String.length pattern)) pattern with
  | Some (r, EmptyString) => Ok r
  | _ => Raise re_error
  end.

(** *** Matching: leftmost, backtracking, alternatives in order *)

Definition in_class (ranges : list (ascii * ascii)) (c : ascii) : bool :=
  existsb (fun '(lo, hi) => in_range lo hi c) ranges.

Definition newline : ascii := ascii_of_N 10.

Definition step (p : ascii -> bool) (s : string)
    (k : string -> option string) : option string :=
  match s with
  | String c s' => if p c then k s' else None
  | EmptyString => None
  end.

Definition below (hi : option nat) (count : nat) : bool :=
  match hi with
  | Some h => (count <? h)%nat
  | None => true
  end.

Definition orelse (a b : option string) : option string :=
  match a with Some _ => a | None => b end.

(** [matchk r s k]: match [r] at the head of [s] and hand the rest to the
    continuation [k]; the result is the text left after the whole match.
    A repetition stops an iteration that consumes nothing. *)
Fixpoint matchk (r : regex) (s : string) (k : string -> option string)
  : option string :=
  match r with
  | Eps => k s
  | Chr c => step (Ascii.eqb c) s k
  | Any => step (fun c => negb (Ascii.eqb c newline)) s k
  | Word => step isword s k
  | Class ranges => step (in_class ranges) s k
  | Seq r1 r2 => matchk r1 s (fun s' => matchk r2 s' k)
  | Alt r1 r2 => orelse (matchk r1 s k) (matchk r2 s k)
  | Rep r' lo hi greedy =>
      (fix loop (fuel count : nat) (s : string) {struct fuel} : option string :=
         let stop := if (lo <=? count)%nat then k s else None in
         let more :=
           match fuel with
           | O => None
           | S fuel' =>
               if below hi count
               then matchk r' s (fun s' =>
                      if (String.length s' <? String.length s)%nat
                      then loop fuel' (S count) s' else None)
               else None
           end in
         if greedy then orelse more stop else orelse stop more)
        (String.length s) O s
  end.

(** The text left after the first match of [r] at the head of [s]. *)
Definition match_at (r : regex) (s : string) : option string :=
  matchk r s Some.

(** The length of the match at the head of [s]. *)
Definition match_len (r : regex) (s : string) : option nat :=
  match match_at r s with
  | Some rest => Some (String.length s - String.length rest)%nat
  | None => None
  end.

Fixpoint take (n : nat) (s : string) : string :=
  match n, s with
  | S n', String c s' => String c (take n' s')
  | _, _ => EmptyString
  end.

(** The scan of [re.findall] and [re.sub]: left to right, a match is
    searched at every position outside the previous match; [skip] counts
    the characters of the current match still to pass.  An empty match
    is recorded and the scan moves one character on. *)
Fixpoint findall_scan (r : regex) (s : string) (skip : nat) : list string :=
  match skip, s with
  | S skip', String _ s' => findall_scan r s' skip'
  | S _, EmptyString => []
  | O, EmptyString =>
      match match_len r s with
      | Some _ => [EmptyString]
      | None => []
      end
  | O, String _ s' =>
      match match_len r s with
      | Some n => take n s :: findall_scan r s' (Nat.pred n)
      | None => findall_scan r s' O
      end
  end.

Fixpoint sub_scan (r : regex) (repl : string) (s : string) (skip : nat)
  : string :=
  match skip, s with
  | S skip', String _ s' => sub_scan r repl s' skip'
  | S _, EmptyString => EmptyString
  | O, EmptyString =>
      match match_len r s with
      | Some _ => repl
      | None => EmptyString
      end
  | O, String c s' =>
      match match_len r s with
      | Some O => repl +:+ String c (sub_scan r repl s' O)
      | Some (S n) => repl +:+ sub_scan r repl s' n
      | None => String c (sub_scan r repl s' O)
      end
  end.

(** [re.findall(pattern, text)]: the matches, left to right. *)
Definition findall (pattern text : string) : result (list string) :=
  let* r := compile pattern in Ok (findall_scan r text O).

(** [re.sub(pattern, repl, text)]. *)
Definition sub (pattern repl text : string) : result string :=
  let* r := compile pattern in Ok (sub_scan r repl text O).

End Re.

(** ** Numbers *)

(** The arithmetic of binary64 the code relies on. *)
Class Float64 (F : Type) := {
  of_Z : Z -> F;            (* conversion of an integer *)
  fadd : F -> F -> F;
  fsub : F -> F -> F;
  fmul : F -> F -> F;
  fdiv : F -> F -> F;       (* IEEE division: total *)
  fzero : F -> bool;        (* [x == 0.0] *)
  ftrunc : F -> result Z;   (* [int(x)] *)
}.

(** The libm functions numpy calls. *)
Class Libm (F : Type) := {
  np_sqrt : F -> F;
  np_log2 : F -> F;
  np_log10 : F -> F;
  pow_half : F -> F;        (* [x ** 0.5] *)
}.

(** NLTK: the tokenizer and the part-of-speech tagger. *)
Class NLTK := {
  word_tokenize : string -> list string;
  pos_tag : list string -> list (string * string);
}.

(** *** binary64 *)

Definition float_of_Z (z : Z) : float :=
  match z with
  | Z0 => PrimFloat.zero
  | Zpos _ => PrimFloat.of_uint63 (Uint63.of_Z z)
  | Zneg p => PrimFloat.opp (PrimFloat.of_uint63 (Uint63.of_Z (Zpos p)))
  end.

Definition float_trunc (x : float) : result Z :=
  match Prim2SF x with
  | S754_zero _ => Ok 0
  | S754_finite s m e =>
      let a := match e with
               | Zneg k => Z.shiftr (Zpos m) (Zpos k)
               | _ => Z.shiftl (Zpos m) e
               end in
      Ok (if s then - a else a)
  | S754_infinity _ => Raise OverflowError
  | S754_nan => Raise ValueError
  end.

#[export] Instance binary64 : Float64 float := {
  of_Z := float_of_Z;
  fadd := PrimFloat.add;
  fsub := PrimFloat.sub;
  fmul := PrimFloat.mul;
  fdiv := PrimFloat.div;
  fzero := fun x => PrimFloat.eqb x PrimFloat.zero;
  ftrunc := float_trunc;
}.

(** *** Exact rationals: the same formulas without rounding.  A division
    by zero has no exact value ([Qdiv] gives [0]); statements about this
    instance keep the divisors away from zero. *)

#[export] Instance exact : Float64 Q := {
  of_Z := inject_Z;
  fadd := Qplus;
  fsub := Qminus;
  fmul := Qmult;
  fdiv := Qdiv;
  fzero := fun x => Qeq_bool x 0;
  ftrunc := fun x => Ok (Z.quot (Qnum x) (Zpos (Qden x)));
}.

Section Numbers.
Context {F : Type} `{Float64 F}.

(** A number at run time. *)
Inductive number :=
| PyInt (z : Z)       (* Python [int] *)
| NpInt (z : Z)       (* [numpy.int64] *)
| PyFloat (x : F)     (* Python [float] *)
| NpFloat (x : F).    (* [numpy.float64] *)

Definition is_np (n : number) : bool :=
  match n with NpInt _ | NpFloat _ => true | _ => false end.

Definition to_F (n : number) : F :=
  match n with
  | PyInt z | NpInt z => of_Z z
  | PyFloat x | NpFloat x => x
  end.

Definition is_zero (n : number) : bool :=
  match n with
  | PyInt z | NpInt z => z =? 0
  | PyFloat x | NpFloat x => fzero x
  end.

(** [+], [-], [*]: integers stay integers, a numpy operand makes the
    result a numpy scalar. *)
Definition arith (fz : Z -> Z -> Z) (ff : F -> F -> F) (a b : number) : number :=
  match a, b with
  | PyInt x, PyInt y => PyInt (fz x y)
  | PyInt x, NpInt y | NpInt x, PyInt y | NpInt x, NpInt y => NpInt (fz x y)
  | _, _ =>
      if is_np a || is_np b then NpFloat (ff (to_F a) (to_F b))
      else PyFloat (ff (to_F a) (to_F b))
  end.

Definition add := arith Z.add fadd.
Definition sub := arith Z.sub fsub.
Definition mul := arith Z.mul fmul.

(** [a / b]: Python numbers raise on a zero divisor, numpy divides as
    IEEE does (and warns). *)
Definition truediv (a b : number) : result number :=
  if is_np a || is_np b then Ok (NpFloat (fdiv (to_F a) (to_F b)))
  else if is_zero b then Raise ZeroDivisionError
  else Ok (PyFloat (fdiv (to_F a) (to_F b))).

(** [a ** 2]. *)
Definition square (a : number) : number := mul a a.

(** [int(a)]. *)
Definition py_int (a : number) : result Z :=
  match a with
  | PyInt z | NpInt z => Ok z
  | PyFloat x | NpFloat x => ftrunc x
  end.

(** [np.sum] of a float array: the elements are added left to right.
    numpy adds fewer than eight elements in this order and longer arrays
    by blocks: the two orders agree in exact arithmetic, and on binary64
    they can differ in the last digits.  The statements about binary64
    values use sums of fewer than eight elements. *)
Definition np_sum (l : list F) : F := fold_left fadd l (of_Z 0).

(** [np.average] of a list: the sum over the count; an empty list gives
    [0.0 / 0]. *)
Definition np_average (l : list F) : F :=
  fdiv (np_sum l) (of_Z (Z.of_nat (length l))).

(** A value stored in a result mapping. *)
Inductive pyobj :=
| PyNum (n : number)
| PyList (l : list number).

End Numbers.
Arguments number F : clear implicits.
Arguments pyobj F : clear implicits.

(** ** Sequences, arrays and columns *)

(** [range(a, b)]. *)
Definition range (a b : Z) : list Z :=
  map (fun i => a + Z.of_nat i) (seq 0 (Z.to_nat (b - a))).

(** [np.where(mask)[0]]: the positions that hold [True]. *)
Fixpoint np_where_from (i : nat) (mask : list bool) : list nat :=
  match mask with
  | [] => []
  | b :: mask' =>
      if b then i :: np_where_from (S i) mask' else np_where_from (S i) mask'
  end.
Definition np_where (mask : list bool) : list nat := np_where_from 0 mask.

(** [a[mask]]: the elements of [a] at the positions that hold [True]. *)
Fixpoint np_take {A} (a : list A) (mask : list bool) : list A :=
  match a, mask with
  | x :: a', b :: mask' => if b then x :: np_take a' mask' else np_take a' mask'
  | _, _ => []
  end.

(** [a[0]] on an array. *)
Definition item0 {A} (a : list A) : result A :=
  match a with
  | x :: _ => Ok x
  | [] => Raise IndexError
  end.

(** [column[i]] on a column indexed [0 .. n-1]: a missing label is a
    [KeyError]. *)
Definition at_label {A} (column : list A) (i : Z) : result A :=
  if i <? 0 then Raise KeyError
  else match nth_error column (Z.to_nat i) with
       | Some x => Ok x
       | None => Raise KeyError
       end.

(** [sum] of booleans. *)
Definition count_true (l : list bool) : Z :=
  Z.of_nat (length (List.filter (fun b => b) l)).

(** The differences of neighbours. *)
Fixpoint gaps (l : list Z) : list Z :=
  match l with
  | a :: (b :: _) as l' => (b - a) :: gaps l'
  | _ => []
  end.

(** [nltk.FreqDist]: a counter whose keys stand in the order of their first
    occurrence. *)
Fixpoint FreqDist_incr (w : string) (d : list (string * Z)) : list (string * Z) :=
  match d with
  | [] => [(w, 1)]
  | (k, n) :: d' =>
      if String.eqb k w then (k, n + 1) :: d' else (k, n) :: FreqDist_incr w d'
  end.

Definition FreqDist (tokens : list string) : list (string * Z) :=
  fold_left (fun d w => FreqDist_incr w d) tokens [].

(** [sort_values('freq', ascending=False)]: descending by count.  Rows of
    equal count keep the order of their first occurrence here; pandas
    leaves the order of ties to the sort of numpy, which can order the
    tied rows of a long table otherwise.  The order of ties decides which
    type stands at a rank, and so the values of [getTC] and [getSTC]; the
    proofs below use two facts about the sorted table only, that it is a
    permutation of the counter and that its counts descend. *)
Fixpoint insert_desc (x : string * Z) (l : list (string * Z)) : list (string * Z) :=
  match l with
  | [] => [x]
  | y :: l' => if snd y <=? snd x then x :: l else y :: insert_desc x l'
  end.

Fixpoint sort_values_desc (l : list (string * Z)) : list (string * Z) :=
  match l with
  | [] => []
  | x :: l' => insert_desc x (sort_values_desc l')
  end.

Fixpoint foldM {A B} (f : B -> A -> result B) (l : list A) (b : B) : result B :=
  match l with
  | [] => Ok b
  | a :: l' => let* b' := f b a in foldM f l' b'
  end.

(** ** The store of result mappings

    An aggregator allocates a dictionary, fills it key by key and returns
    the reference. *)

Abbreviation dict F := (gmap string (pyobj F)).
Abbreviation heap F := (gmap nat (gmap string (pyobj F))).

Section Store.
Context {F : Type}.

(** A computation that reads and extends the store, or raises. *)
Definition M (A : Type) : Type := heap F -> result (A * heap F).

Definition ret {A} (a : A) : M A := fun h => Ok (a, h).

Definition bindM {A B} (m : M A) (k : A -> M B) : M B :=
  fun h => match m h with
           | Ok (a, h') => k a h'
           | Raise e => Raise e
           end.

Definition lift {A} (m : result A) : M A :=
  fun h => match m with
           | Ok a => Ok (a, h)
           | Raise e => Raise e
           end.

(** [dict()]: a new, empty dictionary at an address not in use. *)
Definition new_dict : M nat :=
  fun h => let l := fresh (dom h) in Ok (l, <[l := ∅]> h).

(** [d[key] = value]. *)
Definition setitem (d : nat) (key : string) (value : pyobj F) : M unit :=
  fun h => Ok (tt, <[d := <[key := value]> (h !!! d)]> h).

(** [d[key] = e] and [d[key] = [e]]: the right-hand side is evaluated,
    then stored. *)
Definition store (d : nat) (key : string) (e : result (number F)) : M unit :=
  bindM (lift e) (fun v => setitem d key (PyNum v)).

Definition store_list (d : nat) (key : string) (e : result (number F)) : M unit :=
  bindM (lift e) (fun v => setitem d key (PyList [v])).

End Store.

Notation "'run' x ':=' m 'in' k" := (bindM m (fun x => k))
  (at level 10, x name, m at level 100, k at level 200).
Notation "m ;; k" := (bindM m (fun _ => k))
  (at level 100, right associativity).

(** ** quita.py *)

Module Quita.
Section QuitaText.
Context {F : Type} `{Float64 F} `{Libm F} `{NLTK}.

(** One row of the [typeData] frame. *)
Record row := {
  type : string;
  freq : Z;
  prob : F;
  rank : Z;
  cumProb : F;
  pos : string;
}.

Record QuitaText := {
  text : string;
  tokenList : list string;
  tokenNum : Z;
  typeData : list row;
  typeNum : Z;
}.

Definition regexp_tokenize (text pattern : string) : result (list string) :=
  Re.findall pattern text.

Definition cleanText (text : string) : result string :=
  let text := lower text in
  let* text := Re.sub "'m|'s|n't" "" text in
  let* text := Re.sub "[0-9]" "" text in
  let* text := Re.sub "\[.+?\]" " " text in
  Ok text.

(** [pos_tag([word])[0][1]]. *)
Definition tag_of (word : string) : result string :=
  let* p := item0 (pos_tag [word]) in Ok (snd p).

Definition isFunctionWord (word : string) : result bool :=
  let functionWordsPOS :=
    ["DT"; "CD"; "CC"; "UH"; "EX"; "MD"; "PP"; "PP$";
     "WP"; "WP$"; "PDT"; "WDT"; "IN"; "TO"; "WRB"] in
  let* t := tag_of word in Ok (existsb (String.eqb t) functionWordsPOS).

Definition isVerb (word : string) : result bool :=
  let verbPOS := ["VB"; "VBD"; "VBG"; "VBN"; "VBP"; "VBZ"] in
  let* t := tag_of word in Ok (existsb (String.eqb t) verbPOS).

Definition isAdjective (word : string) : result bool :=
  let adjPOS := ["JJ"; "JJR"; "JJS"] in
  let* t := tag_of word in Ok (existsb (String.eqb t) adjPOS).

(** The six columns side by side. *)
Fixpoint rows (types : list string) (freqs : list Z) (probs : list F)
    (ranks : list Z) (cumProbs : list F) (tags : list string) : list row :=
  match types, freqs, probs, ranks, cumProbs, tags with
  | t :: types', f :: freqs', p :: probs', r :: ranks', c :: cumProbs', g :: tags' =>
      {| type := t; freq := f; prob := p; rank := r; cumProb := c; pos := g |}
        :: rows types' freqs' probs' ranks' cumProbs' tags'
  | _, _, _, _, _, _ => []
  end.

Definition getTypeData (tokenList : list string) : result (list row) :=
  let freqDist := FreqDist tokenList in
  let typeNum := Z.of_nat (length freqDist) in
  let tokenNum := fold_left Z.add (map snd freqDist) 0 in
  let sorted := sort_values_desc freqDist in
  let types := map fst sorted in
  let freqs := map snd sorted in
  let probs := map (fun freq => fdiv (of_Z freq) (of_Z tokenNum)) freqs in
  let ranks := range 1 (typeNum + 1) in
  let cumProbs :=
    map (fun i => np_sum (firstn (Z.to_nat i) probs)) (range 1 (typeNum + 1)) in
  let tags := map snd (pos_tag types) in
  if (length tags =? length types)%nat
  then Ok (rows types freqs probs ranks cumProbs tags)
  else Raise ValueError.

Definition init (rawText : string) : result QuitaText :=
  let* text := cleanText rawText in
  let* tokenList := regexp_tokenize text "\w+" in
  let tokenNum := Z.of_nat (length tokenList) in
  let* typeData := getTypeData tokenList in
  let typeNum := Z.of_nat (length typeData) in
  Ok {| text := text; tokenList := tokenList; tokenNum := tokenNum;
        typeData := typeData; typeNum := typeNum |}.

Definition np_sqrt_num (a : number F) : number F := NpFloat (np_sqrt (to_F a)).
Definition np_log10_num (a : number F) : number F := NpFloat (np_log10 (to_F a)).
(** [a ** 0.5]. *)
Definition pow_half_num (a : number F) : number F :=
  if is_np a then NpFloat (pow_half (to_F a)) else PyFloat (pow_half (to_F a)).

Definition isExactHPoint (self : QuitaText) : bool :=
  let freq := map freq (typeData self) in
  let rank := map rank (typeData self) in
  count_true (zip_with Z.eqb freq rank) >? 0.

Definition getTTR (self : QuitaText) : result (number F) :=
  truediv (PyInt (typeNum self)) (PyInt (tokenNum self)).

Definition getHPoint (self : QuitaText) : result (number F) :=
  let freq := map freq (typeData self) in
  let rank := map rank (typeData self) in
  if isExactHPoint self then
    let* i := item0 (np_where (zip_with Z.eqb freq rank)) in
    Ok (NpInt (Z.of_nat i + 1))
  else
    let r1 := count_true (zip_with Z.gtb freq rank) in
    let r2 := count_true (zip_with Z.gtb freq rank) + 1 in
    let* f1 := item0 (np_take freq (map (fun r => r =? r1) rank)) in
    let* f2 := item0 (np_take freq (map (fun r => r =? r2) rank)) in
    truediv (sub (mul (NpInt f1) (NpInt r2)) (mul (NpInt f2) (NpInt r1)))
            (sub (add (sub (NpInt r2) (NpInt r1)) (NpInt f1)) (NpInt f2)).

Definition getEntropy (self : QuitaText) : result (number F) :=
  let prob := map prob (typeData self) in
  Ok (NpFloat (np_sum (map (fun p => fmul p (np_log2 p)) prob))).

Definition getATL (self : QuitaText) : result (number F) :=
  Ok (NpFloat (np_average
                 (map (fun i => of_Z (Z.of_nat (String.length i))) (tokenList self)))).

(** [rank == h] for an integer [h]. *)
Definition rank_is (self : QuitaText) (h : Z) : list bool :=
  map (fun r => r =? h) (map rank (typeData self)).

Definition getVocabRich (self : QuitaText) : result (number F) :=
  let cumProb := map cumProb (typeData self) in
  if isExactHPoint self then
    let* h := getHPoint self in
    let* hz := py_int h in
    let hCumProb := np_take cumProb (rank_is self hz) in
    let* t := truediv (square h) (mul (PyInt 2) (PyInt (tokenNum self))) in
    let richness :=
      map (fun c => sub (PyInt 1) (sub (NpFloat c) t)) hCumProb in
    item0 richness
  else
    let* h := getHPoint self in
    let* hLeft := py_int h in
    let hRight := hLeft + 1 in
    let hCumProbLeft := np_take cumProb (rank_is self hLeft) in
    let hCumProbRight := np_take cumProb (rank_is self hRight) in
    let* hCumProb :=
      if (length hCumProbLeft =? length hCumProbRight)%nat
      then Ok (NpFloat (np_average (hCumProbLeft ++ hCumProbRight)))
      else Raise ValueError in
    let* t := truediv (square h) (mul (PyInt 2) (PyInt (tokenNum self))) in
    Ok (sub (PyInt 1) (sub hCumProb t)).

Definition getRR (self : QuitaText) : result (number F) :=
  let prob := map prob (typeData self) in
  Ok (NpFloat (np_sum (map (fun p => fmul p p) prob))).

Definition getRRmc (self : QuitaText) : result (number F) :=
  let* RR := getRR self in
  let* inv := truediv (PyInt 1) (np_sqrt_num (PyInt (typeNum self))) in
  truediv (sub (PyInt 1) (np_sqrt_num RR)) (sub (PyInt 1) inv).

(** The body of the loops of [getTC] and [getSTC] at index [i]: the term
    appended to [TCList], if any. *)
Definition TC_at (self : QuitaText) (h : number F) (i : Z) : result (list (number F)) :=
  let* word := at_label (map type (typeData self)) i in
  let* fw := isFunctionWord word in
  if negb fw then
    let* f1 := at_label (map freq (typeData self)) 0 in
    let* freq := at_label (map freq (typeData self)) i in
    let* rank := at_label (map rank (typeData self)) i in
    let* TC := truediv (mul (PyInt 2) (mul (sub h (NpInt rank)) (NpInt freq)))
                       (mul (mul h (sub h (PyInt 1))) (NpInt f1)) in
    Ok [TC]
  else Ok [].

Definition getTC (self : QuitaText) : result (number F) :=
  let* h := getHPoint self in
  let* ih := py_int h in
  let* TCList := mapM (TC_at self h) (range 0 (ih - 1)) in
  Ok (NpFloat (np_sum (map to_F (concat TCList)))).

Definition getSTC (self : QuitaText) : result (number F) :=
  let* h := getHPoint self in
  let* ih := py_int h in
  let* TCList := mapM (TC_at self h) (range (ih - 1) (2 * ih - 1)) in
  Ok (NpFloat (np_sum (map to_F (concat TCList)))).

Definition getActivity (self : QuitaText) : result (number F) :=
  let* verbs := mapM isVerb (tokenList self) in
  let verbNum := count_true verbs in
  let* adjs := mapM isAdjective (tokenList self) in
  let adjNum := count_true adjs in
  truediv (PyInt verbNum) (add (PyInt verbNum) (PyInt adjNum)).

Definition getDescriptivity (self : QuitaText) : result (number F) :=
  let* a := getActivity self in Ok (sub (PyInt 1) a).

Definition getCurveLen (self : QuitaText) (typeNum_arg : option Z) : result (number F) :=
  let typeNum := match typeNum_arg with None => typeNum self | Some n => n end in
  foldM (fun euclidLength i =>
           let* freq1 := at_label (map freq (typeData self)) i in
           let* freq2 := at_label (map freq (typeData self)) (i + 1) in
           Ok (add euclidLength
                   (pow_half_num
                      (add (square (sub (NpInt freq1) (NpInt freq2))) (PyInt 1)))))
        (range 0 (typeNum - 1)) (PyInt 0).

Definition getCLI (self : QuitaText) : result (number F) :=
  let* h := getHPoint self in
  let* ih := py_int h in
  let* euclidLengthBeforeH := getCurveLen self (Some (ih - 1)) in
  let* euclidLengthAll := getCurveLen self None in
  let* q := truediv euclidLengthBeforeH euclidLengthAll in
  Ok (sub (PyInt 1) q).

Definition getLambda (self : QuitaText) : result (number F) :=
  let* euclidLength := getCurveLen self None in
  truediv (mul euclidLength (np_log10_num (PyInt (tokenNum self))))
          (PyInt (tokenNum self)).

Definition getAdjMod (self : QuitaText) : result (number F) :=
  let* f1 := at_label (map freq (typeData self)) 0 in
  let* h := getHPoint self in
  let V := PyInt (typeNum self) in
  let N := PyInt (tokenNum self) in
  let* a := truediv (NpInt f1) h in
  let* b := truediv V h in
  let M := pow_half_num (add (square a) (square b)) in
  truediv M (np_log10_num N).

Definition getGiniCoef (self : QuitaText) : result (number F) :=
  let freq := map freq (typeData self) in
  let rank := map rank (typeData self) in
  let V := PyInt (typeNum self) in
  let N := PyInt (tokenNum self) in
  let* q := truediv (mul (PyInt 2) (NpInt (fold_left Z.add (zip_with Z.mul freq rank) 0))) N in
  truediv (sub (add V (PyInt 1)) q) V.

(** The built-in [sum] iterates the column, which hands out Python
    values: the count is a Python [int]. *)
Definition getHL (self : QuitaText) : result (number F) :=
  let hapax := map (fun f => f =? 1) (map freq (typeData self)) in
  let hapaxFreq := PyInt (count_true hapax) in
  truediv hapaxFreq (PyInt (tokenNum self)).

Definition getAlpha (self : QuitaText) : result (number F) :=
  let* f1 := at_label (map freq (typeData self)) 0 in
  let* h := getHPoint self in
  let V := PyInt (typeNum self) in
  let up := mul (sub (PyInt 1) h)
                (sub (add (NpInt f1) V) (mul (PyInt 2) h)) in
  let down :=
    mul (pow_half_num (add (square (sub h (PyInt 1))) (square (sub (NpInt f1) h))))
        (pow_half_num (add (square (sub h (PyInt 1))) (square (sub V h)))) in
  truediv up down.

Definition getVerbDist (self : QuitaText) : result (number F) :=
  let* verbs := mapM isVerb (tokenList self) in
  let verbIndex := map Z.of_nat (np_where verbs) in
  let verbDist := gaps verbIndex in
  Ok (NpFloat (np_average (map of_Z verbDist))).

Definition getQuitaFeature (text : string) : M nat :=
  run features := new_dict in
  run quitaText := lift (init text) in
  store features "TTR" (getTTR quitaText) ;;
  store features "R" (getHPoint quitaText) ;;
  store features "ATL" (getATL quitaText) ;;
  store features "R4" (getVocabRich quitaText) ;;
  store features "RR" (getRR quitaText) ;;
  store features "RRmc" (getRRmc quitaText) ;;
  store features "TC" (getTC quitaText) ;;
  store features "STC" (getSTC quitaText) ;;
  store features "Q" (getActivity quitaText) ;;
  store features "D" (getDescriptivity quitaText) ;;
  store features "CL" (getCurveLen quitaText None) ;;
  store features "R" (getCLI quitaText) ;;
  store features "Lambda" (getLambda quitaText) ;;
  store features "A" (getAdjMod quitaText) ;;
  store features "G" (getGiniCoef quitaText) ;;
  store features "HL" (getHL quitaText) ;;
  store features "Alpha" (getAlpha quitaText) ;;
  store features "VD" (getVerbDist quitaText) ;;
  ret features.

End QuitaText.
End Quita.

(** ** biber.py *)

Module Biber.

(** *** Functions to combine patterns *)

(** The "OR" of the patterns of the list.  (The source indexes the last
    element and raises on an empty list; every call passes a literal,
    non-empty list.) *)
Definition OR (patternList : list string) : string :=
  "(" +:+ join "|" patternList +:+ ")".

Definition str (n : nat) : string := pretty.pretty n.

Definition REPEAT (pattern : string) (time_range : nat * nat) : string :=
  let time_range := str (fst time_range) +:+ "," +:+ str (snd time_range) in
  pattern +:+ "{" +:+ time_range +:+ "}".

(** *** Patterns of the grammatical categories *)

Definition XXX := "( \w+_[A-Z]+)".
Definition DO := "( (do|does|did|doing|done)_[A-Z]+)".
Definition HAVE := "( (have|has|had|having|'ve|'d)_[A-Z]+)".
Definition BE := "( (am|is|are|was|were|being|been|'m|'re)_[A-Z]+)".
Definition MODAL := "( (can|may|shall|will|'ll|could|might|should|would|must)_[A-Z]+)".
Definition AUX := OR [DO; HAVE; BE; MODAL; "( 's_[A-Z]+)"].
Definition SUBJPRO := "( (I|we|he|she|they)_[A-Z]+)".
Definition OBJPRO := "( (me|us|him|them)_[A-Z]+)".
Definition POSSPRO := "( (my|our|your|his|their|its)_[A-Z]+)".
Definition REFLEXPRO :=
  "( (myself|ourselves|himself|themselves|herself|yourself"
  +:+ "|yourselves|itself)_[A-Z]+)".
Definition PRO := OR [SUBJPRO; OBJPRO; POSSPRO; REFLEXPRO; "( (you|her|it)_[A-Z]+)"].
Definition PREP :=
  "( (against|amid|amidst|among|amongst|at|besides|between|by|despite"
  +:+ "|during|except|for|from|in|into|minus|notwithstanding|of|off|on|onto"
  +:+ "|opposite|out|per|plus|pro|re|than|through|throughout|thru|to|toward"
  +:+ "|towards|upon|versus|via|with|within|without)_[A-Z]+)".
Definition ADV := "( \w+_(RB|RBR|RBS))".
Definition ADJ := "( \w+_(JJ|JJR|JJS))".
Definition N := "( \w+_(NN|NNS|NNP|NNPS))".
Definition VBN := "( \w+_VBN)".
Definition VBG := "( \w+_VBG)".
Definition VB := "( \w+_VB)".
Definition VBZ := "( \w+_VBZ)".
Definition PUB :=
  "( (acknowledge|admit|agree|assert|claim|complain|declare|deny|explain"
  +:+ "|hint|insist|mention|proclaim|promise|protest|remark|reply|report|say"
  +:+ "|suggest|swear|write)_[A-Z]+)".
Definition PRV :=
  "( (anticipate|assume|believe|conclude|decide|demonstrate|determine"
  +:+ "|discover|doubt|estimate|fear|feel|find|forget|guess|hear|hope|imagine"
  +:+ "|imply|indicate|infer|know|learn|mean|notice|prove|realize|recognize"
  +:+ "|remember|reveal|see|show|suppose|think|understand)_[A-Z]+) ".
Definition SUA :=
  "( (agree|arrange|ask|beg|command|decide|demand|grant|insist|instruct"
  +:+ "|ordain|pledge|pronounce|propose|recommend|request|stipulate|suggest"
  +:+ "|urge)_[A-Z]+)".
Definition V := "( \w+_(VB|VBD|VBG|VBN|VBP|VBZ))".
Definition WHP := "( (who|whom|whose|which)_[A-Z]+)".
Definition WHO :=
  "( (what|where|when|how|whether|why|whoever|whomever|whichever|wherever"
  +:+ "|whenever|whatever|however)_[A-Z]+)".
Definition ART := "( (a|an|the)_[A-Z]+)".
Definition DEM := "( (this|that|these|those)_[A-Z]+)".
Definition QUAN := "( (each|all|every|many|much|few|several|some|any)_[A-Z]+)".
Definition NUM :=
  "( (one|two|three|four|five|six|seven|eight|nine|ten|twelve|thirteen"
  +:+ "|fourteen|fifteen|sixteen|seventeen|eighteen|nineteen|twenty|hundred"
  +:+ "|thousand)_[A-Z]+)".
Definition DET := OR [ART; DEM; QUAN; NUM].
Definition ORD :=
  "( (first|second|third|fourth|fifth|sixth|seventh|eighth|ninth"
  +:+ "|tenth)_[A-Z]+)".
Definition QUANPRO :=
  "( (everybody|somebody|anybody|everyone|someone|anyone|everything"
  +:+ "|something|anything)_[A-Z]+)".
Definition TITLE := "( (mr|ms|miss|mrs|dr)_[A-Z]+)".
Definition CL_P := "( \._\.|\!_\!|\?_\?|\:_\:|\;_\;|\-_\-)".
Definition ALL_P := OR [CL_P; "( \,_\,)"].
Definition SEEM := "( seem_[A-Z])".
Definition APPEAR := "( appear+_[A-Z])".
Definition DEMOPRO :=
  OR ["( (that|this|these|those)_[A-Z]+)"
        +:+ OR [V; AUX; CL_P; WHP; "( and_[A-Z]+)"];
      "( that_[A-Z]+ 's_[A-Z]+)"].

Definition getCONJ : string :=
  let pattern_1 :=
    "(alternatively|altogether|consequently|conversely"
    +:+ "|else|furthermore|hence|however|instead|likewise"
    +:+ "|moreover|namely|nevertheless|nonetheless"
    +:+ "|notwithstanding|otherwise|rather|similarly|therefore"
    +:+ "|thus|viz) " in
  let pattern_2 :=
    "( in_[A-Z]+)" +:+ "( (comparison|contrast|particular "
    +:+ "|addition|conclusion|consequence|sum"
    +:+ "|summary)_[A-Z]+) " in
  let pattern_3 :=
    "( in_[A-Z]+)" +:+ "( (any_[A-Z]+ event_[A-Z]+|any_[A-Z]+ "
    +:+ "case_[A-Z]+|other_[A-Z]+ words_[A-Z]+)) " in
  let pattern_4 := "( for_[A-Z]+)" +:+ "( (example|instance)_[A-Z]+)" in
  let pattern_5 := "( by_[A-Z]+)" +:+ "( (contrast|comparison)_[A-Z]+)" in
  let pattern_6 := "( as_[A-Z]+ a_[A-Z]+)" +:+ "( (result|consequence)_[A-Z]+)" in
  let pattern_7 :=
    "( on_[A-Z]+ the_[A-Z]+ contrary_[A-Z]+"
    +:+ "|on_[A-Z]+ the_[A-Z]+ other_[A-Z]+ hand_[A-Z]+)" in
  let pattern_8 :=
    ALL_P +:+ "( that_[A-Z]+ is_[A-Z]+| else_[A-Z]+"
    +:+ "| altogether_[A-Z]+)" in
  OR [pattern_1; pattern_2; pattern_3; pattern_4;
      pattern_5; pattern_6; pattern_7; pattern_8].

Section BiberText.
Context {F : Type} `{Float64 F} `{NLTK}.

Record BiberText := {
  rawText : string;
  taggedText : string;
  tokenList : list string;
  tagList : list string;
  typeList : list string;
  tokenNum : Z;
  typeNum : Z;
}.

Definition posTag (rawText : string) : string :=
  let tagList := pos_tag (word_tokenize rawText) in
  let resultList := map (fun i => lower (fst i) +:+ "_" +:+ snd i) tagList in
  let taggedText := join " " resultList in
  taggedText.

Definition init (rawText : string) : BiberText :=
  let tokenList := word_tokenize rawText in
  let typeList := map fst (FreqDist tokenList) in
  {| rawText := rawText;
     taggedText := posTag rawText;
     tokenList := tokenList;
     tagList := map snd (pos_tag tokenList);
     typeList := typeList;
     tokenNum := Z.of_nat (length tokenList);
     typeNum := Z.of_nat (length typeList) |}.

(** [len(re.findall(pattern, self.taggedText))]. *)
Definition count (pattern : string) (self : BiberText) : result Z :=
  let* l := Re.findall pattern (taggedText self) in Ok (Z.of_nat (length l)).

(** [1000 * num / self.tokenNum]. *)
Definition per_1000 (num : Z) (self : BiberText) : result (number F) :=
  truediv (mul (PyInt 1000) (PyInt num)) (PyInt (tokenNum self)).

Definition feature_01 (self : BiberText) : result (number F) :=
  let num := count_true (map (fun pos => String.eqb pos "VBD") (tagList self)) in
  per_1000 num self.

Definition feature_02 (self : BiberText) : result (number F) :=
  let pattern_a := HAVE +:+ REPEAT ADV (0, 2)%nat +:+ VBN in
  let pattern_b := HAVE +:+ OR [N; PRO] +:+ VBN in
  let pattern := OR [pattern_a; pattern_b] in
  let* num := count pattern self in
  per_1000 num self.

Definition feature_03 (self : BiberText) : result (number F) :=
  let num := count_true (map (fun pos => existsb (String.eqb pos) ["VBP"; "VBZ"])
                             (tagList self)) in
  per_1000 num self.

Definition feature_04 (self : BiberText) : result (number F) :=
  let pattern :=
    "( (aboard|above|abroad|across|ahead|alongside|around"
    +:+ "|ashore|astern|away|behind|below|beneath|beside|downhill"
    +:+ "|downstairs|downstream|east|far|hereabouts|indoors|inland"
    +:+ "|inshore|inside|locally|near|nearby|north|nowhere|outdoors"
    +:+ "|outside|overboard|overland|overseas|south|underfoot"
    +:+ "|underground|underneath|uphill|upstairs|upstream|west)"
    +:+ "_[A-Z]+)" in
  let* num := count pattern self in
  per_1000 num self.

Definition feature_05 (self : BiberText) : result (number F) :=
  let pattern :=
    "( (afterwards|again|earlier|early|eventually|formerly"
    +:+ "|immediately|initially|instantly|late|lately|later"
    +:+ "|momentarily|now|nowadays|once|originally|presently"
    +:+ "|previously|recently|shortly|simultaneously|soon"
    +:+ "|subsequently|today|tomorrow|tonight|yesterday)"
    +:+ "_[A-Z]+)" in
  let* num := count pattern self in
  per_1000 num self.

Definition feature_06 (self : BiberText) : result (number F) :=
  let pattern := "( (I|me|we|us|my|our|myself|ourselves)_[A-Z]+)" in
  let* num := count pattern self in
  per_1000 num self.

Definition feature_07 (self : BiberText) : result (number F) :=
  let pattern := "( (you|your|yourself|yourselves)_[A-Z]+)" in
  let* num := count pattern self in
  per_1000 num self.

Definition feature_08 (self : BiberText) : result (number F) :=
  let pattern :=
    "( (she|he|they|her|him|them|his|their|himself|herself"
    +:+ "|themselves)_[A-Z]+)" in
  let* num := count pattern self in
  per_1000 num self.

Definition feature_09 (self : BiberText) : result (number F) :=
  let pattern := "( it_[A-Z]+)" in
  let* num := count pattern self in
  per_1000 num self.

Definition feature_10 (self : BiberText) : result (number F) :=
  let pattern_a :=
    "( (that|this|these|those)_[A-Z]+)"
    +:+ OR [V; AUX; CL_P; WHP; "( and_[A-Z]+)"] in
  let pattern_b := "( that_[A-Z]+ 's_[A-Z]+)" in
  let pattern := OR [pattern_a; pattern_b] in
  let* num := count pattern self in
  per_1000 num self.

Definition feature_11 (self : BiberText) : result (number F) :=
  let pattern :=
    "( (anybody|anyone|anything|everybody|everyone|everything"
    +:+ "|nobody|none|nothing|nowhere|somebody|someone|something)"
    +:+ "_[A-Z]+)" in
  let* num := count pattern self in
  per_1000 num self.

Definition feature_12 (self : BiberText) : result (number F) :=
  let pattern_a := DO +:+ REPEAT ADV (0, 1)%nat +:+ V in
  let pattern_b := OR [ALL_P; WHP] +:+ DO in
  let* num_a := count pattern_a self in
  let* num_b := count pattern_b self in
  let* num_do := count DO self in
  per_1000 (num_do - num_a - num_b) self.

Definition feature_13 (self : BiberText) : result (number F) :=
  let pattern := CL_P +:+ WHO +:+ AUX in
  let* num := count pattern self in
  per_1000 num self.

Definition feature_14 (self : BiberText) : result (number F) :=
  let pattern := "( \w+(tion|tions|ment|ments|ness|nesses|ity|ities)_[A-Z]+)" in
  let* num := count pattern self in
  per_1000 num self.

Definition feature_17 (self : BiberText) : result (number F) :=
  let pattern_a := BE +:+ REPEAT ADV (0, 2)%nat +:+ VBN +:+ "( by_[A-Z]+)" in
  let pattern_b := BE +:+ OR [N; PRO] +:+ VBN +:+ "( by_[A-Z]+)" in
  let withBy := OR [pattern_a; pattern_b] in
  let pattern_c := BE +:+ REPEAT ADV (0, 2)%nat +:+ VBN in
  let pattern_d := BE +:+ OR [N; PRO] +:+ VBN in
  let allPassive := OR [pattern_c; pattern_d] in
  let* num1 := count withBy self in
  let* num2 := count allPassive self in
  per_1000 (num2 - num1) self.

Definition feature_18 (self : BiberText) : result (number F) :=
  let pattern_a := BE +:+ REPEAT ADV (0, 2)%nat +:+ VBN +:+ "( by_[A-Z]+)" in
  let pattern_b := BE +:+ OR [N; PRO] +:+ VBN +:+ "( by_[A-Z]+)" in
  let pattern := OR [pattern_a; pattern_b] in
  let* num := count pattern self in
  per_1000 num self.

Definition feature_19 (self : BiberText) : result (number F) :=
  let pattern := BE +:+ OR [DET; POSSPRO; TITLE; PREP; ADJ] in
  let* num := count pattern self in
  per_1000 num self.

Definition feature_20 (self : BiberText) : result (number F) :=
  let pattern_a := "( there_[A-Z]+)" +:+ REPEAT XXX (0, 1)%nat +:+ BE in
  let pattern_b := "( there_[A-Z]+)" +:+ "( 's_[A-Z]+)" in
  let pattern := OR [pattern_a; pattern_b] in
  let* num := count pattern self in
  per_1000 num self.

Definition feature_21 (self : BiberText) : result (number F) :=
  let pattern_a :=
    OR ["( (and|nor|but|or|also)_[A-Z]+)"; ALL_P]
    +:+ "( that_[A-Z]+)" +:+ OR [DET; PRO; "( there_[A-Z]+)"; N; TITLE] in
  let* a_num := count pattern_a self in
  let pattern_b_all :=
    OR [PUB; PRV; SUA; SEEM; APPEAR] +:+ "( that_[A-Z]+)" +:+ XXX in
  let pattern_b_except :=
    OR [PUB; PRV; SUA; SEEM; APPEAR]
    +:+ "( that_[A-Z])" +:+ OR [V; AUX; CL_P; "( and_[A-Z]+)"] in
  let* b_all_num := count pattern_b_all self in
  let* b_except_num := count pattern_b_except self in
  let b_num := b_all_num - b_except_num in
  let pattern_c_all :=
    OR [PUB; PRV; SUA] +:+ PREP +:+ XXX +:+ "+" +:+ N +:+ "( that_[A-Z]+)" in
  let pattern_c_except := OR [PUB; PRV; SUA] +:+ PREP +:+ N +:+ N +:+ "( that_[A-Z]+)" in
  let* c_all_num := count pattern_c_all self in
  let* c_except_num := count pattern_c_except self in
  let c_num := c_all_num - c_except_num in
  per_1000 (a_num + b_num + c_num) self.

Definition feature_22 (self : BiberText) : result (number F) :=
  let pattern := ADJ +:+ "( that_[A-Z]+)" in
  let* num := count pattern self in
  per_1000 num self.

Definition feature_23 (self : BiberText) : result (number F) :=
  let pattern_all := OR [PUB; PRV; SUA] +:+ OR [WHP; WHO] +:+ XXX in
  let pattern_except := OR [PUB; PRV; SUA] +:+ OR [WHP; WHO] +:+ AUX in
  let* num_all := count pattern_all self in
  let* num_except := count pattern_except self in
  per_1000 (num_all - num_except) self.

Definition feature_24 (self : BiberText) : result (number F) :=
  let pattern := "( to_[A-Z]+)" +:+ REPEAT ADV (0, 1)%nat +:+ VB in
  let* num := count pattern self in
  per_1000 num self.

Definition feature_25 (self : BiberText) : result (number F) :=
  let pattern := ALL_P +:+ VBG +:+ OR [PREP; DET; WHP; WHO; PRO; ADV] in
  let* num := count pattern self in
  per_1000 num self.

Definition feature_26 (self : BiberText) : result (number F) :=
  let pattern := ALL_P +:+ VBN +:+ OR [PREP; ADV] in
  let* num := count pattern self in
  per_1000 num self.

Definition feature_27 (self : BiberText) : result (number F) :=
  let pattern := OR [N; QUANPRO] +:+ VBN +:+ OR [PREP; BE; ADV] in
  let* num := count pattern self in
  per_1000 num self.

Definition feature_28 (self : BiberText) : result (number F) :=
  let pattern := N +:+ VBG in
  let* num := count pattern self in
  per_1000 num self.

Definition feature_29 (self : BiberText) : result (number F) :=
  let pattern := N +:+ "( that_[A-Z]+)" +:+ REPEAT ADV (0, 1)%nat +:+ OR [AUX; V] in
  let* num := count pattern self in
  per_1000 num self.

Definition feature_30 (self : BiberText) : result (number F) :=
  let pattern :=
    N +:+ "( that_[A-Z]+)"
    +:+ OR [DET; SUBJPRO; POSSPRO; "( it_[A-Z]+)"; ADJ; N; TITLE] in
  let* num := count pattern self in
  per_1000 num self.

Definition feature_31 (self : BiberText) : result (number F) :=
  let ASK := "( (ask|asked|asks)_[A-Z]+)" in
  let TELL := "( (tell|told|tells)_[A-Z]+)" in
  let pattern_all :=
    XXX +:+ XXX +:+ N +:+ WHP +:+ REPEAT ADV (0, 1)%nat +:+ OR [AUX; V] in
  let pattern_except :=
    OR [ASK; TELL] +:+ XXX +:+ N +:+ WHP +:+ REPEAT ADV (0, 1)%nat +:+ OR [AUX; V] in
  let* num_all := count pattern_all self in
  let* num_except := count pattern_except self in
  per_1000 (num_all - num_except) self.

Definition feature_32 (self : BiberText) : result (number F) :=
  let ASK := "( (ask|asked|asks)_[A-Z]+)" in
  let TELL := "( (tell|told|tells)_[A-Z]+)" in
  let pattern_1 := XXX +:+ XXX +:+ N +:+ WHP +:+ XXX in
  let pattern_2 := XXX +:+ OR [ASK; TELL] +:+ N +:+ WHP +:+ OR [ADV; AUX; V] in
  let pattern_3 := XXX +:+ OR [ASK; TELL] +:+ N +:+ WHP +:+ XXX in
  let pattern_4 := XXX +:+ XXX +:+ N +:+ WHP +:+ OR [ADV; AUX; V] in
  let* num_1 := count pattern_1 self in
  let* num_2 := count pattern_2 self in
  let* num_3 := count pattern_3 self in
  let* num_4 := count pattern_4 self in
  per_1000 (num_1 + num_2 - num_4 - num_3) self.

Definition feature_33 (self : BiberText) : result (number F) :=
  let pattern := PREP +:+ WHP in
  let* num := count pattern self in
  per_1000 num self.

Definition feature_34 (self : BiberText) : result (number F) :=
  let pattern := "( ,_, which_[A-Z]+)" in
  let* num := count pattern self in
  per_1000 num self.

Definition feature_35 (self : BiberText) : result (number F) :=
  let pattern := "( because_[A-Z]+)" in
  let* num := count pattern self in
  per_1000 num self.

Definition feature_36 (self : BiberText) : result (number F) :=
  let pattern := "( (although|though)_[A-Z]+)" in
  let* num := count pattern self in
  per_1000 num self.

Definition feature_37 (self : BiberText) : result (number F) :=
  let pattern := "( (if|unless)_[A-Z]+)" in
  let* num := count pattern self in
  per_1000 num self.

Definition feature_38 (self : BiberText) : result (number F) :=
  let pattern :=
    OR ["( (since|while|whilst|whereupon|whereas|whereby)_[A-Z]+)";
        "( (such|so|such)_[A-Z]+ that_[A-Z]+)";
        "( (inasmuch|forasmuch|insofar|insomuch)_[A-Z]+ as_[A-Z]+)";
        "( as_[A-Z]+ (long|soon)_[A-Z]+ as_[A-Z]+)"] in
  let* num := count pattern self in
  per_1000 num self.

Definition feature_39 (self : BiberText) : result (number F) :=
  let pattern := PREP in
  let* num := count pattern self in
  per_1000 num self.

Definition feature_40 (self : BiberText) : result (number F) :=
  let pattern := ADJ +:+ OR [ADJ; N] in
  let* num := count pattern self in
  per_1000 num self.

Definition feature_41 (self : BiberText) : result (number F) :=
  let pattern_a_all := BE +:+ ADJ +:+ XXX in
  let pattern_a_except := BE +:+ ADJ +:+ OR [ADJ; ADV; N] in
  let* num_a_all := count pattern_a_all self in
  let* num_a_except := count pattern_a_except self in
  let num_a := num_a_all - num_a_except in
  let pattern_b_all := BE +:+ ADJ +:+ ADV +:+ XXX in
  let pattern_b_except := BE +:+ ADJ +:+ ADV +:+ OR [ADJ; N] in
  let* num_b_all := count pattern_b_all self in
  let* num_b_except := count pattern_b_except self in
  let num_b := num_b_all - num_b_except in
  per_1000 (num_a + num_b) self.

Definition feature_42 (self : BiberText) : result (number F) :=
  let pattern := ADV in
  let* num := count pattern self in
  per_1000 num self.

Definition feature_43 (self : BiberText) : result (number F) :=
  truediv (PyInt (typeNum self)) (PyInt (tokenNum self)).

Definition feature_44 (self : BiberText) : result (number F) :=
  let* cleaned_text := Re.sub "[0-9]" "" (rawText self) in
  let* cleaned_text := Re.sub "'s|'m|'t" "" cleaned_text in
  let* wordList := Re.findall "\w+" cleaned_text in
  Ok (NpFloat (np_average
                 (map (fun word => of_Z (Z.of_nat (String.length word))) wordList))).

Definition feature_45 (self : BiberText) : result (number F) :=
  let pattern_1 :=
    "(alternatively|altogether|consequently|conversely"
    +:+ "|else|furthermore|hence|however|instead|likewise"
    +:+ "|moreover|namely|nevertheless|nonetheless"
    +:+ "|notwithstanding|otherwise|rather|similarly|therefore"
    +:+ "|thus|viz) " in
  let pattern_2 :=
    "( in_[A-Z]+)" +:+ "( (comparison|contrast|particular "
    +:+ "|addition|conclusion|consequence|sum"
    +:+ "|summary)_[A-Z]+) " in
  let pattern_3 :=
    "( in_[A-Z]+)" +:+ "( (any_[A-Z]+ event_[A-Z]+|any_[A-Z]+ "
    +:+ "case_[A-Z]+|other_[A-Z]+ words_[A-Z]+)) " in
  let pattern_4 := "( for_[A-Z]+)" +:+ "( (example|instance)_[A-Z]+)" in
  let pattern_5 := "( by_[A-Z]+)" +:+ "( (contrast|comparison)_[A-Z]+)" in
  let pattern_6 := "( as_[A-Z]+ a_[A-Z]+)" +:+ "( (result|consequence)_[A-Z]+)" in
  let pattern_7 :=
    "( on_[A-Z]+ the_[A-Z]+ contrary_[A-Z]+"
    +:+ "|on_[A-Z]+ the_[A-Z]+ other_[A-Z]+ hand_[A-Z]+)" in
  let pattern_8 :=
    ALL_P +:+ "( that_[A-Z]+ is_[A-Z]+| else_[A-Z]+"
    +:+ "| altogether_[A-Z]+)" in
  let pattern := OR [pattern_1; pattern_2; pattern_3; pattern_4;
                     pattern_5; pattern_6; pattern_7; pattern_8] in
  let* num := count pattern self in
  per_1000 num self.

Definition feature_46 (self : BiberText) : result (number F) :=
  let pattern :=
    "(almost|barely|hardly|merely|mildly|nearly|only|partially"
    +:+ "|partly|practically|scarcely|slightly|somewhat)_[A-Z]+ " in
  let* num := count pattern self in
  per_1000 num self.

Definition feature_47 (self : BiberText) : result (number F) :=
  let pattern_a :=
    "(at_[A-Z]+ about_[A-Z]+|something_[A-Z]+ like_[A-Z]+"
    +:+ "|more_[A-Z]+ or_[A-Z]+ less_[A-Z]+"
    +:+ "|almost_[A-Z]+|maybe_[A-Z]+|)" in
  let* num_a := count pattern_a self in
  let pattern_b_all := XXX +:+ "( (sort|kind)_[A-Z]+ of_[A-Z]+)" in
  let pattern_b_except :=
    OR [DET; ADJ; POSSPRO; WHO] +:+ "( (sort|kind)_[A-Z]+ of_[A-Z]+)" in
  let* num_b_all := count pattern_b_all self in
  let* num_b_except := count pattern_b_except self in
  let num_b := num_b_all - num_b_except in
  per_1000 (num_a + num_b) self.

Definition feature_48 (self : BiberText) : result (number F) :=
  let pattern :=
    "absolutely|altogether|completely|enormously|entirely"
    +:+ "|extremely|fully|greatly|highly|intensely|perfectly"
    +:+ "|strongly|thoroughly|totally|utterly|very" in
  let* num := count pattern self in
  per_1000 num self.

Definition feature_49 (self : BiberText) : result (number F) :=
  let pattern :=
    "( for_[A-Z]+ sure_[A-Z]+| a_[A-Z]+ lot_[A-Z]+"
    +:+ "| such_[A-Z]+ a_[A-Z]+| real_[A-Z]+)"
    +:+ OR [ADJ; "( so_[A-Z]+)"] +:+ OR [ADJ; DO]
    +:+ OR [V; "( (just|really|most|more)_[A-Z]+)"] in
  let* num := count pattern self in
  per_1000 num self.

Definition feature_50 (self : BiberText) : result (number F) :=
  let pattern := CL_P +:+ "( (well|now|anyway|anyhow|anyways)_[A-Z]+)" in
  let* num := count pattern self in
  per_1000 num self.

Definition feature_51 (self : BiberText) : result (number F) :=
  let pattern := "( (that|this|these|those)_DT)" in
  let* num := count pattern self in
  per_1000 num self.

Definition feature_52 (self : BiberText) : result (number F) :=
  let pattern := "( (can|may|might|could)_[A-Z]+)" in
  let* num := count pattern self in
  per_1000 num self.

Definition feature_53 (self : BiberText) : result (number F) :=
  let pattern := "( (ought|should|must)_[A-Z]+)" in
  let* num := count pattern self in
  per_1000 num self.

Definition feature_54 (self : BiberText) : result (number F) :=
  let pattern := "( (will|would|shall)_[A-Z]+)" in
  let* num := count pattern self in
  per_1000 num self.

Definition feature_55 (self : BiberText) : result (number F) :=
  let pattern := PUB in
  let* num := count pattern self in
  per_1000 num self.

Definition feature_56 (self : BiberText) : result (number F) :=
  let pattern := PRV in
  let* num := count pattern self in
  per_1000 num self.

Definition feature_57 (self : BiberText) : result (number F) :=
  let pattern := SUA in
  let* num := count pattern self in
  per_1000 num self.

Definition feature_58 (self : BiberText) : result (number F) :=
  let pattern := "( (seem|appear)_[A-Z]+)" in
  let* num := count pattern self in
  per_1000 num self.

Definition feature_59 (self : BiberText) : result (number F) :=
  let pattern_all := "( ('d|'ll|'m|'re|'ve|n't|'s)_[A-Z]+)" in
  let pattern_except :=
    "('s_[A-Z]+)" +:+ OR [V; AUX; ADV] +:+ OR [V; ADV]
    +:+ OR [AUX; DET; POSSPRO; PREP; ADJ] +:+ OR [CL_P; ADJ] in
  let* num_all := count pattern_all self in
  let* num_except := count pattern_except self in
  per_1000 (num_all - num_except) self.

Definition feature_60 (self : BiberText) : result (number F) :=
  let pattern_1 := OR [PUB; PRV; SUA] +:+ OR [DEMOPRO; SUBJPRO] in
  let pattern_2 := OR [PUB; PRV; SUA] +:+ OR [PRO; N] +:+ OR [AUX; V] in
  let pattern_3 :=
    OR [PUB; PRV; SUA] +:+ OR [ADJ; ADV; DET; POSSPRO]
    +:+ REPEAT ADJ (0, 1)%nat +:+ N +:+ OR [AUX; V] in
  let* num_1 := count pattern_1 self in
  let* num_2 := count pattern_2 self in
  let* num_3 := count pattern_3 self in
  per_1000 (num_1 + num_2 + num_3) self.

Definition feature_61 (self : BiberText) : result (number F) :=
  let pattern := PREP +:+ ALL_P in
  let* num := count pattern self in
  per_1000 num self.

Definition feature_62 (self : BiberText) : result (number F) :=
  let pattern := "( to_[A-Z]+)" +:+ ADV +:+ REPEAT ADV (0, 1)%nat +:+ VB in
  let* num := count pattern self in
  per_1000 num self.

Definition feature_63 (self : BiberText) : result (number F) :=
  let pattern := AUX +:+ ADV +:+ REPEAT ADV (0, 1)%nat +:+ VB in
  let* num := count pattern self in
  per_1000 num self.

Definition feature_64 (self : BiberText) : result (number F) :=
  let pattern := OR [ADV; ADJ; V; N] +:+ " (and)_[A-Z]+" +:+ OR [ADV; ADJ; V; N] in
  let* num := count pattern self in
  per_1000 num self.

Definition feature_65 (self : BiberText) : result (number F) :=
  let pattern_1 :=
    "( ,_,)" +:+ "( (and)_[A-Z]+)"
    +:+ "( (it|so|then|you|there)_[A-Z]+)"
    +:+ OR [BE; DEMOPRO; SUBJPRO] in
  let pattern_2 := CL_P +:+ "( and_[A-Z]+)" in
  let pattern_3 :=
    "( and_[A-Z]+)"
    +:+ OR [WHP; WHO;
            "( (because|though|although|if" +:+ "|unless)_[A-Z]+)";
            "( (well|now|anyway|anyhow|anyways)" +:+ "_[A-Z]+)";
            getCONJ] in
  let pattern := OR [pattern_1; pattern_2; pattern_3] in
  let* num := count pattern self in
  per_1000 num self.

Definition feature_66 (self : BiberText) : result (number F) :=
  let pattern_1 := "( no_[A-Z]+)" +:+ OR [QUAN; ADJ; N] in
  let pattern_2 := "(neither|nor)_[A-Z]+" in
  let pattern := OR [pattern_1; pattern_2] in
  let* num := count pattern self in
  per_1000 num self.

Definition feature_67 (self : BiberText) : result (number F) :=
  let pattern := OR [" not_[A-Z]+"; " n't_[A-Z]+"] in
  let* num := count pattern self in
  per_1000 num self.

Definition getBiberFeature (text : string) : M nat :=
  run features := new_dict in
  let biberText := init text in
  store_list features "PASTTENSE" (feature_01 biberText) ;;
  store_list features "PERFECTS" (feature_02 biberText) ;;
  store_list features "PRES" (feature_03 biberText) ;;
  store_list features "PL_ADV" (feature_04 biberText) ;;
  store_list features "TM_ADV" (feature_05 biberText) ;;
  store_list features "PRO1" (feature_06 biberText) ;;
  store_list features "PRO2" (feature_07 biberText) ;;
  store_list features "PRO3" (feature_08 biberText) ;;
  store_list features "IT" (feature_09 biberText) ;;
  store_list features "PDEM" (feature_10 biberText) ;;
  store_list features "PANY" (feature_11 biberText) ;;
  store_list features "PRO_DO" (feature_12 biberText) ;;
  store_list features "WH_QUES" (feature_13 biberText) ;;
  store_list features "N_NOM" (feature_14 biberText) ;;
  store_list features "AGLS_PSV" (feature_17 biberText) ;;
  store_list features "BY_PASV" (feature_18 biberText) ;;
  store_list features "BE_STATE" (feature_19 biberText) ;;
  store_list features "EX_THERE" (feature_20 biberText) ;;
  store_list features "TH_CL" (feature_21 biberText) ;;
  store_list features "ADJ_CL" (feature_22 biberText) ;;
  store_list features "WH_CL" (feature_23 biberText) ;;
  store_list features "INF" (feature_24 biberText) ;;
  store_list features "CL_VBG" (feature_25 biberText) ;;
  store_list features "CL_VBN" (feature_26 biberText) ;;
  store_list features "WHIZ_VBN" (feature_27 biberText) ;;
  store_list features "WHIZ_VBG" (feature_28 biberText) ;;
  store_list features "THTREL_S" (feature_29 biberText) ;;
  store_list features "THTREL_O" (feature_30 biberText) ;;
  store_list features "REL_SUBJ" (feature_31 biberText) ;;
  store_list features "REL_OBJ" (feature_32 biberText) ;;
  store_list features "REL_PIPE" (feature_33 biberText) ;;
  store_list features "SENT_REL" (feature_34 biberText) ;;
  store_list features "SUB_COS" (feature_35 biberText) ;;
  store_list features "SUB_CON" (feature_36 biberText) ;;
  store_list features "SUB_CND" (feature_37 biberText) ;;
  store_list features "SUB_OTHR" (feature_38 biberText) ;;
  store_list features "PREP" (feature_39 biberText) ;;
  store_list features "ADJ_ATTR" (feature_40 biberText) ;;
  store_list features "ADJ_PRED" (feature_41 biberText) ;;
  store_list features "ADVS" (feature_42 biberText) ;;
  store_list features "TYPETOKEN" (feature_43 biberText) ;;
  store_list features "WORDLNGTH" (feature_44 biberText) ;;
  store_list features "CONJNCTS" (feature_45 biberText) ;;
  store_list features "DOWNTONE" (feature_46 biberText) ;;
  store_list features "GENHDG" (feature_47 biberText) ;;
  store_list features "AMPLIFR" (feature_48 biberText) ;;
  store_list features "GEN_EMPH" (feature_49 biberText) ;;
  store_list features "PARTCLE" (feature_50 biberText) ;;
  store_list features "DEM" (feature_51 biberText) ;;
  store_list features "POS_MOD" (feature_52 biberText) ;;
  store_list features "NEC_MOD" (feature_53 biberText) ;;
  store_list features "PRD_MOD" (feature_54 biberText) ;;
  store_list features "PUB_VB" (feature_55 biberText) ;;
  store_list features "PRV_VB" (feature_56 biberText) ;;
  store_list features "SUA_VB" (feature_57 biberText) ;;
  store_list features "SEEM" (feature_58 biberText) ;;
  store_list features "CONTRAC" (feature_59 biberText) ;;
  store_list features "THAT_DEL" (feature_60 biberText) ;;
  store_list features "FINLPREP" (feature_61 biberText) ;;
  store_list features "SPL_INF" (feature_62 biberText) ;;
  store_list features "SPL_AUX" (feature_63 biberText) ;;
  store_list features "P_AND" (feature_64 biberText) ;;
  store_list features "O_AND" (feature_65 biberText) ;;
  store_list features "SYNTHNEG" (feature_66 biberText) ;;
  store_list features "NOT_NEG" (feature_67 biberText) ;;
  ret features.

End BiberText.
End Biber.

(** ** Sample capabilities, for running the engines on concrete texts *)

Module Sample.

(** Tokens separated by blanks. *)
Fixpoint split_blank (s : string) (cur : string) : list string :=
  match s with
  | EmptyString => if String.eqb cur "" then [] else [cur]
  | String c s' =>
      if Ascii.eqb c " "
      then (if String.eqb cur "" then split_blank s' "" else cur :: split_blank s' "")
      else split_blank s' (cur +:+ String c "")
  end.

(** A tagger by lexicon; an unlisted word is a noun. *)
Definition lexicon : list (string * string) :=
  [("the", "DT"); ("a", "DT"); ("and", "CC"); ("on", "IN"); ("by", "IN");
   ("saw", "VBD"); ("sat", "VBD"); ("did", "VBD"); ("was", "VBD");
   ("go", "VB"); ("run", "VB"); ("seen", "VBN"); ("big", "JJ");
   ("not", "RB"); (".", "."); (",", ",")].

Definition tag1 (w : string) : string :=
  match List.find (fun p => String.eqb (fst p) (lower w)) lexicon with
  | Some p => snd p
  | None => "NN"
  end.

#[export] Instance nltk : NLTK := {
  word_tokenize := fun s => split_blank s "";
  pos_tag := map (fun w => (w, tag1 w));
}.

(** Logarithms of binary64 numbers by the series of [atanh] on the
    mantissa in [[1, 2)]; they stand in for libm in the examples and
    agree with it up to the last digits. *)
Definition ln_mantissa (m : float) : float :=
  let z := ((m - 1) / (m + 1))%float in
  let z2 := (z * z)%float in
  let series :=
    fold_right (fun k acc => (1 / float_of_Z (2 * Z.of_nat k + 1) + z2 * acc)%float)
               PrimFloat.zero (seq 0 40) in
  (2 * z * series)%float.

Definition ln2 : float := 0x1.62e42fefa39efp-1%float.
Definition ln10 : float := 0x1.26bb1bbb55516p+1%float.

(** [log2 x] and [log10 x]; [scale] is [1 / ln base] applied to the
    mantissa and [per_bit] the logarithm of two in that base. *)
Definition log (ln_base per_bit : float) (x : float) : float :=
  if PrimFloat.is_nan x then x
  else if PrimFloat.ltb x PrimFloat.zero then PrimFloat.nan
  else if PrimFloat.eqb x PrimFloat.zero then PrimFloat.neg_infinity
  else if PrimFloat.is_infinity x then x
  else
    let '(m, e) := Z.frexp x in
    (ln_mantissa (2 * m) / ln_base + float_of_Z (e - 1) * per_bit)%float.

#[export] Instance libm : Libm float := {
  np_sqrt := PrimFloat.sqrt;
  np_log2 := log ln2 1%float;
  np_log10 := log ln10 (ln2 / ln10)%float;
  pow_half := PrimFloat.sqrt;
}.

(** *** Sample texts *)

(** Three types of frequencies 3, 2 and 1 at the head: the h-point is the
    rank 2, and every index is defined. *)
Definition fable : string := "the cat saw the dog and the bird saw a big tree".

(** The same with one verb. *)
Definition still : string := "the cat saw the dog and the bird and a big tree".

(** Two types, three tokens each: every frequency exceeds its rank. *)
Definition tied : string := "a a a b b b".

(** A full stop before a form of "do" that a verb follows. *)
Definition did_go : string := "x . did go".

Definition no_text : Quita.QuitaText (F:=float) :=
  {| Quita.text := ""; Quita.tokenList := []; Quita.tokenNum := 0;
     Quita.typeData := []; Quita.typeNum := 0 |}.

(** The analyzed text of a sample. *)
Definition quita (text : string) : Quita.QuitaText (F:=float) :=
  default_to (Quita.init text) no_text.

Definition no_text_exact : Quita.QuitaText (F:=Q) :=
  {| Quita.text := ""; Quita.tokenList := []; Quita.tokenNum := 0;
     Quita.typeData := []; Quita.typeNum := 0 |}.

Definition quita_exact (text : string) : Quita.QuitaText (F:=Q) :=
  default_to (Quita.init text) no_text_exact.

(** The reference and the store a call returned; [(0, ∅)] stands for a
    call that raised. *)
Definition returned (r : result (nat * heap float)) : nat * heap float :=
  default_to r (0%nat, ∅).

(** The entry of a key in the mapping a call returned. *)
Definition entry (r : result (nat * heap float)) (key : string) : option (pyobj float) :=
  match r with
  | Ok (l, h') => match h' !! l with Some m => m !! key | None => None end
  | Raise _ => None
  end.

End Sample.

(** ** Closed forms used in the statements *)

Section Assignments.
Context {F : Type}.

(** The mapping a run of assignments [d[key] = wrap(e)] leaves in [m]:
    the right-hand sides are evaluated in order and the first exception
    ends the run. *)
Fixpoint assign_all (wrap : number F -> pyobj F)
    (es : list (string * result (number F))) (m : dict F) : result (dict F) :=
  match es with
  | [] => Ok m
  | (key, e) :: es' =>
      match e with
      | Ok v => assign_all wrap es' (<[key := wrap v]> m)
      | Raise x => Raise x
      end
  end.

Definition one_float (v : number F) : pyobj F := PyList [v].

(** A floating-point number, of Python or of numpy. *)
Definition is_float (v : number F) : Prop :=
  match v with
  | PyFloat _ | NpFloat _ => True
  | PyInt _ | NpInt _ => False
  end.

End Assignments.

(** ** Notions used in the statements *)

(** *** Sums, counters and sorted columns *)

(** The sum of an integer column. *)
Definition zsum (l : list Z) : Z := fold_left Z.add l 0.

(** The two columns of a counter. *)
Definition keys (d : list (string * Z)) : list string := map fst d.
Definition counts (d : list (string * Z)) : list Z := map snd d.

(** A column in descending order. *)
Definition desc (l : list Z) : Prop := StronglySorted (fun a b => b <= a) l.


(** The probabilities of frequencies [fs] among [N] tokens, exactly. *)
Definition probabilities (N : Z) (fs : list Z) : list Q :=
  map (fun freq => (inject_Z freq / inject_Z N)%Q) fs.

(** *** Tables, assignments and calls *)

(** The number of matches of a pattern in a text. *)
Definition count_matches (pattern text : string) : Z :=
  match Re.compile pattern with
  | Ok r => Z.of_nat (length (Re.findall_scan r text 0))
  | Raise _ => 0
  end.

Definition quita_keys : list string :=
  ["TTR"; "R"; "ATL"; "R4"; "RR"; "RRmc"; "TC"; "STC"; "Q"; "D"; "CL";
   "Lambda"; "A"; "G"; "HL"; "Alpha"; "VD"].

Definition biber_keys : list string :=
  ["PASTTENSE"; "PERFECTS"; "PRES"; "PL_ADV"; "TM_ADV"; "PRO1"; "PRO2"; "PRO3";
   "IT"; "PDEM"; "PANY"; "PRO_DO"; "WH_QUES"; "N_NOM"; "AGLS_PSV"; "BY_PASV";
   "BE_STATE"; "EX_THERE"; "TH_CL"; "ADJ_CL"; "WH_CL"; "INF"; "CL_VBG"; "CL_VBN";
   "WHIZ_VBN"; "WHIZ_VBG"; "THTREL_S"; "THTREL_O"; "REL_SUBJ"; "REL_OBJ";
   "REL_PIPE"; "SENT_REL"; "SUB_COS"; "SUB_CON"; "SUB_CND"; "SUB_OTHR"; "PREP";
   "ADJ_ATTR"; "ADJ_PRED"; "ADVS"; "TYPETOKEN"; "WORDLNGTH"; "CONJNCTS";
   "DOWNTONE"; "GENHDG"; "AMPLIFR"; "GEN_EMPH"; "PARTCLE"; "DEM"; "POS_MOD";
   "NEC_MOD"; "PRD_MOD"; "PUB_VB"; "PRV_VB"; "SUA_VB"; "SEEM"; "CONTRAC";
   "THAT_DEL"; "FINLPREP"; "SPL_INF"; "SPL_AUX"; "P_AND"; "O_AND"; "SYNTHNEG";
   "NOT_NEG"].

Section Statements.
Context {F : Type} `{Float64 F} `{Libm F} `{NLTK}.

(** A table as [getTypeData] builds it: at least one type, frequencies
    at least one and descending, ranks [1..V], and the two counts of the
    text. *)
Definition well_formed (self : Quita.QuitaText (F:=F)) : Prop :=
  let fs := map Quita.freq (Quita.typeData self) in
  let V := Z.of_nat (length fs) in
  1 <= V
  /\ Forall (fun f => 1 <= f) fs
  /\ desc fs
  /\ map Quita.rank (Quita.typeData self) = range 1 (V + 1)
  /\ Quita.typeNum self = V
  /\ Quita.tokenNum self = zsum fs.

(** The assignments of [getQuitaFeature], in order. *)
Definition quita_entries (quitaText : Quita.QuitaText (F:=F))
  : list (string * result (number F)) :=
  [("TTR", Quita.getTTR quitaText); ("R", Quita.getHPoint quitaText);
   ("ATL", Quita.getATL quitaText); ("R4", Quita.getVocabRich quitaText);
   ("RR", Quita.getRR quitaText); ("RRmc", Quita.getRRmc quitaText);
   ("TC", Quita.getTC quitaText); ("STC", Quita.getSTC quitaText);
   ("Q", Quita.getActivity quitaText); ("D", Quita.getDescriptivity quitaText);
   ("CL", Quita.getCurveLen quitaText None); ("R", Quita.getCLI quitaText);
   ("Lambda", Quita.getLambda quitaText); ("A", Quita.getAdjMod quitaText);
   ("G", Quita.getGiniCoef quitaText); ("HL", Quita.getHL quitaText);
   ("Alpha", Quita.getAlpha quitaText); ("VD", Quita.getVerbDist quitaText)].

(** The assignments of [getBiberFeature], in order. *)
Definition biber_entries (biberText : Biber.BiberText)
  : list (string * result (number F)) :=
  [("PASTTENSE", Biber.feature_01 biberText); ("PERFECTS", Biber.feature_02 biberText);
   ("PRES", Biber.feature_03 biberText); ("PL_ADV", Biber.feature_04 biberText);
   ("TM_ADV", Biber.feature_05 biberText); ("PRO1", Biber.feature_06 biberText);
   ("PRO2", Biber.feature_07 biberText); ("PRO3", Biber.feature_08 biberText);
   ("IT", Biber.feature_09 biberText); ("PDEM", Biber.feature_10 biberText);
   ("PANY", Biber.feature_11 biberText); ("PRO_DO", Biber.feature_12 biberText);
   ("WH_QUES", Biber.feature_13 biberText); ("N_NOM", Biber.feature_14 biberText);
   ("AGLS_PSV", Biber.feature_17 biberText); ("BY_PASV", Biber.feature_18 biberText);
   ("BE_STATE", Biber.feature_19 biberText); ("EX_THERE", Biber.feature_20 biberText);
   ("TH_CL", Biber.feature_21 biberText); ("ADJ_CL", Biber.feature_22 biberText);
   ("WH_CL", Biber.feature_23 biberText); ("INF", Biber.feature_24 biberText);
   ("CL_VBG", Biber.feature_25 biberText); ("CL_VBN", Biber.feature_26 biberText);
   ("WHIZ_VBN", Biber.feature_27 biberText); ("WHIZ_VBG", Biber.feature_28 biberText);
   ("THTREL_S", Biber.feature_29 biberText); ("THTREL_O", Biber.feature_30 biberText);
   ("REL_SUBJ", Biber.feature_31 biberText); ("REL_OBJ", Biber.feature_32 biberText);
   ("REL_PIPE", Biber.feature_33 biberText); ("SENT_REL", Biber.feature_34 biberText);
   ("SUB_COS", Biber.feature_35 biberText); ("SUB_CON", Biber.feature_36 biberText);
   ("SUB_CND", Biber.feature_37 biberText); ("SUB_OTHR", Biber.feature_38 biberText);
   ("PREP", Biber.feature_39 biberText); ("ADJ_ATTR", Biber.feature_40 biberText);
   ("ADJ_PRED", Biber.feature_41 biberText); ("ADVS", Biber.feature_42 biberText);
   ("TYPETOKEN", Biber.feature_43 biberText); ("WORDLNGTH", Biber.feature_44 biberText);
   ("CONJNCTS", Biber.feature_45 biberText); ("DOWNTONE", Biber.feature_46 biberText);
   ("GENHDG", Biber.feature_47 biberText); ("AMPLIFR", Biber.feature_48 biberText);
   ("GEN_EMPH", Biber.feature_49 biberText); ("PARTCLE", Biber.feature_50 biberText);
   ("DEM", Biber.feature_51 biberText); ("POS_MOD", Biber.feature_52 biberText);
   ("NEC_MOD", Biber.feature_53 biberText); ("PRD_MOD", Biber.feature_54 biberText);
   ("PUB_VB", Biber.feature_55 biberText); ("PRV_VB", Biber.feature_56 biberText);
   ("SUA_VB", Biber.feature_57 biberText); ("SEEM", Biber.feature_58 biberText);
   ("CONTRAC", Biber.feature_59 biberText); ("THAT_DEL", Biber.feature_60 biberText);
   ("FINLPREP", Biber.feature_61 biberText); ("SPL_INF", Biber.feature_62 biberText);
   ("SPL_AUX", Biber.feature_63 biberText); ("P_AND", Biber.feature_64 biberText);
   ("O_AND", Biber.feature_65 biberText); ("SYNTHNEG", Biber.feature_66 biberText);
   ("NOT_NEG", Biber.feature_67 biberText)].

(** A computation that returns a float whenever it returns. *)
Definition returns_float (e : result (number F)) : Prop :=
  forall v, e = Ok v -> is_float v.

(** The features that divide by the token count: all but the average
    word length. *)
Definition per_token_features : list (Biber.BiberText -> result (number F)) :=
  [Biber.feature_01; Biber.feature_02; Biber.feature_03; Biber.feature_04; Biber.feature_05; Biber.feature_06;
   Biber.feature_07; Biber.feature_08; Biber.feature_09; Biber.feature_10; Biber.feature_11; Biber.feature_12;
   Biber.feature_13; Biber.feature_14; Biber.feature_17; Biber.feature_18; Biber.feature_19; Biber.feature_20;
   Biber.feature_21; Biber.feature_22; Biber.feature_23; Biber.feature_24; Biber.feature_25; Biber.feature_26;
   Biber.feature_27; Biber.feature_28; Biber.feature_29; Biber.feature_30; Biber.feature_31; Biber.feature_32;
   Biber.feature_33; Biber.feature_34; Biber.feature_35; Biber.feature_36; Biber.feature_37; Biber.feature_38;
   Biber.feature_39; Biber.feature_40; Biber.feature_41; Biber.feature_42; Biber.feature_43; Biber.feature_45;
   Biber.feature_46; Biber.feature_47; Biber.feature_48; Biber.feature_49; Biber.feature_50; Biber.feature_51;
   Biber.feature_52; Biber.feature_53; Biber.feature_54; Biber.feature_55; Biber.feature_56; Biber.feature_57;
   Biber.feature_58; Biber.feature_59; Biber.feature_60; Biber.feature_61; Biber.feature_62; Biber.feature_63;
   Biber.feature_64; Biber.feature_65; Biber.feature_66; Biber.feature_67].

(** One of the two aggregators. *)
Definition aggregator (biber : bool) : string -> M (F:=F) nat :=
  if biber then Biber.getBiberFeature else Quita.getQuitaFeature.

(** The mapping an aggregator computes for a text. *)
Definition profile (biber : bool) (text : string) : result (dict F) :=
  if biber
  then assign_all one_float (biber_entries (Biber.init text)) ∅
  else match Quita.init text with
       | Ok quitaText => assign_all PyNum (quita_entries quitaText) ∅
       | Raise x => Raise x
       end.

End Statements.

(** ** The steps of [cleanText] and the tokens, said without patterns *)

(** The text without the occurrences of ['m], ['s] and [n't] that one
    pass from the left finds. *)
Fixpoint delete_suffixes (s : string) : string :=
  match s with
  | EmptyString => EmptyString
  | String c s1 =>
      match s1 with
      | EmptyString => s
      | String d s2 =>
          if Ascii.eqb c "'" && (Ascii.eqb d "m" || Ascii.eqb d "s")
          then delete_suffixes s2
          else
            match s2 with
            | String e s3 =>
                if Ascii.eqb c "n" && Ascii.eqb d "'" && Ascii.eqb e "t"
                then delete_suffixes s3
                else String c (delete_suffixes s1)
            | EmptyString => String c (delete_suffixes s1)
            end
      end
  end.

(** The text without the digits 0-9. *)
Fixpoint delete_digits (s : string) : string :=
  match s with
  | EmptyString => EmptyString
  | String c s' =>
      if isdecimal c then delete_digits s' else String c (delete_digits s')
  end.

(** What follows the first closing bracket of a text, when no newline
    comes before that bracket. *)
Fixpoint span_end (s : string) : option string :=
  match s with
  | EmptyString => None
  | String c s' =>
      if Ascii.eqb c "]" then Some s'
      else if Ascii.eqb c Re.newline then None
      else span_end s'
  end.

(** A bracketed span starts here: the text goes on, after the opening
    bracket, with one character that is no newline, whatever it is, and
    then with a closing bracket that no newline precedes. *)
Definition span_opens (s : string) : bool :=
  match s with
  | String c s' =>
      negb (Ascii.eqb c Re.newline)
      && match span_end s' with Some _ => true | None => false end
  | EmptyString => false
  end.

(** Where a character stands: outside the spans, first in a span, or
    further in. *)
Inductive place := Outside | Opening | Inside.

(** The text with one blank for every bracketed span. *)
Fixpoint blank_brackets (p : place) (s : string) : string :=
  match s with
  | EmptyString => EmptyString
  | String c s' =>
      match p with
      | Outside =>
          if Ascii.eqb c "[" && span_opens s'
          then String " " (blank_brackets Opening s')
          else String c (blank_brackets Outside s')
      | Opening => blank_brackets Inside s'
      | Inside =>
          if Ascii.eqb c "]" then blank_brackets Outside s'
          else blank_brackets Inside s'
      end
  end.

(** The text with every bracketed span deleted. *)
Fixpoint delete_brackets (p : place) (s : string) : string :=
  match s with
  | EmptyString => EmptyString
  | String c s' =>
      match p with
      | Outside =>
          if Ascii.eqb c "[" && span_opens s'
          then delete_brackets Opening s'
          else String c (delete_brackets Outside s')
      | Opening => delete_brackets Inside s'
      | Inside =>
          if Ascii.eqb c "]" then delete_brackets Outside s'
          else delete_brackets Inside s'
      end
  end.

(** The digits as the specification has them: every digit character. *)
Fixpoint delete_all_digits (s : string) : string :=
  match s with
  | EmptyString => EmptyString
  | String c s' =>
      if isdigit c then delete_all_digits s' else String c (delete_all_digits s')
  end.

(** The cleaned text as the specification has it: lower-cased, with the
    suffixes, the bracketed spans and all digit characters deleted. *)
Definition cleaned_as_specified (text : string) : string :=
  delete_all_digits (delete_brackets Outside (delete_suffixes (lower text))).

(** The word characters a text starts with. *)
Fixpoint word_run (s : string) : string :=
  match s with
  | String c s' => if isword c then String c (word_run s') else EmptyString
  | EmptyString => EmptyString
  end.

(** The maximal runs of word characters of a text, left to right;
    [inside] says that the character before was a word character, whose
    run is listed already. *)
Fixpoint word_runs (inside : bool) (s : string) : list string :=
  match s with
  | EmptyString => []
  | String c s' =>
      if isword c
      then (if inside then word_runs true s' else word_run s :: word_runs true s')
      else word_runs false s'
  end.

(** The loop of the matcher on a repetition, by itself. *)
Definition rep_loop (r' : Re.regex) (lo : nat) (hi : option nat) (greedy : bool)
    (k : string -> option string) : nat -> nat -> string -> option string :=
  fix loop (fuel count : nat) (s : string) {struct fuel} : option string :=
    let stop := if (lo <=? count)%nat then k s else None in
    let more :=
      match fuel with
      | O => None
      | S fuel' =>
          if Re.below hi count
          then Re.matchk r' s (fun s' =>
                 if (String.length s' <? String.length s)%nat
                 then loop fuel' (S count) s' else None)
          else None
      end in
    if greedy then Re.orelse more stop else Re.orelse stop more.

(** ** Notions used in the further statements *)

(** [freqDist[w]]: the count of a key, [0] for a key the counter lacks. *)
Fixpoint counter_get (d : list (string * Z)) (w : string) : Z :=
  match d with
  | [] => 0
  | (k, n) :: d' => if String.eqb k w then n else counter_get d' w
  end.

(** The number of occurrences of a word in a token list. *)
Definition occurrences (tokens : list string) (w : string) : Z :=
  Z.of_nat (count_occ string_dec tokens w).

(** The sum of the squares of an integer column. *)
Definition sumsq (l : list Z) : Z := zsum (map (fun f => f * f) l).

(** The number of blanks of a text. *)
Fixpoint blanks (s : string) : Z :=
  match s with
  | EmptyString => 0
  | String c s' => (if Ascii.eqb c " " then 1 else 0) + blanks s'
  end.

(** Every match of [r] starts with the character [c]: [r] is a literal
    [c], a sequence that starts with one, or an alternation of such. *)
Fixpoint leads (c : ascii) (r : Re.regex) : bool :=
  match r with
  | Re.Chr c' => Ascii.eqb c' c
  | Re.Seq r1 _ => leads c r1
  | Re.Alt r1 r2 => leads c r1 && leads c r2
  | _ => false
  end.

(** A pattern that compiles and whose matches start with a blank. *)
Definition blank_led (pattern : string) : bool :=
  match Re.compile pattern with
  | Ok r => leads " " r
  | Raise _ => false
  end.

(** The loop of the matcher on [\w+], by itself: [count] characters of
    the run are read, [fuel] bounds those still to read. *)
Fixpoint word_loop (fuel count : nat) (s : string) {struct fuel} : option string :=
  let stop := if (1 <=? count)%nat then Some s else None in
  let more :=
    match fuel with
    | O => None
    | S fuel' =>
        match s with
        | String c s' =>
            if isword c
            then (if (String.length s' <? String.length s)%nat
                  then word_loop fuel' (S count) s' else None)
            else None
        | EmptyString => None
        end
    end in
  Re.orelse more stop.

Section OnePattern.
Context {F : Type} `{Float64 F} `{NLTK}.

(** The features that count the matches of one pattern whose matches
    start with a blank. *)
Definition one_pattern_features : list (Biber.BiberText -> result (number F)) :=
  [Biber.feature_02; Biber.feature_04; Biber.feature_05; Biber.feature_06;
   Biber.feature_07; Biber.feature_08; Biber.feature_09; Biber.feature_10;
   Biber.feature_11; Biber.feature_14; Biber.feature_18; Biber.feature_19;
   Biber.feature_20; Biber.feature_22; Biber.feature_24; Biber.feature_27;
   Biber.feature_28; Biber.feature_29; Biber.feature_30; Biber.feature_33;
   Biber.feature_34; Biber.feature_35; Biber.feature_36; Biber.feature_37;
   Biber.feature_38; Biber.feature_39; Biber.feature_40; Biber.feature_42;
   Biber.feature_49; Biber.feature_51; Biber.feature_52; Biber.feature_53;
   Biber.feature_54; Biber.feature_55; Biber.feature_56; Biber.feature_57;
   Biber.feature_58; Biber.feature_61; Biber.feature_62; Biber.feature_63;
   Biber.feature_64; Biber.feature_67].

End OnePattern.

(** ** More sample texts *)

(** Three types of three tokens each: the h-point is the last rank. *)
Definition triple : string := "a a a b b b c c c".

(** No verb and no adjective. *)
Definition nouns : string := "the cat and the dog".

(** * Theorems *)

(** ** The error monad *)

Lemma bind_Ok {A B} (m : result A) (k : A -> result B) b :
  bind m k = Ok b -> exists a, m = Ok a /\ k a = Ok b.
Proof. destruct m; simpl; [eauto | discriminate]. Qed.

Lemma bind_Raise {A B} (m : result A) (k : A -> result B) e :
  m = Raise e -> bind m k = Raise e.
Proof. intros ->. reflexivity. Qed.

(** ** Characters and the scans of [re] *)

Module ReTheory.
Import Re.

Lemma lower_char_not_upper c : isupper (lower_char c) = false.
Proof.
  destruct c as [[] [] [] [] [] [] [] []]; reflexivity.
Qed.

Lemma chars_app s t : chars (s +:+ t) = chars s ++ chars t.
Proof. induction s; simpl; [reflexivity | f_equal; assumption]. Qed.

Lemma lower_chars s c : In c (chars (lower s)) -> isupper c = false.
Proof.
  induction s as [| a s IH]; simpl; [tauto |].
  intros [<- | Hin]; [apply lower_char_not_upper | auto].
Qed.

Lemma take_chars n s c : In c (chars (take n s)) -> In c (chars s).
Proof.
  revert n; induction s as [| a s IH]; intros [| n]; simpl; try tauto.
  intros [-> | Hin]; [left; reflexivity | right; eauto].
Qed.

(** A match is a piece of the text: [findall] invents no character. *)
Lemma findall_scan_chars r s skip tok c :
  In tok (findall_scan r s skip) -> In c (chars tok) -> In c (chars s).
Proof.
  revert skip; induction s as [| a s IH]; intros skip.
  - destruct skip; simpl; [| tauto].
    destruct (match_len r ""); simpl; [| tauto].
    intros [<- | []]; simpl; tauto.
  - destruct skip as [| skip]; simpl.
    + destruct (match_len r (String a s)) as [n |]; simpl.
      * intros [<- | Hin] Hc.
        -- apply (take_chars n (String a s)); assumption.
        -- right; eauto.
      * intros Hin Hc; right; eauto.
    + intros Hin Hc; right; eauto.
Qed.

(** [sub] keeps characters of the text and inserts the replacement. *)
Lemma sub_scan_chars r repl s skip c :
  In c (chars (sub_scan r repl s skip)) -> In c (chars s) \/ In c (chars repl).
Proof.
  revert skip; induction s as [| a s IH]; intros skip.
  - destruct skip; simpl; [| tauto].
    destruct (match_len r ""); simpl; tauto.
  - destruct skip as [| skip]; simpl.
    + destruct (match_len r (String a s)) as [[| n] |]; simpl.
      * rewrite chars_app; simpl. rewrite in_app_iff; simpl.
        intros [? | [<- | Hin]]; [tauto | tauto |].
        destruct (IH _ Hin); tauto.
      * rewrite chars_app, in_app_iff.
        intros [? | Hin]; [tauto |]. destruct (IH _ Hin); tauto.
      * intros [<- | Hin]; [tauto |]. destruct (IH _ Hin); tauto.
    + intros Hin. destruct (IH _ Hin); tauto.
Qed.

(** A character class matches exactly one character of the class. *)
Lemma match_len_class ranges a s :
  match_len (Class ranges) (String a s)
  = if in_class ranges a then Some 1%nat else None.
Proof.
  unfold match_len, match_at; simpl.
  destruct (in_class ranges a); [| reflexivity].
  f_equal. lia.
Qed.

(** Deleting the matches of a class leaves no character of the class. *)
Lemma sub_scan_class ranges s c :
  In c (chars (sub_scan (Class ranges) "" s 0)) -> in_class ranges c = false.
Proof.
  induction s as [| a s IH]; simpl.
  - unfold match_len, match_at; simpl. tauto.
  - rewrite match_len_class.
    destruct (in_class ranges a) eqn:Ha; simpl.
    + exact IH.
    + intros [<- | Hin]; [assumption | auto].
Qed.

Lemma digit_class c : in_class [("0", "9")]%char c = isdecimal c.
Proof. unfold in_class; simpl. apply orb_false_r. Qed.

End ReTheory.

(** ** Sequences, counters and the sort *)

Section ListFacts.

Lemma fold_add_shift l a : fold_left Z.add l a = a + zsum l.
Proof.
  unfold zsum. revert a; induction l as [| x l IH]; intros a; simpl; [lia |].
  rewrite (IH (a + x)), (IH (0 + x)). lia.
Qed.

Lemma zsum_cons x l : zsum (x :: l) = x + zsum l.
Proof. unfold zsum at 1; simpl. rewrite fold_add_shift. lia. Qed.

Lemma zsum_nil : zsum [] = 0.
Proof. reflexivity. Qed.


Lemma range_cons a b : a < b -> range a b = a :: range (a + 1) b.
Proof.
  intros Hlt. unfold range.
  replace (Z.to_nat (b - a)) with (S (Z.to_nat (b - (a + 1)))) by lia.
  simpl. f_equal; [lia |].
  rewrite <- seq_shift, map_map. apply map_ext. intros i. lia.
Qed.

Lemma range_length a b : length (range a b) = Z.to_nat (b - a).
Proof. unfold range. rewrite length_map, length_seq. reflexivity. Qed.

Lemma range_from_length a n :
  length (range a (a + Z.of_nat n)) = n.
Proof. rewrite range_length. lia. Qed.

Lemma count_true_cons b l :
  count_true (b :: l) = (if b then 1 else 0) + count_true l.
Proof. unfold count_true. destruct b; simpl; lia. Qed.

Lemma count_true_bounds l : 0 <= count_true l <= Z.of_nat (length l).
Proof.
  induction l as [| b l IH]; [unfold count_true; simpl; lia |].
  rewrite count_true_cons. destruct b; simpl length; lia.
Qed.

Lemma np_where_from_length i mask :
  Z.of_nat (length (np_where_from i mask)) = count_true mask.
Proof.
  revert i; induction mask as [| b mask IH]; intros i; [reflexivity |].
  rewrite count_true_cons. destruct b; cbn [np_where_from length];
    rewrite ?Nat2Z.inj_succ, IH; lia.
Qed.

(** The first position found holds [True], and no earlier one does. *)
Lemma np_where_from_head i mask j rest :
  np_where_from i mask = j :: rest ->
  exists k, j = (i + k)%nat /\ mask !! k = Some true
            /\ forall k', (k' < k)%nat -> mask !! k' = Some false.
Proof.
  revert i; induction mask as [| b mask IH]; intros i; [discriminate |].
  destruct b; simpl.
  - intros [= <- _]. exists 0%nat. split; [lia |]. split; [reflexivity |]. lia.
  - intros Heq. destruct (IH _ Heq) as (k & -> & Hk & Hlt).
    exists (S k). split; [lia |]. split; [assumption |].
    intros [| k'] Hk'; [reflexivity |]. apply Hlt. lia.
Qed.

Lemma range_lookup a b i :
  (Z.of_nat i < b - a) -> range a b !! i = Some (a + Z.of_nat i).
Proof.
  intros Hi. unfold range. rewrite list_lookup_fmap, lookup_seq_lt by lia. reflexivity.
Qed.

(** [a[rank == r]] when the ranks are [k, k+1, ...]: the element at
    rank [r], if there is one. *)
Lemma np_take_rank (fs : list Z) r : forall k,
  np_take fs (map (fun x => x =? r) (range k (k + Z.of_nat (length fs))))
  = if (k <=? r) && (r <? k + Z.of_nat (length fs))
    then match fs !! Z.to_nat (r - k) with Some f => [f] | None => [] end
    else [].
Proof.
  induction fs as [| f fs IH]; intros k.
  - simpl. destruct (_ && _); reflexivity.
  - rewrite range_cons by (cbn [length]; lia). cbn [map np_take].
    replace (k + Z.of_nat (length (f :: fs))) with (k + 1 + Z.of_nat (length fs))
      by (cbn [length]; lia).
    rewrite IH. destruct (k =? r) eqn:Hkr.
    + apply Z.eqb_eq in Hkr as ->.
      destruct (Z.leb_spec (r + 1) r); [lia |]. cbn [andb].
      destruct (Z.leb_spec r r); [| lia].
      destruct (Z.ltb_spec r (r + 1 + Z.of_nat (length fs))); [| lia].
      replace (Z.to_nat (r - r)) with 0%nat by lia. reflexivity.
    + apply Z.eqb_neq in Hkr.
      destruct (Z.leb_spec (k + 1) r); destruct (Z.leb_spec k r); try lia; cbn [andb];
        [| reflexivity].
      destruct (r <? _); [| reflexivity].
      replace (Z.to_nat (r - k)) with (S (Z.to_nat (r - (k + 1)))) by lia.
      reflexivity.
Qed.

Lemma gaps_short l : (length l < 2)%nat -> gaps l = [].
Proof. destruct l as [| a [| b l]]; simpl; [reflexivity | reflexivity | lia]. Qed.

End ListFacts.

Section CounterFacts.

Lemma FreqDist_incr_keys w d :
  keys (FreqDist_incr w d) = if existsb (String.eqb w) (keys d) then keys d else keys d ++ [w].
Proof.
  unfold keys.
  induction d as [| [k n] d IH]; simpl; [reflexivity |].
  rewrite (String.eqb_sym w k).
  destruct (String.eqb k w) eqn:E; simpl; [reflexivity |].
  rewrite IH.
  destruct (existsb _ _); reflexivity.
Qed.

Lemma FreqDist_incr_In w d x :
  In x (keys (FreqDist_incr w d)) <-> x = w \/ In x (keys d).
Proof.
  rewrite FreqDist_incr_keys.
  destruct (existsb (String.eqb w) (keys d)) eqn:E.
  - apply existsb_exists in E as (y & Hy & Heq). apply String.eqb_eq in Heq as <-.
    split; [tauto |]. intros [-> |]; assumption.
  - rewrite in_app_iff; simpl. intuition congruence.
Qed.

Lemma FreqDist_incr_NoDup w d :
  NoDup (keys d) -> NoDup (keys (FreqDist_incr w d)).
Proof.
  intros Hnd. rewrite FreqDist_incr_keys.
  destruct (existsb (String.eqb w) (keys d)) eqn:E; [assumption |].
  apply NoDup_app. split; [assumption | split].
  - intros x Hx Hw. apply list_elem_of_In in Hx. apply list_elem_of_In in Hw.
    destruct Hw as [<- | []].
    assert (existsb (String.eqb w) (keys d) = true) as Ht; [| congruence].
    apply existsb_exists. exists w. split; [assumption | apply String.eqb_refl].
  - apply NoDup_singleton.
Qed.

Lemma FreqDist_incr_sum w d :
  zsum (counts (FreqDist_incr w d)) = zsum (counts d) + 1.
Proof.
  induction d as [| [k n] d IH]; simpl; [reflexivity |].
  destruct (String.eqb k w); simpl; unfold counts in *; simpl;
    rewrite !zsum_cons; [lia | rewrite IH; lia].
Qed.

Lemma FreqDist_incr_positive w d :
  Forall (fun n => 1 <= n) (counts d) ->
  Forall (fun n => 1 <= n) (counts (FreqDist_incr w d)).
Proof.
  induction d as [| [k n] d IH]; simpl; intros Hd.
  - repeat constructor. lia.
  - apply Forall_cons_iff in Hd as [Hn Hd].
    destruct (String.eqb k w); simpl; constructor; auto; lia.
Qed.

(** An invariant of the counter holds of [FreqDist] of every list. *)
Lemma FreqDist_fold (P : list string -> list (string * Z) -> Prop) tokens d :
  P [] d ->
  (forall seen w d, P seen d -> P (seen ++ [w]) (FreqDist_incr w d)) ->
  P tokens (fold_left (fun d w => FreqDist_incr w d) tokens d).
Proof.
  intros Hd Hstep.
  assert (forall seen, P seen d ->
            P (seen ++ tokens) (fold_left (fun d w => FreqDist_incr w d) tokens d))
    as Hgen; [| apply (Hgen [] Hd)].
  clear Hd. revert d; induction tokens as [| w tokens IH]; intros d seen Hseen; simpl.
  - rewrite app_nil_r. assumption.
  - replace (seen ++ w :: tokens) with ((seen ++ [w]) ++ tokens)
      by (rewrite <- app_assoc; reflexivity).
    apply IH, Hstep, Hseen.
Qed.

Lemma FreqDist_NoDup tokens : NoDup (keys (FreqDist tokens)).
Proof.
  unfold FreqDist.
  apply (FreqDist_fold (fun _ d => NoDup (keys d))); [constructor |].
  intros _ w d. apply FreqDist_incr_NoDup.
Qed.

Lemma FreqDist_In tokens x : In x (keys (FreqDist tokens)) <-> In x tokens.
Proof.
  unfold FreqDist.
  apply (FreqDist_fold (fun seen d => In x (keys d) <-> In x seen)); [reflexivity |].
  intros seen w d IH. rewrite FreqDist_incr_In, in_app_iff, IH. simpl. intuition congruence.
Qed.

Lemma FreqDist_sum tokens : zsum (counts (FreqDist tokens)) = Z.of_nat (length tokens).
Proof.
  unfold FreqDist.
  apply (FreqDist_fold (fun seen d => zsum (counts d) = Z.of_nat (length seen)));
    [reflexivity |].
  intros seen w d IH. rewrite FreqDist_incr_sum, IH, length_app. simpl. lia.
Qed.

Lemma FreqDist_positive tokens : Forall (fun n => 1 <= n) (counts (FreqDist tokens)).
Proof.
  unfold FreqDist.
  apply (FreqDist_fold (fun _ d => Forall (fun n => 1 <= n) (counts d))); [constructor |].
  intros _ w d. apply FreqDist_incr_positive.
Qed.

Lemma FreqDist_nonempty tokens : tokens <> [] -> FreqDist tokens <> [].
Proof.
  intros Hne Hnil. destruct tokens as [| w tokens]; [congruence |].
  assert (In w (keys (FreqDist (w :: tokens)))) as Hin
    by (apply FreqDist_In; left; reflexivity).
  rewrite Hnil in Hin. destruct Hin.
Qed.

(** *** The sort *)

Lemma insert_desc_perm x l : Permutation (insert_desc x l) (x :: l).
Proof.
  induction l as [| y l IH]; simpl; [reflexivity |].
  destruct (snd y <=? snd x); [reflexivity |].
  rewrite IH. apply perm_swap.
Qed.

Lemma sort_values_desc_perm l : Permutation (sort_values_desc l) l.
Proof.
  induction l as [| x l IH]; simpl; [reflexivity |].
  rewrite insert_desc_perm, IH. reflexivity.
Qed.

Lemma insert_desc_sorted x l :
  desc (counts l) -> desc (counts (insert_desc x l)).
Proof.
  unfold desc, counts.
  induction l as [| y l IH]; simpl; intros Hs.
  - repeat constructor.
  - destruct (snd y <=? snd x) eqn:E.
    + simpl. constructor; [assumption |].
      apply StronglySorted_inv in Hs as [_ Hall].
      constructor; [lia |].
      eapply List.Forall_impl; [| exact Hall]. simpl. intros z Hz. lia.
    + simpl. apply StronglySorted_inv in Hs as [Hs Hall].
      constructor; [auto |].
      assert (Permutation (map snd (insert_desc x l)) (snd x :: map snd l)) as Hp.
      { change (snd x :: map snd l) with (map snd (x :: l)).
        apply Permutation_map, insert_desc_perm. }
      eapply Permutation_Forall; [symmetry; exact Hp |].
      constructor; [lia | assumption].
Qed.

Lemma sort_values_desc_sorted l : desc (counts (sort_values_desc l)).
Proof.
  induction l as [| x l IH]; simpl; [constructor |].
  apply insert_desc_sorted, IH.
Qed.

Lemma zsum_perm l l' : Permutation l l' -> zsum l = zsum l'.
Proof.
  induction 1; rewrite ?zsum_cons; lia.
Qed.

End CounterFacts.

(** ** The type-frequency table *)

Module QuitaTheory.
Import Quita.

Section Table.
Context {F : Type} `{Float64 F} `{NLTK}.

Lemma rows_columns n : forall types freqs (probs : list F) ranks (cumProbs : list F) tags,
  length types = n -> length freqs = n -> length probs = n ->
  length ranks = n -> length cumProbs = n -> length tags = n ->
  let t := rows types freqs probs ranks cumProbs tags in
  map type t = types /\ map freq t = freqs /\ map prob t = probs
  /\ map rank t = ranks /\ map cumProb t = cumProbs /\ map pos t = tags.
Proof.
  induction n as [| n IH];
    intros [| t types] [| f freqs] [| p probs] [| r ranks] [| c cumProbs] [| g tags];
    simpl; try discriminate; intros Ht Hf Hp Hr Hc Hg.
  - repeat split.
  - destruct (IH types freqs probs ranks cumProbs tags) as (-> & -> & -> & -> & -> & ->);
      try congruence.
    repeat split.
Qed.

(** What [getTypeData] puts in each column. *)
Lemma getTypeData_columns tokens t :
  getTypeData tokens = Ok t ->
  let sorted := sort_values_desc (FreqDist tokens) in
  let tokenNum := zsum (counts (FreqDist tokens)) in
  let probs := map (fun freq => fdiv (of_Z freq) (of_Z tokenNum)) (counts sorted) in
  let V := Z.of_nat (length sorted) in
  length t = length sorted
  /\ map type t = keys sorted
  /\ map freq t = counts sorted
  /\ map prob t = probs
  /\ map rank t = range 1 (V + 1)
  /\ map cumProb t = map (fun i => np_sum (firstn (Z.to_nat i) probs)) (range 1 (V + 1)).
Proof.
  unfold getTypeData. intros Ht.
  assert (length (FreqDist tokens) = length (sort_values_desc (FreqDist tokens))) as Hlen
    by (symmetry; apply Permutation_length, sort_values_desc_perm).
  destruct (_ =? _)%nat eqn:Htags; [| discriminate].
  apply Nat.eqb_eq in Htags. injection Ht as <-.
  rewrite !length_map in Htags.
  set (n := length (sort_values_desc (FreqDist tokens))) in *.
  rewrite Hlen.
  match goal with
  | |- context [rows ?a ?b ?c ?d ?e ?g] =>
      destruct (rows_columns n a b c d e g) as (Ha & Hb & Hc & Hd & He & Hg)
  end; rewrite ?length_map, ?range_length; try reflexivity; try lia; try assumption.
  cbv zeta. split.
  - rewrite <- (length_map type), Ha, length_map. reflexivity.
  - unfold keys, counts, zsum. repeat split; assumption.
Qed.


Lemma sorted_counts_sum tokens :
  zsum (counts (sort_values_desc (FreqDist tokens))) = Z.of_nat (length tokens).
Proof.
  rewrite <- FreqDist_sum. apply zsum_perm, Permutation_map, sort_values_desc_perm.
Qed.

Lemma sorted_counts_positive tokens :
  Forall (fun n => 1 <= n) (counts (sort_values_desc (FreqDist tokens))).
Proof.
  eapply Permutation_Forall; [| apply FreqDist_positive].
  symmetry. apply Permutation_map, sort_values_desc_perm.
Qed.

Lemma init_Ok text (self : QuitaText (F:=F)) :
  init text = Ok self ->
  exists cleaned,
    cleanText text = Ok cleaned
    /\ regexp_tokenize cleaned "\w+" = Ok (tokenList self)
    /\ getTypeData (tokenList self) = Ok (typeData self)
    /\ tokenNum self = Z.of_nat (length (tokenList self))
    /\ typeNum self = Z.of_nat (length (typeData self)).
Proof.
  unfold init. intros Hinit.
  apply bind_Ok in Hinit as (cleaned & Hclean & Hinit).
  apply bind_Ok in Hinit as (tokens & Htok & Hinit).
  apply bind_Ok in Hinit as (t & Ht & Hinit).
  injection Hinit as <-. simpl. eauto 10.
Qed.

(** The constructor builds well-formed tables from texts that hold a
    token. *)
Lemma init_well_formed text (self : QuitaText (F:=F)) :
  init text = Ok self -> tokenList self <> [] -> well_formed self.
Proof.
  intros Hinit Hne.
  destruct (init_Ok _ _ Hinit) as (cleaned & _ & _ & Ht & HtokenNum & HtypeNum).
  destruct (getTypeData_columns _ _ Ht) as (Hlen & _ & Hfreq & _ & Hrank & _).
  cbv zeta in Hrank. unfold well_formed. cbv zeta.
  rewrite length_map, Hfreq, Hrank, HtypeNum, HtokenNum, Hlen.
  split; [| split; [| split; [| split; [| split]]]].
  - assert (length (sort_values_desc (FreqDist (tokenList self))) <> 0%nat); [| lia].
    rewrite (Permutation_length (sort_values_desc_perm _)).
    intros Hz. apply (FreqDist_nonempty _ Hne). apply length_zero_iff_nil. exact Hz.
  - apply sorted_counts_positive.
  - apply sort_values_desc_sorted.
  - reflexivity.
  - reflexivity.
  - symmetry. apply sorted_counts_sum.
Qed.

End Table.
End QuitaTheory.

Section WeightedSum.






End WeightedSum.

Module QuitaExact.
Import Quita QuitaTheory.
Local Open Scope Q_scope.

Section Exact.
Context `{NLTK} `{Libm Q}.


Lemma zsum_ge_length fs :
  Forall (fun f => 1 <= f)%Z fs -> (Z.of_nat (length fs) <= zsum fs)%Z.
Proof.
  induction 1 as [| f fs Hf Hall IH]; [rewrite zsum_nil; simpl; lia |].
  rewrite zsum_cons. cbn [length]. lia.
Qed.



(** *** Cumulative probabilities, exactly *)

Lemma np_sum_shift (l : list Q) a : fold_left Qplus l a == a + fold_left Qplus l 0.
Proof.
  revert a; induction l as [| x l IH]; intros a; simpl; [lra |].
  rewrite (IH (a + x)), (IH (0 + x)). lra.
Qed.

Lemma np_sum_cons (x : Q) l : np_sum (x :: l) == x + np_sum l.
Proof.
  unfold np_sum; simpl. rewrite np_sum_shift.
  change (inject_Z 0) with 0. lra.
Qed.


Lemma np_sum_probabilities total fs :
  (0 < total)%Z ->
  np_sum (probabilities total fs) == inject_Z (zsum fs) / inject_Z total.
Proof.
  intros Htotal.
  assert (~ inject_Z total == 0) as Hnz.
  { intros Hz. assert (0 < inject_Z total) as Hlt by (rewrite <- (Zlt_Qlt 0); lia).
    rewrite Hz in Hlt. apply (Qlt_irrefl 0 Hlt). }
  induction fs as [| f fs IH].
  - unfold np_sum; simpl. rewrite zsum_nil. change (inject_Z 0) with 0. field. exact Hnz.
  - unfold probabilities in *. cbn [map]. rewrite np_sum_cons, IH, zsum_cons, inject_Z_plus.
    field. exact Hnz.
Qed.






End Exact.
End QuitaExact.

(** ** The indices of quita.py *)

Module QuitaIndices.
Import Quita QuitaTheory.

Section Indices.
Context {F : Type} `{Float64 F} `{Libm F} `{NLTK}.

Lemma mask_lookup (f : Z -> Z -> bool) (fs : list Z) V k b :
  Z.of_nat (length fs) = V ->
  zip_with f fs (range 1 (V + 1)) !! k = Some b ->
  exists x, fs !! k = Some x /\ b = f x (Z.of_nat k + 1).
Proof.
  intros HV. rewrite lookup_zip_with.
  destruct (fs !! k) as [x |] eqn:Hx; [| discriminate]. cbn.
  apply lookup_lt_Some in Hx as Hk.
  rewrite range_lookup by lia. cbn. intros [= <-].
  exists x. split; [reflexivity | f_equal; lia].
Qed.

Lemma mask_length (f : Z -> Z -> bool) (fs : list Z) V :
  Z.of_nat (length fs) = V ->
  length (zip_with f fs (range 1 (V + 1))) = length fs.
Proof.
  intros HV. rewrite length_zip_with, range_length. lia.
Qed.

(** C4, case by case.  On a table whose ranks are [1..V], [getHPoint]
    returns the first rank whose frequency equals it, when there is one;
    otherwise, with [r1] the number of ranks whose frequency exceeds the
    rank, it returns the interpolation between the ranks [r1] and
    [r1 + 1] when both are in the table, and raises [IndexError] when
    one of them is not (no frequency above its rank, or all of them). *)
Theorem getHPoint_cases (self : QuitaText (F:=F)) :
  let fs := map freq (typeData self) in
  let V := Z.of_nat (length fs) in
  map rank (typeData self) = range 1 (V + 1) ->
  let r1 := count_true (zip_with Z.gtb fs (range 1 (V + 1))) in
  if isExactHPoint self then
    exists r, getHPoint self = Ok (NpInt r)
              /\ 1 <= r <= V
              /\ fs !! Z.to_nat (r - 1) = Some r
              /\ forall r', 1 <= r' < r -> fs !! Z.to_nat (r' - 1) <> Some r'
  else if (1 <=? r1) && (r1 <? V) then
    exists f1 f2,
      fs !! Z.to_nat (r1 - 1) = Some f1
      /\ fs !! Z.to_nat r1 = Some f2
      /\ getHPoint self
         = Ok (NpFloat (fdiv (of_Z (f1 * (r1 + 1) - f2 * r1))
                             (of_Z (r1 + 1 - r1 + f1 - f2))))
  else getHPoint self = Raise IndexError.
Proof.
  intros fs V Hrank r1. unfold getHPoint.
  destruct (isExactHPoint self) eqn:Hexact.
  - unfold isExactHPoint in Hexact. rewrite Hrank in *. fold fs in Hexact |- *.
    apply Z.gtb_lt in Hexact.
    set (mask := zip_with Z.eqb fs (range 1 (V + 1))) in *.
    unfold np_where. destruct (np_where_from 0 mask) as [| j rest] eqn:Hwhere.
    { pose proof (np_where_from_length 0 mask) as Hlen.
      rewrite Hwhere in Hlen. simpl in Hlen. lia. }
    destruct (np_where_from_head _ _ _ _ Hwhere) as (k & -> & Hk & Hbefore).
    destruct (mask_lookup Z.eqb fs V k true eq_refl Hk) as (x & Hx & Heq).
    symmetry in Heq. apply Z.eqb_eq in Heq. subst x.
    apply lookup_lt_Some in Hx as Hlt.
    exists (Z.of_nat k + 1). cbn [item0 bind]. replace (0 + k)%nat with k by lia.
    split; [reflexivity |]. split; [lia |]. split.
    + replace (Z.to_nat (Z.of_nat k + 1 - 1)) with k by lia. exact Hx.
    + intros r' Hr' Hfs.
      assert (Z.to_nat (r' - 1) < k)%nat as Hk' by lia.
      specialize (Hbefore _ Hk').
      destruct (mask_lookup Z.eqb fs V _ false eq_refl Hbefore) as (x & Hx' & Heq).
      rewrite Hfs in Hx'. injection Hx' as <-.
      symmetry in Heq. apply Z.eqb_neq in Heq. lia.
  - rewrite Hrank. fold fs. fold r1.
    pose proof (count_true_bounds (zip_with Z.gtb fs (range 1 (V + 1)))) as Hr1.
    rewrite (mask_length Z.gtb fs V eq_refl) in Hr1. fold r1 V in Hr1.
    replace (V + 1) with (1 + Z.of_nat (length fs)) by (unfold V; lia).
    rewrite !np_take_rank. fold V.
    destruct (Z.leb_spec 1 r1) as [Hlo | Hlo]; cbn [andb].
    + destruct (Z.ltb_spec r1 V) as [Hhi | Hhi].
      * destruct (Z.ltb_spec r1 (1 + V)); [| lia].
        destruct (Z.leb_spec 1 (r1 + 1)); [| lia].
        destruct (Z.ltb_spec (r1 + 1) (1 + V)); [| lia]. cbn [andb].
        replace (Z.to_nat (r1 + 1 - 1)) with (Z.to_nat r1) by lia.
        destruct (lookup_lt_is_Some_2 fs (Z.to_nat (r1 - 1))) as [f1 Hf1]; [lia |].
        destruct (lookup_lt_is_Some_2 fs (Z.to_nat r1)) as [f2 Hf2]; [lia |].
        exists f1, f2. rewrite Hf1, Hf2. repeat split.
      * destruct (Z.leb_spec 1 (r1 + 1)); [| lia].
        destruct (Z.ltb_spec (r1 + 1) (1 + V)); [lia |]. cbn [andb item0 bind].
        destruct (Z.ltb_spec r1 (1 + V)); [| reflexivity].
        destruct (fs !! _); reflexivity.
    + reflexivity.
Qed.

(** With fewer than two verb tokens the list of gaps is empty and
    [getVerbDist] returns the average of an empty list: no exception is
    raised. *)
Lemma getVerbDist_few_verbs (self : QuitaText (F:=F)) verbs :
  mapM isVerb (tokenList self) = Ok verbs ->
  count_true verbs < 2 ->
  getVerbDist self = Ok (NpFloat (np_average [])).
Proof.
  intros Hverbs Hcount. unfold getVerbDist. rewrite Hverbs. cbn [bind].
  rewrite gaps_short; [reflexivity |].
  rewrite length_map. unfold np_where.
  pose proof (np_where_from_length 0 verbs). lia.
Qed.

End Indices.
End QuitaIndices.

(** ** The store and the aggregators *)

Section StoreFacts.
Context {F : Type}.
Implicit Types (m : dict F) (h : heap F) (es : list (string * result (number F))).

Lemma store_step {A} d key e (k : unit -> M A) m h :
  bindM (store d key e) k (<[d := m]> h)
  = match e with
    | Ok v => k tt (<[d := <[key := PyNum v]> m]> h)
    | Raise x => Raise x
    end.
Proof.
  unfold store, bindM, lift, setitem. destruct e as [v | x]; [| reflexivity].
  rewrite lookup_total_insert_eq, insert_insert_eq. reflexivity.
Qed.

Lemma store_list_step {A} d key e (k : unit -> M A) m h :
  bindM (store_list d key e) k (<[d := m]> h)
  = match e with
    | Ok v => k tt (<[d := <[key := one_float v]> m]> h)
    | Raise x => Raise x
    end.
Proof.
  unfold store_list, bindM, lift, setitem. destruct e as [v | x]; [| reflexivity].
  rewrite lookup_total_insert_eq, insert_insert_eq. reflexivity.
Qed.

Lemma assign_all_app wrap es1 es2 m :
  assign_all wrap (es1 ++ es2) m
  = match assign_all wrap es1 m with
    | Ok m1 => assign_all wrap es2 m1
    | Raise x => Raise x
    end.
Proof.
  revert m; induction es1 as [| [key e] es1 IH]; intros m; simpl; [reflexivity |].
  destruct e; [apply IH | reflexivity].
Qed.

(** The keys of the mapping are the keys assigned. *)
Lemma assign_all_dom wrap es m m' :
  assign_all wrap es m = Ok m' ->
  dom m' = dom m ∪ list_to_set (map fst es).
Proof.
  revert m; induction es as [| [key e] es IH]; intros m; simpl.
  - intros [= <-]. cbn. rewrite union_empty_r_L. reflexivity.
  - destruct e as [v |]; [| discriminate]. intros Hrun.
    rewrite (IH _ Hrun), dom_insert_L. cbn [map fst list_to_set].
    rewrite (union_comm_L {[key]} (dom m)), union_assoc_L. reflexivity.
Qed.

(** Every value of the mapping is a wrapped result. *)
Lemma assign_all_values wrap (P : pyobj F -> Prop) es m m' :
  (forall key e v, In (key, e) es -> e = Ok v -> P (wrap v)) ->
  map_Forall (fun _ v => P v) m ->
  assign_all wrap es m = Ok m' ->
  map_Forall (fun _ v => P v) m'.
Proof.
  revert m; induction es as [| [key e] es IH]; intros m Hes Hm; simpl.
  - intros [= <-]. exact Hm.
  - destruct e as [v |]; [| discriminate].
    apply IH.
    + intros key' e' v' Hin. apply (Hes key' e' v'). right. exact Hin.
    + apply map_Forall_insert_2; [| exact Hm].
      apply (Hes key (Ok v) v); [left |]; reflexivity.
Qed.

Lemma assign_all_lookup_other wrap es m m' key :
  ~ In key (map fst es) ->
  assign_all wrap es m = Ok m' -> m' !! key = m !! key.
Proof.
  revert m; induction es as [| [key' e] es IH]; intros m Hnot; simpl.
  - intros [= <-]. reflexivity.
  - destruct e as [v |]; [| discriminate]. intros Hrun.
    rewrite (IH _ (fun Hin => Hnot (or_intror Hin)) Hrun).
    apply lookup_insert_ne. intros ->. apply Hnot. left. reflexivity.
Qed.

(** The last assignment to a key decides its value. *)
Lemma assign_all_lookup_last wrap es1 key e es2 m m' :
  ~ In key (map fst es2) ->
  assign_all wrap (es1 ++ (key, e) :: es2) m = Ok m' ->
  exists v, e = Ok v /\ m' !! key = Some (wrap v).
Proof.
  intros Hnot. rewrite assign_all_app.
  destruct (assign_all wrap es1 m) as [m1 |]; [| discriminate]. simpl.
  destruct e as [v |]; [| discriminate]. intros Hrun.
  exists v. split; [reflexivity |].
  rewrite (assign_all_lookup_other _ _ _ _ _ Hnot Hrun).
  apply lookup_insert_eq.
Qed.

(** An address handed out by [dict()] was not in use. *)
Lemma fresh_not_in h : h !! fresh (dom h) = None.
Proof. apply not_elem_of_dom, is_fresh. Qed.

End StoreFacts.

Module Aggregators.
Import Quita.

Section Keys.
Context {F : Type} `{Float64 F} `{Libm F} `{NLTK}.

(** A call allocates one dictionary, fills it by its assignments and
    leaves the rest of the store as it was. *)
Lemma getQuitaFeature_run text (h : heap F) :
  getQuitaFeature text h
  = match init text with
    | Ok quitaText =>
        match assign_all PyNum (quita_entries quitaText) ∅ with
        | Ok m => Ok (fresh (dom h), <[fresh (dom h) := m]> h)
        | Raise x => Raise x
        end
    | Raise x => Raise x
    end.
Proof.
  unfold getQuitaFeature, new_dict.
  unfold bindM at 1. unfold bindM at 1. unfold lift at 1.
  destruct (init text) as [quitaText | x]; [| reflexivity].
  unfold quita_entries. cbn [assign_all].
  repeat (rewrite store_step;
          match goal with
          | |- match ?e with _ => _ end = _ => destruct e; [| reflexivity]
          end).
  reflexivity.
Qed.

(** C1, on the code.  A call that returns leaves a mapping of seventeen
    keys: the h-point stored under ["R"] is overwritten by the curve
    length indicator, stored under the same key, and no key holds the
    h-point. *)
Theorem getQuitaFeature_keys text (h : heap F) l h' :
  getQuitaFeature text h = Ok (l, h') ->
  exists m quitaText CLI,
    h' !! l = Some m
    /\ dom m = list_to_set quita_keys
    /\ size m = 17%nat
    /\ init text = Ok quitaText
    /\ getCLI quitaText = Ok CLI
    /\ m !! "R" = Some (PyNum CLI).
Proof.
  rewrite getQuitaFeature_run.
  destruct (init text) as [quitaText |]; [| discriminate].
  destruct (assign_all PyNum (quita_entries quitaText) ∅) as [m |] eqn:Hrun;
    [| discriminate].
  intros [= <- <-].
  pose proof (assign_all_dom _ _ _ _ Hrun) as Hdom.
  rewrite dom_empty_L, union_empty_l_L in Hdom. cbn [quita_entries map fst] in Hdom.
  assert (dom m = list_to_set quita_keys) as Hkeys
    by (rewrite Hdom; vm_compute; reflexivity).
  change (quita_entries quitaText)
    with (firstn 11 (quita_entries quitaText)
            ++ ("R", getCLI quitaText) :: skipn 12 (quita_entries quitaText)) in Hrun.
  apply assign_all_lookup_last in Hrun as (CLI & HCLI & HR).
  - exists m, quitaText, CLI. rewrite lookup_insert_eq.
    repeat split; try assumption.
    rewrite <- size_dom, Hkeys. vm_compute. reflexivity.
  - cbn. intros Hin. repeat (destruct Hin as [Hin | Hin]; [discriminate |]). exact Hin.
Qed.

End Keys.
End Aggregators.

(** ** biber.py *)

Module BiberTheory.
Import Biber.

Section Features.
Context {F : Type} `{Float64 F} `{NLTK}.

Lemma count_Ok pattern (self : BiberText) :
  is_Ok (Re.compile pattern) = true ->
  count pattern self = Ok (count_matches pattern (taggedText self)).
Proof.
  unfold count, count_matches, Re.findall.
  destruct (Re.compile pattern); [reflexivity | discriminate].
Qed.

Lemma truediv_float (a b v : number F) : truediv a b = Ok v -> is_float v.
Proof.
  unfold truediv. destruct (is_np a || is_np b); [intros [= <-]; exact I |].
  destruct (is_zero b); [discriminate | intros [= <-]; exact I].
Qed.

Lemma per_1000_value n (self : BiberText) :
  tokenNum self <> 0 ->
  per_1000 n self = Ok (PyFloat (fdiv (of_Z (1000 * n)) (of_Z (tokenNum self)))).
Proof.
  intros Hne. unfold per_1000, truediv. cbn.
  destruct (Z.eqb_spec (tokenNum self) 0); [contradiction | reflexivity].
Qed.

Lemma per_1000_zero n (self : BiberText) :
  tokenNum self = 0 -> per_1000 n self = Raise ZeroDivisionError.
Proof. intros Hz. unfold per_1000, truediv. cbn. rewrite Hz. reflexivity. Qed.

Lemma getBiberFeature_run text (h : heap F) :
  getBiberFeature text h
  = match assign_all one_float (biber_entries (init text)) ∅ with
    | Ok m => Ok (fresh (dom h), <[fresh (dom h) := m]> h)
    | Raise x => Raise x
    end.
Proof.
  unfold getBiberFeature, new_dict.
  unfold bindM at 1.
  unfold biber_entries. cbn [assign_all].
  generalize (init text). intros biberText.
  repeat (rewrite store_list_step;
          match goal with
          | |- match ?e with _ => _ end = _ => destruct e; [| reflexivity]
          end).
  reflexivity.
Qed.

Lemma returns_float_bind {A} (m : result A) (k : A -> result (number F)) :
  (forall a, returns_float (k a)) -> returns_float (bind m k).
Proof. intros Hk v Hv. apply bind_Ok in Hv as (a & _ & Hv). exact (Hk a v Hv). Qed.

Lemma returns_float_truediv (a b : number F) : returns_float (truediv a b).
Proof. intros v. apply truediv_float. Qed.

Lemma returns_float_per_1000 n (self : BiberText) : returns_float (per_1000 n self).
Proof. apply returns_float_truediv. Qed.

Lemma returns_float_NpFloat (x : F) : returns_float (Ok (NpFloat x)).
Proof. intros v [= <-]. exact I. Qed.

Ltac head_of t := lazymatch t with ?f _ => head_of f | _ => t end.

(** Unfold the feature at the head of the goal and walk down its binds. *)
Ltac open_feature :=
  lazymatch goal with
  | |- returns_float ?e => let f := head_of e in unfold f; cbv zeta
  end.

Ltac float_feature :=
  open_feature;
  repeat (lazymatch goal with
          | |- returns_float (bind _ _) => apply returns_float_bind; intros ?
          end);
  lazymatch goal with
  | |- returns_float (per_1000 _ _) => apply returns_float_per_1000
  | |- returns_float (truediv _ _) => apply returns_float_truediv
  | |- returns_float (Ok (NpFloat _)) => apply returns_float_NpFloat
  end.

(** Every feature that returns, returns a float. *)
Lemma biber_entries_float (biberText : BiberText) :
  Forall (fun entry => returns_float (snd entry)) (biber_entries biberText).
Proof.
  unfold biber_entries.
  repeat (constructor; [cbn [snd]; float_feature |]).
  constructor.
Qed.

(** C3, as amended.  A call that returns leaves a mapping of 65 keys, and
    each key holds a list of one element, the floating-point value of
    the feature. *)
Theorem getBiberFeature_shape text (h : heap F) l h' :
  getBiberFeature text h = Ok (l, h') ->
  exists m,
    h' !! l = Some m
    /\ dom m = list_to_set biber_keys
    /\ size m = 65%nat
    /\ forall key value,
         m !! key = Some value -> exists x, value = PyList [x] /\ is_float x.
Proof.
  rewrite getBiberFeature_run.
  destruct (assign_all one_float (biber_entries (init text)) ∅) as [m |] eqn:Hrun;
    [| discriminate].
  intros [= <- <-]. exists m. rewrite lookup_insert_eq.
  pose proof (assign_all_dom _ _ _ _ Hrun) as Hdom.
  rewrite dom_empty_L, union_empty_l_L in Hdom.
  assert (dom m = list_to_set biber_keys) as Hkeys by exact Hdom.
  split; [reflexivity |]. split; [exact Hkeys |]. split.
  - rewrite <- size_dom, Hkeys. vm_compute. reflexivity.
  - apply (assign_all_values one_float
             (fun value => exists x, value = PyList [x] /\ is_float x)
             _ _ _) in Hrun.
    + intros key value Hkey. exact (Hrun key value Hkey).
    + intros key e v Hin He. exists v. split; [reflexivity |].
      pose proof (biber_entries_float (init text)) as Hall.
      rewrite List.Forall_forall in Hall. exact (Hall _ Hin v He).
    + apply map_Forall_empty.
Qed.

(** *** Zero tokens *)

Lemma truediv_by_zero a : truediv (PyInt a) (PyInt 0) = Raise (A:=number F) ZeroDivisionError.
Proof. reflexivity. Qed.

(** Evaluate the counts of the feature at the head of the goal. *)
Ltac eval_counts :=
  lazymatch goal with
  | |- ?e = _ => let f := head_of e in unfold f; cbv zeta
  end;
  repeat (rewrite count_Ok by (vm_compute; reflexivity); cbn [bind]).

Lemma per_token_features_zero (self : BiberText) :
  tokenNum self = 0 ->
  Forall (fun feature => feature self = Raise ZeroDivisionError) per_token_features.
Proof.
  intros Hz. unfold per_token_features.
  repeat (constructor;
          [ eval_counts;
            lazymatch goal with
            | |- per_1000 _ _ = _ => apply per_1000_zero; exact Hz
            | |- truediv _ _ = _ => rewrite Hz; apply truediv_by_zero
            end
          | ]).
  constructor.
Qed.

(** *** Inclusion and exclusion *)


End Features.
End BiberTheory.

(** ** The scans of the cleaning steps and of the tokenizer *)

Module ReSteps.
Import Re.

Lemma matchk_Rep r' lo hi greedy s k :
  matchk (Rep r' lo hi greedy) s k = rep_loop r' lo hi greedy k (String.length s) 0 s.
Proof. reflexivity. Qed.

(** *** The suffixes *)

Lemma match_len_suffixes s :
  match_len (Alt (Seq (Chr "'") (Chr "m"))
               (Alt (Seq (Chr "'") (Chr "s"))
                    (Seq (Chr "n") (Seq (Chr "'") (Chr "t"))))) s
  = match s with
    | String c (String d s2) =>
        if Ascii.eqb c "'" && (Ascii.eqb d "m" || Ascii.eqb d "s") then Some 2%nat
        else match s2 with
             | String e _ =>
                 if Ascii.eqb c "n" && Ascii.eqb d "'" && Ascii.eqb e "t"
                 then Some 3%nat else None
             | EmptyString => None
             end
    | _ => None
    end.
Proof.
  unfold match_len, match_at.
  destruct s as [| c [| d s2]]; cbn [matchk step orelse].
  - reflexivity.
  - rewrite !(Ascii.eqb_sym _ c). destruct (Ascii.eqb c "'"), (Ascii.eqb c "n"); reflexivity.
  - rewrite !(Ascii.eqb_sym _ c), !(Ascii.eqb_sym _ d).
    destruct (Ascii.eqb_spec c "'") as [-> | Hc].
    + change (Ascii.eqb "'" "n") with false. cbn [andb].
      destruct (Ascii.eqb d "m"); cbn [orb orelse String.length].
      * f_equal. lia.
      * destruct (Ascii.eqb d "s"); cbn [orelse String.length]; [f_equal; lia |].
        destruct s2; reflexivity.
    + cbn [andb orelse]. destruct (Ascii.eqb c "n"); cbn [andb orelse].
      * destruct s2 as [| e s3]; cbn [step].
        -- destruct (Ascii.eqb d "'"); reflexivity.
        -- rewrite (Ascii.eqb_sym _ e).
           destruct (Ascii.eqb d "'"); cbn [andb]; [| reflexivity].
           destruct (Ascii.eqb e "t"); cbn [String.length]; [f_equal; lia | reflexivity].
      * destruct s2; reflexivity.
Qed.

Lemma sub_scan_suffixes n : forall s,
  (String.length s <= n)%nat ->
  sub_scan (Alt (Seq (Chr "'") (Chr "m"))
              (Alt (Seq (Chr "'") (Chr "s"))
                   (Seq (Chr "n") (Seq (Chr "'") (Chr "t"))))) "" s 0
  = delete_suffixes s.
Proof.
  induction n as [| n IH]; intros s Hn.
  - destruct s; [reflexivity | simpl in Hn; lia].
  - destruct s as [| c s1]; [reflexivity |].
    cbn [sub_scan]. rewrite match_len_suffixes.
    destruct s1 as [| d s2].
    + reflexivity.
    + cbn [String.length] in Hn. cbn [delete_suffixes].
      destruct (Ascii.eqb c "'" && (Ascii.eqb d "m" || Ascii.eqb d "s")).
      * cbn [sub_scan String.append]. apply IH. lia.
      * destruct s2 as [| e s3].
        -- f_equal. apply IH. cbn [String.length]. lia.
        -- destruct (Ascii.eqb c "n" && Ascii.eqb d "'" && Ascii.eqb e "t").
           ++ cbn [sub_scan String.append]. apply IH. cbn [String.length] in Hn. lia.
           ++ f_equal. apply IH. cbn [String.length] in *. lia.
Qed.

(** *** The digits *)

Lemma sub_scan_digits s :
  sub_scan (Class [("0", "9")]%char) "" s 0 = delete_digits s.
Proof.
  induction s as [| c s IH]; [reflexivity |].
  cbn [sub_scan delete_digits]. rewrite ReTheory.match_len_class, ReTheory.digit_class.
  destruct (isdecimal c); cbn [String.append]; [exact IH | f_equal; exact IH].
Qed.

(** *** The bracketed spans *)

Lemma span_end_shorter s : forall rest,
  span_end s = Some rest -> (String.length rest < String.length s)%nat.
Proof.
  induction s as [| c s IH]; intros rest; [discriminate |]. cbn [span_end String.length].
  destruct (Ascii.eqb c "]"); [intros [= <-]; lia |].
  destruct (Ascii.eqb c newline); [discriminate |].
  intros Hs. apply IH in Hs. lia.
Qed.

(** The lazy loop of [.+?] before a closing bracket, once a character is
    read: it stops at the first closing bracket. *)
Lemma lazy_loop_span s : forall fuel count,
  (String.length s <= fuel)%nat ->
  rep_loop Any 1 None false (fun s' => step (Ascii.eqb "]") s' Some) fuel (S count) s
  = span_end s.
Proof.
  induction s as [| c s IH]; intros fuel count Hfuel.
  - destruct fuel; reflexivity.
  - destruct fuel as [| fuel]; [simpl in Hfuel; lia |].
    cbn [rep_loop span_end]. cbv zeta. cbn [Nat.leb step orelse below matchk].
    rewrite (Ascii.eqb_sym "]" c).
    destruct (Ascii.eqb c "]"); cbn [orelse]; [reflexivity |].
    destruct (Ascii.eqb c newline); cbn [negb]; [reflexivity |].
    destruct (Nat.ltb_spec (String.length s) (String.length (String c s))) as [_ | Hge];
      [| cbn [String.length] in Hge; lia].
    apply IH. cbn [String.length] in Hfuel. lia.
Qed.

Lemma match_at_bracket s :
  match_at (Seq (Chr "[") (Seq (Rep Any 1 None false) (Chr "]"))) s
  = match s with
    | String c (String c1 rest) =>
        if Ascii.eqb c "[" && negb (Ascii.eqb c1 newline) then span_end rest else None
    | _ => None
    end.
Proof.
  unfold match_at. destruct s as [| c [| c1 rest]]; cbn [matchk step].
  - reflexivity.
  - rewrite (Ascii.eqb_sym "[" c). destruct (Ascii.eqb c "["); reflexivity.
  - rewrite (Ascii.eqb_sym "[" c). destruct (Ascii.eqb c "["); cbn [andb]; [| reflexivity].
    change (rep_loop Any 1 None false (fun s' => step (Ascii.eqb "]") s' Some)
              (S (String.length rest)) 0 (String c1 rest)
            = if negb (Ascii.eqb c1 newline) then span_end rest else None).
    cbn [rep_loop]. cbv zeta. cbn [Nat.leb orelse below matchk step].
    destruct (Ascii.eqb c1 newline); cbn [negb]; [reflexivity |].
    destruct (Nat.ltb_spec (String.length rest) (String.length (String c1 rest))) as [_ | Hge];
      [| cbn [String.length] in Hge; lia].
    apply lazy_loop_span. lia.
Qed.

(** Inside a span, both pass to what follows its closing bracket. *)
Lemma inside_span r repl s : forall rest,
  span_end s = Some rest ->
  sub_scan r repl s (String.length s - String.length rest) = sub_scan r repl rest 0
  /\ blank_brackets Inside s = blank_brackets Outside rest.
Proof.
  induction s as [| c s IH]; intros rest; [discriminate |].
  cbn [span_end]. destruct (Ascii.eqb c "]") eqn:Hc.
  - intros [= <-]. cbn [String.length blank_brackets]. rewrite Hc.
    replace (S (String.length s) - String.length s)%nat with 1%nat by lia.
    split; reflexivity.
  - destruct (Ascii.eqb c newline); [discriminate |].
    intros Hs. pose proof (span_end_shorter _ _ Hs) as Hlt.
    destruct (IH _ Hs) as (Hsub & Hblank).
    cbn [String.length blank_brackets]. rewrite Hc.
    replace (S (String.length s) - String.length rest)%nat
      with (S (String.length s - String.length rest)) by lia.
    split; assumption.
Qed.

Lemma sub_scan_brackets n : forall s,
  (String.length s <= n)%nat ->
  sub_scan (Seq (Chr "[") (Seq (Rep Any 1 None false) (Chr "]"))) " " s 0
  = blank_brackets Outside s.
Proof.
  induction n as [| n IH]; intros s Hn.
  - destruct s; [reflexivity | simpl in Hn; lia].
  - destruct s as [| c s']; [reflexivity |].
    cbn [sub_scan blank_brackets]. unfold match_len. rewrite match_at_bracket.
    cbn [String.length] in Hn.
    destruct s' as [| c1 rest].
    + cbn [span_opens]. rewrite andb_false_r. reflexivity.
    + cbn [span_opens]. rewrite andb_assoc.
      destruct (Ascii.eqb c "[" && negb (Ascii.eqb c1 newline)); cbn [andb];
        [| f_equal; apply IH; lia].
      destruct (span_end rest) as [rest' |] eqn:Hs; [| f_equal; apply IH; lia].
      pose proof (span_end_shorter _ _ Hs) as Hlt.
      destruct (inside_span (Seq (Chr "[") (Seq (Rep Any 1 None false) (Chr "]"))) " "
                  _ _ Hs) as (Hsub & Hblank).
      cbn [String.length].
      replace (S (S (String.length rest)) - String.length rest')%nat
        with (S (S (String.length rest - String.length rest'))) by lia.
      cbn [sub_scan blank_brackets]. rewrite Hsub, Hblank.
      cbn [String.append]. f_equal. apply IH. cbn [String.length] in Hn. lia.
Qed.

(** *** The runs of word characters *)

Lemma word_run_length s : (String.length (word_run s) <= String.length s)%nat.
Proof.
  induction s as [| c s IH]; [reflexivity |]. cbn [word_run].
  destruct (isword c); cbn [String.length]; lia.
Qed.

Lemma take_word_run s : take (String.length (word_run s)) s = word_run s.
Proof.
  induction s as [| c s IH]; [reflexivity |]. cbn [word_run].
  destruct (isword c); [| reflexivity]. cbn [String.length take]. rewrite IH. reflexivity.
Qed.

(** The greedy loop of [\w+] reads the whole run. *)
Lemma greedy_loop_run s : forall fuel count,
  (String.length s <= fuel)%nat ->
  exists rest,
    (String.length s - String.length rest = String.length (word_run s))%nat
    /\ (String.length rest <= String.length s)%nat
    /\ rep_loop Word 1 None true Some fuel count s
       = if (1 <=? count + String.length (word_run s))%nat then Some rest else None.
Proof.
  induction s as [| c s IH]; intros fuel count Hfuel.
  - exists EmptyString. split; [reflexivity |]. split; [reflexivity |].
    cbn [word_run String.length]. rewrite Nat.add_0_r.
    destruct fuel; cbn [rep_loop]; cbv zeta; cbn [below matchk step orelse];
      destruct (1 <=? count)%nat; reflexivity.
  - destruct fuel as [| fuel]; [simpl in Hfuel; lia |].
    cbn [String.length] in Hfuel. cbn [rep_loop word_run]. cbv zeta.
    cbn [below matchk step].
    destruct (isword c).
    + destruct (IH fuel (S count)) as (rest & Hlen & Hle & Hloop); [lia |].
      exists rest. cbn [String.length]. split; [lia |]. split; [lia |].
      destruct (Nat.ltb_spec (String.length s) (S (String.length s))) as [_ | Hge]; [| lia].
      rewrite Hloop.
      replace (S count + String.length (word_run s))%nat
        with (count + S (String.length (word_run s)))%nat by lia.
      destruct (Nat.leb_spec 1 (count + S (String.length (word_run s)))) as [_ | Hlt];
        [reflexivity | lia].
    + exists (String c s). cbn [String.length]. rewrite Nat.add_0_r.
      split; [lia |]. split; [lia |]. cbn [orelse]. reflexivity.
Qed.

Lemma match_len_word s :
  match_len (Rep Word 1 None true) s
  = match String.length (word_run s) with
    | O => None
    | n => Some n
    end.
Proof.
  unfold match_len, match_at. rewrite matchk_Rep.
  destruct (greedy_loop_run s (String.length s) 0) as (rest & Hlen & _ & ->); [lia |].
  cbn [Nat.add]. destruct (String.length (word_run s)) as [| n] eqn:Hrun.
  - reflexivity.
  - cbn [Nat.leb]. rewrite Hlen. reflexivity.
Qed.

(** The scan on [\w+]: at a position outside a match, and at one that
    the run of the current match covers. *)
Lemma findall_scan_runs s :
  findall_scan (Rep Word 1 None true) s 0 = word_runs false s
  /\ findall_scan (Rep Word 1 None true) s (String.length (word_run s)) = word_runs true s.
Proof.
  induction s as [| c s [IH0 IH1]].
  - split; reflexivity.
  - assert (findall_scan (Rep Word 1 None true) (String c s) 0 = word_runs false (String c s))
      as H0.
    { cbn [findall_scan]. rewrite match_len_word. cbn [word_run word_runs].
      destruct (isword c) eqn:Hc.
      - cbn [String.length Nat.pred]. rewrite IH1.
        pose proof (take_word_run (String c s)) as Htake. cbn [word_run] in Htake.
        rewrite Hc in Htake. cbn [String.length] in Htake. rewrite Htake. reflexivity.
      - cbn [String.length]. exact IH0. }
    split; [exact H0 |].
    cbn [word_run word_runs] in *. destruct (isword c).
    + cbn [String.length findall_scan]. exact IH1.
    + cbn [String.length]. exact H0.
Qed.

Lemma word_run_chars s c : In c (chars (word_run s)) -> isword c = true /\ In c (chars s).
Proof.
  induction s as [| a s IH]; cbn [word_run chars]; [intros [] |].
  destruct (isword a) eqn:Ha; cbn [chars]; [| intros []].
  intros [<- | Hin]; [split; [exact Ha | left; reflexivity] |].
  destruct (IH Hin) as [Hw Hs]. split; [exact Hw | right; exact Hs].
Qed.

(** A run holds word characters of the text, and nothing else. *)
Lemma word_runs_chars s : forall inside token c,
  In token (word_runs inside s) -> In c (chars token) ->
  isword c = true /\ In c (chars s).
Proof.
  induction s as [| a s IH]; intros inside token c; cbn [word_runs]; [intros [] |].
  intros Htoken Hc.
  assert (forall b, In token (word_runs b s) -> isword c = true /\ In c (chars (String a s)))
    as Hrest.
  { intros b Hb. destruct (IH b token c Hb Hc) as [Hw Hs]. split; [exact Hw | right; exact Hs]. }
  destruct (isword a) eqn:Ha; [| eauto].
  destruct inside; [eauto |].
  destruct Htoken as [<- | Htoken]; [| eauto].
  apply word_run_chars. exact Hc.
Qed.

End ReSteps.

(** ** Cleaning and tokenizing *)

Module QuitaCleaning.
Import Quita QuitaTheory ReTheory.

Lemma sub_Ok pattern repl text :
  is_Ok (Re.compile pattern) = true ->
  exists r, Re.compile pattern = Ok r
            /\ Re.sub pattern repl text = Ok (Re.sub_scan r repl text 0).
Proof.
  unfold Re.sub. destruct (Re.compile pattern) as [r |]; [| discriminate].
  intros _. exists r. split; reflexivity.
Qed.

(** The text [cleanText] returns holds no upper-case letter and none of
    the digits 0-9. *)
Lemma cleanText_clean text :
  exists cleaned,
    cleanText text = Ok cleaned
    /\ forall c, In c (chars cleaned) -> isupper c = false /\ isdecimal c = false.
Proof.
  unfold cleanText.
  destruct (sub_Ok "'m|'s|n't" "" (lower text)) as (r1 & _ & ->);
    [vm_compute; reflexivity |]. cbn [bind].
  set (t1 := Re.sub_scan r1 "" (lower text) 0).
  destruct (sub_Ok "[0-9]" "" t1) as (r2 & Hr2 & ->); [vm_compute; reflexivity |].
  cbn [bind]. vm_compute in Hr2. injection Hr2 as <-.
  set (t2 := Re.sub_scan _ "" t1 0).
  destruct (sub_Ok "\[.+?\]" " " t2) as (r3 & _ & ->); [vm_compute; reflexivity |].
  cbn [bind]. eexists. split; [reflexivity |].
  intros c Hc.
  apply sub_scan_chars in Hc as [Hc | Hc].
  - split.
    + apply sub_scan_chars in Hc as [Hc | []].
      apply sub_scan_chars in Hc as [Hc | []].
      exact (lower_chars _ _ Hc).
    + rewrite <- digit_class. exact (sub_scan_class _ _ _ Hc).
  - destruct Hc as [<- | []]. split; reflexivity.
Qed.

(** [cleanText], step by step. *)
Lemma cleanText_steps text :
  cleanText text
  = Ok (blank_brackets Outside (delete_digits (delete_suffixes (lower text)))).
Proof.
  unfold cleanText, Re.sub.
  change (Re.compile "'m|'s|n't")
    with (Ok (Re.Alt (Re.Seq (Re.Chr "'") (Re.Chr "m"))
                (Re.Alt (Re.Seq (Re.Chr "'") (Re.Chr "s"))
                   (Re.Seq (Re.Chr "n") (Re.Seq (Re.Chr "'") (Re.Chr "t")))))).
  change (Re.compile "[0-9]") with (Ok (Re.Class [("0", "9")]%char)).
  change (Re.compile "\[.+?\]")
    with (Ok (Re.Seq (Re.Chr "[") (Re.Seq (Re.Rep Re.Any 1 None false) (Re.Chr "]")))).
  cbn [bind].
  rewrite (ReSteps.sub_scan_suffixes _ _ (le_n _)), ReSteps.sub_scan_digits,
    (ReSteps.sub_scan_brackets _ _ (le_n _)).
  reflexivity.
Qed.

(** The tokens of a text are its runs of word characters. *)
Lemma regexp_tokenize_runs text :
  regexp_tokenize text "\w+" = Ok (word_runs false text).
Proof.
  unfold regexp_tokenize, Re.findall.
  change (Re.compile "\w+") with (Ok (Re.Rep Re.Word 1 None true)). cbn [bind].
  f_equal. apply ReSteps.findall_scan_runs.
Qed.

(** C9, as amended.  [cleanText] lower-cases the text, deletes the
    occurrences of ['m], ['s] and [n't] that one pass finds, deletes the
    digits 0-9 and puts one blank for every bracketed span; the token
    list of a [QuitaText] is the list of the runs of word characters of
    this text.  No token holds an upper-case letter or one of the digits
    0-9, and the counts of tokens and of types can differ from those of
    the raw text. *)
Theorem quita_tokens_clean :
  (forall text,
      let cleaned :=
        blank_brackets Outside (delete_digits (delete_suffixes (lower text))) in
      let tokens := word_runs false cleaned in
      cleanText text = Ok cleaned
      /\ regexp_tokenize cleaned "\w+" = Ok tokens
      /\ (forall F (Hf : Float64 F) (Hn : NLTK) (self : QuitaText (F:=F)),
            init text = Ok self -> Quita.text self = cleaned /\ tokenList self = tokens)
      /\ forall token c, In token tokens -> In c (chars token) ->
                         isword c = true /\ isupper c = false /\ isdecimal c = false)
  /\ (exists text cleaned,
        cleanText text = Ok cleaned
        /\ length (word_runs false cleaned) <> length (word_runs false text)
        /\ length (FreqDist (word_runs false cleaned))
           <> length (FreqDist (word_runs false text))).
Proof.
  split.
  - intros text cleaned tokens.
    pose proof (cleanText_steps text) as Hclean. fold cleaned in Hclean.
    pose proof (regexp_tokenize_runs cleaned) as Htokens. fold tokens in Htokens.
    split; [exact Hclean |]. split; [exact Htokens |]. split.
    + intros F Hf Hn self Hinit.
      unfold init in Hinit. rewrite Hclean in Hinit. cbn [bind] in Hinit.
      rewrite Htokens in Hinit. cbn [bind] in Hinit.
      destruct (getTypeData tokens) in Hinit; [| discriminate].
      injection Hinit as <-. split; reflexivity.
    + intros token c Htoken Hc.
      destruct (ReSteps.word_runs_chars _ _ _ _ Htoken Hc) as [Hword Hin].
      split; [exact Hword |].
      destruct (cleanText_clean text) as (cleaned' & Hclean' & Hchars).
      rewrite Hclean in Hclean'. injection Hclean' as <-.
      exact (Hchars c Hin).
  - exists "It's 42", "it ". split; [vm_compute; reflexivity |].
    split; vm_compute; discriminate.
Qed.

End QuitaCleaning.

(** ** Calls of the aggregators *)

Module Calls.

Section Aggregator.
Context {F : Type} `{Float64 F} `{Libm F} `{NLTK}.

Lemma aggregator_run biber text (h : heap F) :
  aggregator biber text h
  = match profile biber text with
    | Ok m => Ok (fresh (dom h), <[fresh (dom h) := m]> h)
    | Raise x => Raise x
    end.
Proof.
  destruct biber; cbn [aggregator profile].
  - apply BiberTheory.getBiberFeature_run.
  - rewrite Aggregators.getQuitaFeature_run.
    destruct (Quita.init text); reflexivity.
Qed.

(** C8.  A second call on the same text, run in the store the first call
    left, returns a new dictionary equal to the first one and leaves the
    first one as it was. *)
Theorem aggregator_idempotent biber text (h : heap F) l1 h1 :
  aggregator biber text h = Ok (l1, h1) ->
  exists l2 h2,
    aggregator biber text h1 = Ok (l2, h2)
    /\ l2 <> l1
    /\ h2 !! l2 = h1 !! l1
    /\ h2 !! l1 = h1 !! l1.
Proof.
  rewrite !aggregator_run.
  destruct (profile biber text) as [m |]; [| discriminate].
  intros [= <- <-].
  set (l1 := fresh (dom h)). set (h1 := <[l1 := m]> h).
  assert (fresh (dom h1) <> l1) as Hne.
  { intros Heq. pose proof (fresh_not_in h1) as Hfresh.
    rewrite Heq in Hfresh. unfold h1 in Hfresh.
    rewrite lookup_insert_eq in Hfresh. discriminate. }
  exists (fresh (dom h1)), (<[fresh (dom h1) := m]> h1).
  split; [reflexivity |]. split; [exact Hne |]. split.
  - rewrite lookup_insert_eq. unfold h1. rewrite lookup_insert_eq. reflexivity.
  - apply lookup_insert_ne. exact Hne.
Qed.

End Aggregator.

Section VerbDistance.
Context `{Libm float} `{NLTK}.
Import Quita.

(** C10.  With fewer than two verb tokens [getVerbDist] raises nothing
    and returns NaN, and so does the ["VD"] entry of a profile that is
    returned. *)
Theorem getVerbDist_nan (self : QuitaText (F:=float)) verbs :
  mapM isVerb (tokenList self) = Ok verbs ->
  count_true verbs < 2 ->
  getVerbDist self = Ok (NpFloat nan)
  /\ forall text h l h',
       init text = Ok self ->
       getQuitaFeature text h = Ok (l, h') ->
       exists m, h' !! l = Some m /\ m !! "VD" = Some (PyNum (NpFloat nan)).
Proof.
  intros Hverbs Hcount.
  pose proof (QuitaIndices.getVerbDist_few_verbs self verbs Hverbs Hcount) as HVD.
  change (np_average (F:=float) []) with nan in HVD.
  split; [exact HVD |].
  intros text h l h' Hinit. rewrite Aggregators.getQuitaFeature_run, Hinit.
  destruct (assign_all PyNum (quita_entries self) ∅) as [m |] eqn:Hrun;
    [| discriminate].
  intros [= <- <-]. exists m. rewrite lookup_insert_eq. split; [reflexivity |].
  change (quita_entries self)
    with (firstn 17 (quita_entries self) ++ [("VD", getVerbDist self)])
    in Hrun.
  apply assign_all_lookup_last in Hrun as (v & Hv & Hm); [| intros []].
  rewrite HVD in Hv. injection Hv as <-. exact Hm.
Qed.

(** With one type of probability [1.0] the relative repeat rate is
    [0.0 / 0.0]. *)
Lemma getRRmc_single_type (self : QuitaText (F:=float)) :
  np_sqrt 1%float = 1%float ->
  typeNum self = 1 ->
  map prob (typeData self) = [1%float] ->
  getRRmc self = Ok (NpFloat nan).
Proof.
  intros Hsqrt HV Hprob. unfold getRRmc, getRR. rewrite Hprob, HV. cbn [bind map].
  unfold np_sqrt_num. cbn [to_F].
  change (np_sum [fmul 1%float 1%float]) with 1%float.
  change (of_Z (F:=float) 1) with 1%float.
  rewrite Hsqrt. reflexivity.
Qed.

End VerbDistance.

Section Degenerate.
Import Quita.

Lemma getRRmc_returns {F} `{Float64 F} `{Libm F} `{NLTK} (self : QuitaText (F:=F)) :
  exists x, getRRmc self = Ok (NpFloat x).
Proof. eexists. reflexivity. Qed.

Lemma getBiberFeature_no_token {F} `{Float64 F} `{NLTK} text (h : heap F) :
  word_tokenize text = [] ->
  Biber.getBiberFeature text h = Raise ZeroDivisionError.
Proof.
  intros Htok. rewrite BiberTheory.getBiberFeature_run.
  unfold biber_entries. cbn [assign_all].
  assert (Biber.feature_01 (F:=F) (Biber.init text) = Raise ZeroDivisionError) as ->;
    [| reflexivity].
  apply BiberTheory.per_1000_zero. unfold Biber.init. cbn. rewrite Htok. reflexivity.
Qed.

End Degenerate.

End Calls.

(** C2, as amended.  No exception of the kind [DegenerateInputError] is
    raised.  With no token every Biber feature that divides by the token
    count raises [ZeroDivisionError], and so does the aggregator; and
    [getRRmc] raises nothing on any table: it returns a float, which on
    binary64 is NaN when the single type has probability [1.0]. *)
Theorem degenerate_inputs :
  (forall F (Hf : Float64 F) (Hn : NLTK) (self : Biber.BiberText),
      Biber.tokenNum self = 0 ->
      Forall (fun feature => feature self = Raise ZeroDivisionError)
             (per_token_features (F:=F)))
  /\ (forall F (Hf : Float64 F) (Hn : NLTK) text (h : heap F),
        word_tokenize text = [] ->
        Biber.getBiberFeature text h = Raise ZeroDivisionError)
  /\ (forall F (Hf : Float64 F) (Hl : Libm F) (Hn : NLTK) (self : Quita.QuitaText (F:=F)),
        exists x, Quita.getRRmc self = Ok (NpFloat x))
  /\ (forall (Hl : Libm float) (Hn : NLTK) (self : Quita.QuitaText (F:=float)),
        np_sqrt 1%float = 1%float ->
        Quita.typeNum self = 1 ->
        map Quita.prob (Quita.typeData self) = [1%float] ->
        Quita.getRRmc self = Ok (NpFloat nan)).
Proof.
  split; [| split; [| split]].
  - intros F Hf Hn self. apply BiberTheory.per_token_features_zero.
  - intros F Hf Hn text h. apply Calls.getBiberFeature_no_token.
  - intros F Hf Hl Hn self. apply Calls.getRRmc_returns.
  - intros Hl Hn self. apply Calls.getRRmc_single_type.
Qed.

(** ** Runs on sample texts (binary64, the sample tagger and libm) *)

Module Runs.
Import Sample.
Local Open Scope string_scope.

(** The samples are analyzed: [quita] stands for the text the constructor
    returns. *)
Example quita_fable : Quita.init fable = Ok (quita fable).
Proof. vm_compute. reflexivity. Qed.

Example quita_tied : Quita.init tied = Ok (quita tied).
Proof. vm_compute. reflexivity. Qed.

Example quita_still : Quita.init still = Ok (quita still).
Proof. vm_compute. reflexivity. Qed.

Example quita_exact_aab : Quita.init "a a b" = Ok (quita_exact "a a b").
Proof. vm_compute. reflexivity. Qed.

(** *** C1 *)

(** The profile of [fable] is returned, with its seventeen keys. *)
Lemma getQuitaFeature_keys_witness :
  let '(l, h') := returned (Quita.getQuitaFeature fable ∅) in
  Quita.getQuitaFeature fable ∅ = Ok (l, h')
  /\ exists m quitaText CLI,
       h' !! l = Some m
       /\ dom m = list_to_set quita_keys
       /\ size m = 17%nat
       /\ Quita.init fable = Ok quitaText
       /\ Quita.getCLI quitaText = Ok CLI
       /\ m !! "R" = Some (PyNum CLI).
Proof.
  assert (is_Ok (Quita.getQuitaFeature fable ∅) = true) as Hok
    by (vm_compute; reflexivity).
  destruct (Quita.getQuitaFeature fable ∅) as [[l h'] |] eqn:Hcall;
    [| discriminate Hok].
  split; [reflexivity |].
  exact (Aggregators.getQuitaFeature_keys fable ∅ l h' Hcall).
Defined.

(** On [fable] the h-point is the rank 2 and the curve length indicator
    is 1.0: the mapping holds the second under ["R"] and the first
    nowhere. *)
Example fable_R :
  Quita.getHPoint (quita fable) = Ok (NpInt 2)
  /\ Quita.getCLI (quita fable) = Ok (NpFloat 1%float)
  /\ entry (Quita.getQuitaFeature fable ∅) "R" = Some (PyNum (NpFloat 1%float))
  /\ entry (Quita.getQuitaFeature fable ∅) "h" = None.
Proof. vm_compute. repeat split. Qed.

(** *** C2 *)

(** The empty text and a text of one word: a division fault in the first
    case and NaN in the second, [DegenerateInputError] in neither. *)
Lemma degenerate_input_not_signalled :
  Biber.feature_01 (F:=float) (Biber.init "") = Raise ZeroDivisionError
  /\ Biber.feature_01 (F:=float) (Biber.init "") <> Raise DegenerateInputError
  /\ Quita.typeNum (quita "run") = 1
  /\ Quita.getRRmc (quita "run") = Ok (NpFloat nan)
  /\ Quita.getRRmc (quita "run") <> Raise DegenerateInputError.
Proof.
  assert (Biber.feature_01 (F:=float) (Biber.init "") = Raise ZeroDivisionError) as H1
    by (vm_compute; reflexivity).
  assert (Quita.getRRmc (quita "run") = Ok (NpFloat nan)) as H2
    by (vm_compute; reflexivity).
  rewrite H1, H2. repeat split; try discriminate.
Qed.

(** The premises of [degenerate_inputs] hold of the same two texts. *)
Lemma degenerate_inputs_witness :
  Biber.tokenNum (Biber.init "") = 0
  /\ Forall (fun feature => feature (Biber.init "") = Raise ZeroDivisionError)
            (per_token_features (F:=float))
  /\ Biber.getBiberFeature (F:=float) "" ∅ = Raise ZeroDivisionError
  /\ Quita.typeNum (quita "run") = 1
  /\ Quita.getRRmc (quita "run") = Ok (NpFloat nan).
Proof.
  destruct degenerate_inputs as (Hfeatures & Hcall & _ & Hnan).
  assert (Biber.tokenNum (Biber.init "") = 0) as HN by (vm_compute; reflexivity).
  assert (Quita.typeNum (quita "run") = 1) as HV by (vm_compute; reflexivity).
  split; [exact HN |].
  split; [exact (Hfeatures float binary64 nltk (Biber.init "") HN) |].
  split; [apply (Hcall float binary64 nltk); vm_compute; reflexivity |].
  split; [exact HV |].
  apply (Hnan libm nltk); [vm_compute; reflexivity | exact HV | vm_compute; reflexivity].
Defined.

(** *** C3 *)

(** The value of a key is a list, not a number. *)
Lemma getBiberFeature_values_are_lists :
  entry (Biber.getBiberFeature did_go ∅) "PASTTENSE" = Some (PyList [PyFloat 250%float])
  /\ forall x, entry (Biber.getBiberFeature did_go ∅) "PASTTENSE" <> Some (PyNum x).
Proof.
  assert (entry (Biber.getBiberFeature did_go ∅) "PASTTENSE"
          = Some (PyList [PyFloat 250%float])) as ->
    by (vm_compute; reflexivity).
  split; [reflexivity | discriminate].
Qed.

(** The profile of [did_go] is returned, with its 65 keys. *)
Lemma getBiberFeature_shape_witness :
  let '(l, h') := returned (Biber.getBiberFeature did_go ∅) in
  Biber.getBiberFeature (F:=float) did_go ∅ = Ok (l, h')
  /\ exists m,
       h' !! l = Some m
       /\ dom m = list_to_set biber_keys
       /\ size m = 65%nat
       /\ forall key value,
            m !! key = Some value -> exists x, value = PyList [x] /\ is_float x.
Proof.
  assert (is_Ok (Biber.getBiberFeature (F:=float) did_go ∅) = true) as Hok
    by (vm_compute; reflexivity).
  destruct (Biber.getBiberFeature (F:=float) did_go ∅) as [[l h'] |] eqn:Hcall;
    [| discriminate Hok].
  split; [reflexivity |].
  exact (BiberTheory.getBiberFeature_shape did_go ∅ l h' Hcall).
Defined.

(** *** C4 *)

(** On [tied] no frequency equals its rank and both exceed it: the rank
    [r1 + 1 = 3] is not in the table and the call raises. *)
Lemma getHPoint_cases_witness :
  map Quita.freq (Quita.typeData (quita tied)) = [3; 3]
  /\ map Quita.rank (Quita.typeData (quita tied)) = range 1 (2 + 1)
  /\ Quita.isExactHPoint (quita tied) = false
  /\ count_true (zip_with Z.gtb (map Quita.freq (Quita.typeData (quita tied)))
                          (range 1 (2 + 1))) = 2
  /\ Quita.getHPoint (quita tied) = Raise IndexError.
Proof.
  split; [vm_compute; reflexivity |].
  split; [vm_compute; reflexivity |].
  split; [vm_compute; reflexivity |].
  split; [vm_compute; reflexivity |].
  pose proof (QuitaIndices.getHPoint_cases (quita tied)) as Hcases.
  cbv zeta in Hcases.
  vm_compute in Hcases. apply Hcases. reflexivity.
Defined.

(** With an interpolation: frequencies [4, 3, 1] give
    [(3 * 3 - 1 * 2) / (3 - 2 + 3 - 1) = 7 / 3]. *)
Example getHPoint_interpolated :
  map Quita.freq (Quita.typeData (quita "a a a a b b b c")) = [4; 3; 1]
  /\ Quita.getHPoint (quita "a a a a b b b c") = Ok (NpFloat (7 / 3)%float).
Proof. vm_compute. split; reflexivity. Qed.

(** *** C5 *)


(** Two types of frequencies 2 and 1: [(3 - 2 * 4 / 3) / 2 = 1 / 6]. *)
Example gini_aab :
  exists g, Quita.getGiniCoef (quita_exact "a a b") = Ok (NpFloat g) /\ (g == 1 # 6)%Q.
Proof. eexists. split; [vm_compute; reflexivity | reflexivity]. Qed.

(** A single type: the coefficient is [0.0] on binary64 too. *)
Example gini_single_type :
  Quita.getGiniCoef (quita "run run run") = Ok (NpFloat 0%float).
Proof. vm_compute. reflexivity. Qed.

(** *** C6 *)


(** *** C7 *)



(** *** C8 *)

(** Two calls on [fable], the second in the store the first left. *)
Lemma aggregator_idempotent_witness :
  let '(l1, h1) := returned (aggregator false fable ∅) in
  aggregator false fable ∅ = Ok (l1, h1)
  /\ exists l2 h2,
       aggregator false fable h1 = Ok (l2, h2)
       /\ l2 <> l1
       /\ h2 !! l2 = h1 !! l1
       /\ h2 !! l1 = h1 !! l1.
Proof.
  assert (is_Ok (aggregator false fable ∅) = true) as Hok
    by (vm_compute; reflexivity).
  destruct (aggregator false fable ∅) as [[l1 h1] |] eqn:Hcall;
    [| discriminate Hok].
  split; [reflexivity |].
  exact (Calls.aggregator_idempotent false fable ∅ l1 h1 Hcall).
Defined.

(** *** C9 *)

(** A bracketed span leaves a blank, which separates two tokens. *)
Example cleanText_bracket :
  Quita.cleanText "Tom[sic]Cat" = Ok "tom cat"
  /\ Quita.tokenList (quita "Tom[sic]Cat") = ["tom"; "cat"].
Proof. vm_compute. split; reflexivity. Qed.

(** The superscript two. *)
Example digit_two : isdigit (chr 178) = true /\ isdecimal (chr 178) = false.
Proof. split; reflexivity. Qed.

(** The cleaned text is not the one the specification describes: a
    bracketed span leaves a blank, which separates its neighbours; a span
    that holds digits only is emptied and stays; and the superscript two,
    a digit that is none of 0-9, stays in its token. *)
Lemma cleaned_text_not_as_specified :
  let squared := String "x" (String (chr 178) " y") in
  Quita.cleanText "a[b]c" = Ok "a c"
  /\ cleaned_as_specified "a[b]c" = "ac"
  /\ Quita.init "a[b]c" = Ok (quita "a[b]c")
  /\ Quita.tokenList (quita "a[b]c") = ["a"; "c"]
  /\ Quita.cleanText "see [12]" = Ok "see []"
  /\ cleaned_as_specified "see [12]" = "see "
  /\ Quita.cleanText squared = Ok squared
  /\ cleaned_as_specified squared = "x y"
  /\ Quita.init squared = Ok (quita squared)
  /\ Quita.tokenList (quita squared) = [String "x" (String (chr 178) ""); "y"]
  /\ isdigit (chr 178) = true.
Proof. vm_compute. repeat split. Qed.

(** *** C10 *)

(** [still] holds one verb. *)
Lemma getVerbDist_nan_witness :
  let verbs := default_to (mapM Quita.isVerb (Quita.tokenList (quita still))) [] in
  mapM Quita.isVerb (Quita.tokenList (quita still)) = Ok verbs
  /\ count_true verbs < 2
  /\ Quita.getVerbDist (quita still) = Ok (NpFloat nan)
  /\ forall text h l h',
       Quita.init text = Ok (quita still) ->
       Quita.getQuitaFeature text h = Ok (l, h') ->
       exists m, h' !! l = Some m /\ m !! "VD" = Some (PyNum (NpFloat nan)).
Proof.
  intros verbs.
  assert (mapM Quita.isVerb (Quita.tokenList (quita still)) = Ok verbs) as Hverbs
    by (vm_compute; reflexivity).
  assert (count_true verbs < 2) as Hcount by (vm_compute; reflexivity).
  split; [exact Hverbs |]. split; [exact Hcount |].
  exact (Calls.getVerbDist_nan (quita still) verbs Hverbs Hcount).
Defined.

(** The profile of [still] is returned, and its ["VD"] entry is NaN. *)
Example still_profile :
  entry (Quita.getQuitaFeature still ∅) "VD" = Some (PyNum (NpFloat nan)).
Proof. vm_compute. reflexivity. Qed.

End Runs.

(** * Further properties of the two engines *)

(** ** The columns of the table, row by row *)

Section CounterCounts.

Lemma counter_get_incr w d x :
  counter_get (FreqDist_incr w d) x
  = counter_get d x + (if String.eqb w x then 1 else 0).
Proof.
  induction d as [| [k n] d IH]; simpl.
  - destruct (String.eqb w x); lia.
  - destruct (String.eqb_spec k w) as [-> | Hkw]; simpl.
    + destruct (String.eqb w x); lia.
    + destruct (String.eqb_spec k x) as [-> | Hkx].
      * destruct (String.eqb_spec w x); [congruence | lia].
      * exact IH.
Qed.

Lemma occurrences_snoc seen w x :
  occurrences (seen ++ [w]) x = occurrences seen x + (if String.eqb w x then 1 else 0).
Proof.
  unfold occurrences. rewrite count_occ_app. simpl.
  destruct (string_dec w x) as [-> | Hne].
  - rewrite String.eqb_refl. lia.
  - destruct (String.eqb_spec w x); [contradiction | lia].
Qed.

Lemma counter_get_FreqDist tokens x :
  counter_get (FreqDist tokens) x = occurrences tokens x.
Proof.
  unfold FreqDist.
  apply (FreqDist_fold (fun seen d => counter_get d x = occurrences seen x)); [reflexivity |].
  intros seen w d IH. rewrite counter_get_incr, occurrences_snoc, IH. reflexivity.
Qed.

Lemma counter_get_In d k n :
  NoDup (keys d) -> In (k, n) d -> counter_get d k = n.
Proof.
  induction d as [| [k' n'] d IH]; simpl; [tauto |].
  intros Hnd. apply NoDup_cons in Hnd as [Hnotin Hnd].
  intros [[= -> ->] | Hin].
  - rewrite String.eqb_refl. reflexivity.
  - destruct (String.eqb_spec k' k) as [-> | Hne]; [| auto].
    exfalso. apply Hnotin. apply list_elem_of_In.
    change k with (fst (k, n)). apply in_map. exact Hin.
Qed.

(** An entry of the counter holds the number of occurrences of its key. *)
Lemma FreqDist_entry tokens k n :
  In (k, n) (FreqDist tokens) -> n = occurrences tokens k.
Proof.
  intros Hin. rewrite <- counter_get_FreqDist. symmetry.
  apply counter_get_In; [apply FreqDist_NoDup | exact Hin].
Qed.

Lemma pair_columns {A B C} (f : A -> B) (g : A -> C) t (l : list (B * C)) :
  map f t = map fst l -> map g t = map snd l -> map (fun r => (f r, g r)) t = l.
Proof.
  revert l; induction t as [| r t IH]; intros [| [b c] l]; simpl; try discriminate;
    [reflexivity |].
  intros [= -> Hf] [= -> Hg]. f_equal. apply IH; assumption.
Qed.

Lemma map_eq_Forall {A B} (f g : A -> B) l :
  map f l = map g l -> Forall (fun x => f x = g x) l.
Proof.
  induction l as [| x l IH]; simpl; intros Heq; constructor.
  - congruence.
  - apply IH. congruence.
Qed.

End CounterCounts.

Module QuitaColumns.
Import Quita QuitaTheory.

Section Columns.
Context {F : Type} `{Float64 F} `{NLTK}.

(** X1.  The table of a token list, row by row: the frequency of a type is the
    number of its occurrences, it is at least one, the probability is the
    frequency over the number of tokens; the frequencies stand in
    descending order and add up to the number of tokens. *)
Theorem getTypeData_frequencies (tokenList : list string) (typeData : list (row (F:=F))) :
  getTypeData tokenList = Ok typeData ->
  let N := Z.of_nat (length tokenList) in
  zsum (map freq typeData) = N
  /\ desc (map freq typeData)
  /\ Forall (fun r => freq r = occurrences tokenList (type r)
                      /\ 1 <= freq r
                      /\ prob r = fdiv (of_Z (freq r)) (of_Z N)) typeData.
Proof.
  intros Ht N.
  destruct (getTypeData_columns _ _ Ht) as (_ & Htype & Hfreq & Hprob & _).
  cbv zeta in Hprob.
  split; [rewrite Hfreq; apply sorted_counts_sum |].
  split; [rewrite Hfreq; apply sort_values_desc_sorted |].
  pose proof (pair_columns type freq typeData _ Htype Hfreq) as Hpairs.
  assert (Forall (fun r => 1 <= freq r) typeData) as Hpos.
  { apply Forall_map. rewrite Hfreq. apply sorted_counts_positive. }
  assert (Forall (fun r => prob r = fdiv (of_Z (freq r)) (of_Z N)) typeData) as Hp.
  { apply map_eq_Forall. rewrite Hprob, <- Hfreq, map_map.
    rewrite FreqDist_sum. reflexivity. }
  rewrite List.Forall_forall in *. intros r Hr.
  split; [| split; [apply Hpos, Hr | apply Hp, Hr]].
  apply FreqDist_entry.
  apply (Permutation_in _ (sort_values_desc_perm (FreqDist tokenList))).
  rewrite <- Hpairs. apply (in_map (fun r => (type r, freq r))). exact Hr.
Qed.

End Columns.
End QuitaColumns.

(** ** Ranges of the indices, in exact arithmetic *)

Section SquareSums.

Lemma sumsq_cons f fs : sumsq (f :: fs) = f * f + sumsq fs.
Proof. unfold sumsq. cbn [map]. apply zsum_cons. Qed.

Lemma sumsq_nil : sumsq [] = 0.
Proof. reflexivity. Qed.

Lemma sumsq_nonneg fs : 0 <= sumsq fs.
Proof.
  induction fs as [| f fs IH]; [rewrite sumsq_nil; lia |].
  rewrite sumsq_cons. nia.
Qed.

Lemma zsum_nonneg fs : Forall (fun f => 1 <= f) fs -> 0 <= zsum fs.
Proof.
  induction 1 as [| f fs Hf _ IH]; [rewrite zsum_nil; lia |].
  rewrite zsum_cons. lia.
Qed.

(** The squares add up to the square of the sum at most. *)
Lemma sumsq_le_square fs :
  Forall (fun f => 1 <= f) fs -> sumsq fs <= zsum fs * zsum fs.
Proof.
  induction 1 as [| f fs Hf Hall IH]; [rewrite sumsq_nil, zsum_nil; lia |].
  pose proof (zsum_nonneg fs Hall).
  rewrite sumsq_cons, zsum_cons. nia.
Qed.

(** The inequality of Cauchy and Schwarz against the constant column. *)
Lemma square_le_sumsq fs :
  zsum fs * zsum fs <= Z.of_nat (length fs) * sumsq fs.
Proof.
  induction fs as [| f fs IH]; [rewrite sumsq_nil, zsum_nil; simpl; lia |].
  pose proof (sumsq_nonneg fs) as Hsq.
  rewrite sumsq_cons, zsum_cons. cbn [length]. rewrite Nat2Z.inj_succ.
  set (n := Z.of_nat (length fs)) in *. set (s1 := zsum fs) in *.
  set (s2 := sumsq fs) in *.
  assert (0 <= n) as Hn by (subst n; lia).
  clearbody n s1 s2.
  assert (0 <= s2 + n * (f * f) - 2 * s1 * f) as Hmid.
  { destruct (Z.eq_dec n 0) as [-> | Hnz].
    - assert (s1 = 0) by nia. subst s1. lia.
    - assert (0 <= n * (s2 + n * (f * f) - 2 * s1 * f)) as Hprod.
      { replace (n * (s2 + n * (f * f) - 2 * s1 * f))
          with ((n * s2 - s1 * s1) + (s1 - n * f) * (s1 - n * f)) by ring.
        pose proof (Z.square_nonneg (s1 - n * f)). lia. }
      nia. }
  replace ((f + s1) * (f + s1)) with (s1 * s1 + (2 * s1 * f + f * f)) by ring.
  replace (Z.succ n * (f * f + s2)) with (n * s2 + (s2 + n * (f * f) + f * f)) by ring.
  lia.
Qed.

End SquareSums.

Module QuitaRanges.
Import Quita QuitaTheory.
Local Open Scope Q_scope.

Section Ranges.
Context `{NLTK}.

Lemma inject_Z_pos z : (0 < z)%Z -> 0 < inject_Z z.
Proof. intros Hz. rewrite <- (Zlt_Qlt 0). exact Hz. Qed.

Lemma Qdiv_le_div a b c d : 0 < b -> 0 < d -> a * d <= c * b -> a / b <= c / d.
Proof.
  intros Hb Hd Hle.
  assert (~ d == 0) as Hnz by (intros Hz; rewrite Hz in Hd; apply (Qlt_irrefl 0 Hd)).
  apply Qle_shift_div_r; [exact Hb |].
  assert (c / d * b == c * b / d) as -> by (field; exact Hnz).
  apply Qle_shift_div_l; assumption.
Qed.

Lemma count_true_map_le {A} (p : A -> bool) l :
  (count_true (map p l) <= Z.of_nat (length l))%Z.
Proof.
  pose proof (count_true_bounds (map p l)) as Hb. rewrite length_map in Hb. lia.
Qed.

(** X2.  The type-token ratio and the share of hapax legomena of a well-formed
    table: [0 <= HL <= TTR <= 1], and [TTR] is positive. *)
Theorem getTTR_getHL_range (self : QuitaText (F:=Q)) :
  well_formed self ->
  exists ttr hl,
    getTTR self = Ok (PyFloat ttr)
    /\ getHL self = Ok (PyFloat hl)
    /\ 0 <= hl /\ hl <= ttr /\ 0 < ttr /\ ttr <= 1.
Proof.
  intros (HV & Hpos & _ & _ & HtypeNum & HtokenNum).
  pose proof (QuitaExact.zsum_ge_length _ Hpos) as HN.
  set (fs := map freq (typeData self)) in *.
  assert (0 < tokenNum self)%Z as HNpos by lia.
  unfold getTTR, getHL, truediv. cbn [is_np orb is_zero].
  destruct (Z.eqb_spec (tokenNum self) 0) as [Hz | _]; [lia |].
  fold fs. cbn [to_F].
  eexists. eexists. split; [reflexivity |]. split; [reflexivity |].
  pose proof (count_true_bounds (map (fun f => (f =? 1)%Z) fs)) as [Hc0 _].
  pose proof (count_true_map_le (fun f => (f =? 1)%Z) fs) as Hc1.
  set (c := count_true (map (fun f => (f =? 1)%Z) fs)) in *. clearbody c.
  pose proof (inject_Z_pos _ HNpos) as HNq.
  change (of_Z (F:=Q)) with inject_Z. change (fdiv (F:=Q)) with Qdiv.
  repeat split.
  - apply Qle_shift_div_l; [exact HNq |]. rewrite Qmult_0_l, <- (Zle_Qle 0). exact Hc0.
  - apply Qle_shift_div_l; [exact HNq |].
    unfold Qdiv. rewrite <- Qmult_assoc, (Qmult_comm (/ _)), Qmult_inv_r, Qmult_1_r.
    + rewrite <- Zle_Qle. lia.
    + intros Hz. rewrite Hz in HNq. apply (Qlt_irrefl 0 HNq).
  - apply Qlt_shift_div_l; [exact HNq |]. rewrite Qmult_0_l. apply inject_Z_pos. lia.
  - apply Qle_shift_div_r; [exact HNq |]. rewrite Qmult_1_l, <- Zle_Qle. lia.
Qed.

Lemma np_sum_squares total fs :
  (0 < total)%Z ->
  np_sum (map (fun p => fmul p p) (probabilities total fs))
  == inject_Z (sumsq fs) / (inject_Z total * inject_Z total).
Proof.
  intros Htotal. pose proof (inject_Z_pos _ Htotal) as Hq.
  assert (~ inject_Z total == 0) as Hnz
    by (intros Hz; rewrite Hz in Hq; apply (Qlt_irrefl 0 Hq)).
  induction fs as [| f fs IH].
  - unfold np_sum; simpl. rewrite sumsq_nil. change (inject_Z 0) with 0. field. exact Hnz.
  - unfold probabilities in *. cbn [map]. rewrite QuitaExact.np_sum_cons, IH, sumsq_cons.
    rewrite inject_Z_plus, inject_Z_mult. change (fmul (F:=Q)) with Qmult.
    field. exact Hnz.
Qed.

(** X3.  The repeat rate of the table of a text that holds a token lies
    between [1 / V] and [1]. *)
Theorem getRR_range text (self : QuitaText (F:=Q)) :
  init text = Ok self ->
  tokenList self <> [] ->
  exists rr,
    getRR self = Ok (NpFloat rr)
    /\ 1 / inject_Z (typeNum self) <= rr /\ rr <= 1.
Proof.
  intros Hinit Hne.
  destruct (init_well_formed _ _ Hinit Hne) as (HV & Hpos & _ & _ & HtypeNum & _).
  destruct (init_Ok _ _ Hinit) as (_ & _ & _ & Ht & _ & _).
  destruct (getTypeData_columns _ _ Ht) as (_ & _ & Hfreq & Hprob & _).
  cbv zeta in Hprob. rewrite Hfreq in HV, Hpos, HtypeNum.
  set (fs := counts (sort_values_desc (FreqDist (tokenList self)))) in *.
  set (total := zsum (counts (FreqDist (tokenList self)))) in *.
  change (map (fun freq => fdiv (of_Z freq) (of_Z total)) fs)
    with (probabilities total fs) in Hprob.
  assert (total = zsum fs) as Htotal
    by (apply zsum_perm, Permutation_map; symmetry; apply sort_values_desc_perm).
  pose proof (QuitaExact.zsum_ge_length _ Hpos) as HN.
  assert (0 < total)%Z as Hgt by lia.
  unfold getRR. rewrite Hprob. eexists. split; [reflexivity |].
  rewrite np_sum_squares by exact Hgt. rewrite HtypeNum.
  pose proof (sumsq_le_square fs Hpos) as Hup.
  pose proof (square_le_sumsq fs) as Hlow.
  rewrite <- Htotal in Hup, Hlow.
  set (V := Z.of_nat (length fs)) in *. set (s2 := sumsq fs) in *.
  clearbody V s2 total.
  pose proof (inject_Z_pos _ Hgt) as Hq.
  assert (0 < inject_Z V) as HVq by (apply inject_Z_pos; lia).
  assert (0 < inject_Z total * inject_Z total) as Hqq by (apply Qmult_lt_0_compat; assumption).
  split.
  - apply Qdiv_le_div; [exact HVq | exact Hqq |].
    rewrite Qmult_1_l, <- !inject_Z_mult, <- Zle_Qle. lia.
  - apply Qle_shift_div_r; [exact Hqq |].
    rewrite Qmult_1_l, <- inject_Z_mult, <- Zle_Qle. exact Hup.
Qed.

End Ranges.
End QuitaRanges.

(** ** Verbs, adjectives and verb distances *)

Section GapFacts.

Lemma gaps_sum a l d : zsum (gaps (a :: l)) = List.last (a :: l) d - a.
Proof.
  revert a; induction l as [| b l IH]; intros a.
  - cbn. lia.
  - change (gaps (a :: b :: l)) with ((b - a) :: gaps (b :: l)).
    rewrite zsum_cons, (IH b).
    change (List.last (a :: b :: l) d) with (List.last (b :: l) d). lia.
Qed.

Lemma gaps_length a l : length (gaps (a :: l)) = length l.
Proof.
  revert a; induction l as [| b l IH]; intros a; [reflexivity |].
  change (gaps (a :: b :: l)) with ((b - a) :: gaps (b :: l)).
  cbn [length]. rewrite (IH b). reflexivity.
Qed.

(** The positions [np.where] returns grow by one at least. *)
Lemma np_where_from_span j mask :
  match np_where_from j mask with
  | [] => True
  | x :: l => (j <= x /\ x + length l <= List.last (x :: l) 0)%nat
  end.
Proof.
  revert j; induction mask as [| b mask IH]; intros j; [exact I |].
  specialize (IH (S j)). destruct b; cbn [np_where_from].
  - destruct (np_where_from (S j) mask) as [| y l].
    + cbn. lia.
    + change (List.last (j :: y :: l) 0%nat) with (List.last (y :: l) 0%nat).
      cbn [length]. lia.
  - destruct (np_where_from (S j) mask) as [| y l]; [exact I | lia].
Qed.

Lemma last_map {A B} (f : A -> B) l d : List.last (map f l) (f d) = f (List.last l d).
Proof.
  induction l as [| a l IH]; [reflexivity |].
  destruct l as [| b l]; [reflexivity |].
  change (List.last (map f (a :: b :: l)) (f d)) with (List.last (map f (b :: l)) (f d)).
  rewrite IH. reflexivity.
Qed.

End GapFacts.

Section RaiseFacts.
Context {F : Type}.

(** An assignment whose right-hand side raises ends the run. *)
Lemma assign_all_Raise wrap es1 key x es2 (m : dict F) :
  exists e, assign_all wrap (es1 ++ (key, Raise x) :: es2) m = Raise e.
Proof.
  rewrite assign_all_app.
  destruct (assign_all wrap es1 m) as [m1 | e]; [exists x | exists e]; reflexivity.
Qed.

(** Assignments whose right-hand sides all return leave a mapping. *)
Lemma assign_all_Ok wrap es (m : dict F) :
  Forall (fun entry => exists v, snd entry = Ok v) es ->
  exists m', assign_all wrap es m = Ok m'.
Proof.
  intros Hall. revert m; induction Hall as [| [key e] es [v Hv] _ IH]; intros m.
  - exists m. reflexivity.
  - simpl in Hv. subst e. simpl. apply IH.
Qed.

End RaiseFacts.

Module QuitaFaults.
Import Quita QuitaTheory.

Section Faults.
Context {F : Type} `{Float64 F} `{Libm F} `{NLTK}.

(** A call raises as soon as one of the indices does. *)
Lemma getQuitaFeature_Raise text (h : heap F) self es1 key x es2 :
  init text = Ok self ->
  quita_entries self = es1 ++ (key, Raise x) :: es2 ->
  exists e, getQuitaFeature text h = Raise e.
Proof.
  intros Hinit Hes. rewrite Aggregators.getQuitaFeature_run, Hinit, Hes.
  destruct (assign_all_Raise PyNum es1 key x es2 ∅) as [e ->]. exists e. reflexivity.
Qed.

(** X4.  A text without verb and without adjective: the activity divides zero
    by zero, and so does the descriptivity; no profile is returned. *)
Theorem no_verb_no_adjective (self : QuitaText (F:=F)) verbs adjs :
  mapM isVerb (tokenList self) = Ok verbs ->
  mapM isAdjective (tokenList self) = Ok adjs ->
  count_true verbs + count_true adjs = 0 ->
  getActivity self = Raise ZeroDivisionError
  /\ getDescriptivity self = Raise ZeroDivisionError
  /\ forall text h, init text = Ok self -> exists e, getQuitaFeature text h = Raise e.
Proof.
  intros Hverbs Hadjs Hzero.
  assert (getActivity self = Raise ZeroDivisionError) as HQ.
  { unfold getActivity. rewrite Hverbs, Hadjs. cbn [bind add arith].
    unfold truediv. cbn [is_np orb is_zero]. rewrite Hzero. reflexivity. }
  split; [exact HQ |]. split; [unfold getDescriptivity; rewrite HQ; reflexivity |].
  intros text h Hinit.
  apply (getQuitaFeature_Raise text h self (firstn 8 (quita_entries self)) "Q"
           ZeroDivisionError (skipn 9 (quita_entries self)) Hinit).
  unfold quita_entries. rewrite HQ. reflexivity.
Qed.

(** X5.  A table of one type: the curve has no segment and its length is the
    integer [0].  When the type occurs once the curve length indicator
    divides zero by zero; when it occurs more often the h-point finds no
    second rank.  No profile is returned. *)
Theorem single_type_text (self : QuitaText (F:=F)) :
  well_formed self ->
  typeNum self = 1 ->
  getCurveLen self None = Ok (PyInt 0)
  /\ getCLI self
     = Raise (if tokenNum self =? 1 then ZeroDivisionError else IndexError)
  /\ forall text h, init text = Ok self -> exists e, getQuitaFeature text h = Raise e.
Proof.
  intros (_ & Hpos & _ & Hrank & HtypeNum & HtokenNum) HV.
  rewrite HV in HtypeNum.
  destruct (typeData self) as [| r [| r' t]] eqn:Htd; cbn [map length] in *;
    [lia | | lia].
  change (range 1 (Z.of_nat 1 + 1)) with [1] in Hrank. injection Hrank as Hrank.
  apply Forall_cons_iff in Hpos as [Hf _].
  rewrite zsum_cons, zsum_nil, Z.add_0_r in HtokenNum.
  assert (getCurveLen self None = Ok (PyInt 0)) as HCL.
  { unfold getCurveLen. rewrite HV. reflexivity. }
  assert (getCLI self
          = Raise (if tokenNum self =? 1 then ZeroDivisionError else IndexError)) as HCLI.
  { unfold getCLI, getHPoint, isExactHPoint. rewrite Htd. cbn [map zip_with].
    rewrite Hrank, HtokenNum. unfold count_true. cbn [List.filter].
    destruct (Z.eqb_spec (freq r) 1) as [Hone | Hmore].
    - cbn [List.filter length Z.of_nat Z.gtb Z.compare np_where np_where_from item0 bind].
      cbn [py_int bind]. rewrite HCL.
      replace (getCurveLen self (Some (Z.of_nat 0 + 1 - 1))) with (Ok (PyInt 0) : result (number F))
        by reflexivity.
      reflexivity.
    - cbn [List.filter length Z.of_nat Z.gtb Z.compare].
      destruct (Z.gtb_spec (freq r) 1) as [_ | Hle]; [| lia].
      cbn [List.filter length Z.of_nat Z.add Pos.add map Z.eqb Pos.eqb np_take item0 bind].
      reflexivity. }
  split; [exact HCL |]. split; [exact HCLI |].
  intros text h Hinit.
  apply (getQuitaFeature_Raise text h self (firstn 11 (quita_entries self)) "R"
           (if tokenNum self =? 1 then ZeroDivisionError else IndexError)
           (skipn 12 (quita_entries self)) Hinit).
  unfold quita_entries. rewrite HCLI. reflexivity.
Qed.

End Faults.
End QuitaFaults.

Module QuitaVerbs.
Import Quita QuitaTheory.
Local Open Scope Q_scope.

Section Verbs.
Context `{NLTK}.

Lemma np_sum_inject_Z l : np_sum (map inject_Z l) == inject_Z (zsum l).
Proof.
  induction l as [| x l IH].
  - reflexivity.
  - cbn [map]. rewrite QuitaExact.np_sum_cons, IH, zsum_cons, inject_Z_plus. reflexivity.
Qed.

(** X6.  With a verb or an adjective the activity is the share of the verbs
    among the two, and the descriptivity is what is left of [1]. *)
Theorem getActivity_range (self : QuitaText (F:=Q)) verbs adjs :
  mapM isVerb (tokenList self) = Ok verbs ->
  mapM isAdjective (tokenList self) = Ok adjs ->
  (0 < count_true verbs + count_true adjs)%Z ->
  exists q d,
    getActivity self = Ok (PyFloat q)
    /\ getDescriptivity self = Ok (PyFloat d)
    /\ q == inject_Z (count_true verbs) / inject_Z (count_true verbs + count_true adjs)
    /\ 0 <= q /\ q <= 1 /\ q + d == 1.
Proof.
  intros Hverbs Hadjs Hsome.
  pose proof (count_true_bounds verbs) as [Hv _].
  pose proof (count_true_bounds adjs) as [Ha _].
  assert (getActivity self
          = Ok (PyFloat (inject_Z (count_true verbs)
                         / inject_Z (count_true verbs + count_true adjs)))) as HQ.
  { unfold getActivity. rewrite Hverbs, Hadjs. cbn [bind add arith].
    unfold truediv. cbn [is_np orb is_zero].
    destruct (Z.eqb_spec (count_true verbs + count_true adjs) 0); [lia | reflexivity]. }
  eexists. eexists. split; [exact HQ |].
  split; [unfold getDescriptivity; rewrite HQ; reflexivity |].
  split; [reflexivity |].
  set (v := count_true verbs) in *. set (a := count_true adjs) in *. clearbody v a.
  assert (0 < inject_Z (v + a)) as Hq by (rewrite <- (Zlt_Qlt 0); exact Hsome).
  cbn [to_F]. change (fsub (F:=Q)) with Qminus. change (of_Z (F:=Q) 1) with 1.
  split; [| split].
  - apply Qle_shift_div_l; [exact Hq |]. rewrite Qmult_0_l, <- (Zle_Qle 0). exact Hv.
  - apply Qle_shift_div_r; [exact Hq |]. rewrite Qmult_1_l, <- Zle_Qle. lia.
  - ring.
Qed.

(** X7.  With two verbs or more the verb distance is the span from the first
    verb to the last over the number of gaps, and it is [1] at least. *)
Theorem getVerbDist_span (self : QuitaText (F:=Q)) verbs :
  mapM isVerb (tokenList self) = Ok verbs ->
  let verbIndex := np_where verbs in
  (2 <= length verbIndex)%nat ->
  exists vd,
    getVerbDist self = Ok (NpFloat vd)
    /\ vd == inject_Z (Z.of_nat (List.last verbIndex 0%nat) - Z.of_nat (hd 0%nat verbIndex))
             / inject_Z (Z.of_nat (length verbIndex) - 1)
    /\ 1 <= vd.
Proof.
  intros Hverbs verbIndex Hlen.
  unfold getVerbDist. rewrite Hverbs. cbn [bind]. fold verbIndex.
  eexists. split; [reflexivity |].
  pose proof (np_where_from_span 0 verbs) as Hspan. fold (np_where verbs) in Hspan.
  fold verbIndex in Hspan.
  destruct verbIndex as [| first rest]; [simpl in Hlen; lia |].
  destruct Hspan as [_ Hspan]. cbn [length] in Hlen.
  cbn [map hd]. unfold np_average.
  rewrite length_map, gaps_length, length_map.
  change (fdiv (F:=Q)) with Qdiv. change (of_Z (F:=Q)) with inject_Z.
  rewrite np_sum_inject_Z.
  change (Z.of_nat first :: map Z.of_nat rest) with (map Z.of_nat (first :: rest)).
  cbn [map]. rewrite (gaps_sum (Z.of_nat first) (map Z.of_nat rest) (Z.of_nat 0)).
  change (Z.of_nat first :: map Z.of_nat rest) with (map Z.of_nat (first :: rest)).
  rewrite last_map.
  cbn [length]. replace (Z.of_nat (S (length rest)) - 1)%Z with (Z.of_nat (length rest)) by lia.
  split; [reflexivity |].
  apply Qle_shift_div_l; [rewrite <- (Zlt_Qlt 0); lia |].
  rewrite Qmult_1_l, <- Zle_Qle. lia.
Qed.

End Verbs.
End QuitaVerbs.

(** ** The domain of the h-point *)

Section PrefixMask.

Lemma desc_tail_le f fs : desc (f :: fs) -> Forall (fun x => x <= f) fs.
Proof. intros Hs. apply StronglySorted_inv in Hs as [_ Hall]. exact Hall. Qed.

Lemma desc_tail f fs : desc (f :: fs) -> desc fs.
Proof. intros Hs. apply StronglySorted_inv in Hs as [Hs _]. exact Hs. Qed.

(** Descending frequencies against ascending ranks: the frequencies that
    exceed their rank are the first ones. *)
Lemma gt_mask_prefix fs : forall k,
  desc fs ->
  forall i x, fs !! i = Some x ->
    (x >? k + Z.of_nat i)
    = (Z.of_nat i <? count_true (zip_with Z.gtb fs (range k (k + Z.of_nat (length fs))))).
Proof.
  induction fs as [| f fs IH]; intros k Hdesc i x Hx; [discriminate |].
  rewrite range_cons by (cbn [length]; lia). cbn [zip_with]. rewrite count_true_cons.
  replace (k + Z.of_nat (length (f :: fs))) with (k + 1 + Z.of_nat (length fs))
    by (cbn [length]; lia).
  pose proof (IH (k + 1) (desc_tail _ _ Hdesc)) as IH'.
  pose proof (count_true_bounds (zip_with Z.gtb fs (range (k + 1) (k + 1 + Z.of_nat (length fs)))))
    as [Hc0 _].
  set (c := count_true _) in *.
  destruct (Z.gtb_spec f k) as [Hgt | Hle].
  - destruct i as [| i]; cbn in Hx.
    + injection Hx as <-. destruct (Z.gtb_spec f (k + Z.of_nat 0)); [| lia].
      destruct (Z.ltb_spec (Z.of_nat 0) (1 + c)); [reflexivity | lia].
    + rewrite (Nat2Z.inj_succ i).
      replace (k + Z.succ (Z.of_nat i)) with (k + 1 + Z.of_nat i) by lia.
      rewrite (IH' i x Hx).
      destruct (Z.ltb_spec (Z.of_nat i) c), (Z.ltb_spec (Z.succ (Z.of_nat i)) (1 + c));
        try reflexivity; lia.
  - assert (c = 0) as Hc.
    { destruct fs as [| y fs']; [reflexivity |].
      pose proof (IH' 0%nat y eq_refl) as H0.
      pose proof (desc_tail_le _ _ Hdesc) as Hall. apply Forall_cons_iff in Hall as [Hy _].
      destruct (Z.gtb_spec y (k + 1 + Z.of_nat 0)); [lia |].
      destruct (Z.ltb_spec (Z.of_nat 0) c); [discriminate | lia]. }
    rewrite Hc.
    assert (x <= f) as Hxf.
    { destruct i as [| i]; cbn in Hx; [injection Hx as <-; lia |].
      pose proof (desc_tail_le _ _ Hdesc) as Hall. rewrite List.Forall_forall in Hall.
      apply Hall. apply list_elem_of_In. eapply list_elem_of_lookup_2. exact Hx. }
    destruct (Z.gtb_spec x (k + Z.of_nat i)); [lia |].
    destruct (Z.ltb_spec (Z.of_nat i) (0 + 0)); [lia | reflexivity].
Qed.

Lemma count_true_zero mask i b :
  count_true mask = 0 -> mask !! i = Some b -> b = false.
Proof.
  revert i; induction mask as [| b' mask IH]; intros i; [discriminate |].
  rewrite count_true_cons. pose proof (count_true_bounds mask) as [Hc _].
  intros Hz. destruct i as [| i]; cbn.
  - intros [= <-]. destruct b'; [lia | reflexivity].
  - apply IH. destruct b'; lia.
Qed.

Lemma last_lookup_total (l : list Z) d :
  l <> [] -> l !! (length l - 1)%nat = Some (List.last l d).
Proof.
  induction l as [| a l IH]; [congruence |]. intros _.
  destruct l as [| b l]; [reflexivity |].
  change (List.last (a :: b :: l) d) with (List.last (b :: l) d).
  rewrite <- IH by discriminate. cbn [length]. 
  replace (S (S (length l)) - 1)%nat with (S (S (length l) - 1)) by lia. reflexivity.
Qed.

End PrefixMask.

Module QuitaHPoint.
Import Quita QuitaTheory.

Section Interpolation.
Context `{NLTK}.

Lemma interpolation_between (r1 f1 f2 : Z) :
  r1 < f1 -> f2 <= r1 ->
  let h := (inject_Z (f1 * (r1 + 1) - f2 * r1) / inject_Z (r1 + 1 - r1 + f1 - f2))%Q in
  (inject_Z r1 < h /\ h < inject_Z r1 + 1)%Q.
Proof.
  intros Hf1 Hf2 h. subst h.
  assert (0 < inject_Z (r1 + 1 - r1 + f1 - f2))%Q as Hden by (rewrite <- (Zlt_Qlt 0); lia).
  split.
  - apply Qlt_shift_div_l; [exact Hden |]. rewrite <- inject_Z_mult, <- Zlt_Qlt. nia.
  - apply Qlt_shift_div_r; [exact Hden |].
    change 1%Q with (inject_Z 1). rewrite <- inject_Z_plus, <- inject_Z_mult, <- Zlt_Qlt. nia.
Qed.

(** X8.  On a well-formed table [getHPoint] returns exactly when the least
    frequency is [V] at most; the value lies between [1] and [V], and an
    interpolated value lies strictly between the two ranks it is taken
    from.  When the least frequency exceeds [V] the call raises. *)
Theorem getHPoint_domain (self : QuitaText (F:=Q)) :
  well_formed self ->
  let fs := map freq (typeData self) in
  let V := typeNum self in
  let r1 := count_true (zip_with Z.gtb fs (range 1 (V + 1))) in
  if List.last fs 0 <=? V
  then exists h,
         getHPoint self = Ok h
         /\ (1 <= to_F h)%Q /\ (to_F h <= inject_Z V)%Q
         /\ (isExactHPoint self = false ->
             (inject_Z r1 < to_F h)%Q /\ (to_F h < inject_Z r1 + 1)%Q)
  else getHPoint self = Raise IndexError.
Proof.
  intros (HV & Hpos & Hdesc & Hrank & HtypeNum & _) fs V r1.
  fold fs in HV, Hpos, Hdesc, Hrank, HtypeNum.
  assert (V = Z.of_nat (length fs)) as HVlen by exact HtypeNum.
  rewrite <- HVlen in HV, Hrank.
  assert (fs <> []) as Hne by (intros Hnil; rewrite Hnil in HVlen; simpl in HVlen; lia).
  pose proof (last_lookup_total fs 0%Z Hne) as Hlast.
  assert (forall i x, fs !! i = Some x -> (x >? 1 + Z.of_nat i) = (Z.of_nat i <? r1))
    as Hprefix.
  { intros i x Hx. rewrite (gt_mask_prefix fs 1 Hdesc i x Hx).
    unfold r1. rewrite HVlen. do 4 f_equal. lia. }
  pose proof (count_true_bounds (zip_with Z.gtb fs (range 1 (V + 1)))) as Hr1.
  rewrite (QuitaIndices.mask_length Z.gtb fs V (eq_sym HVlen)) in Hr1. fold r1 in Hr1.
  rewrite <- HVlen in Hr1.
  pose proof (Hprefix _ _ Hlast) as HlastV.
  replace (1 + Z.of_nat (length fs - 1)) with V in HlastV by lia.
  unfold getHPoint.
  destruct (isExactHPoint self) eqn:Hexact.
  - (* an exact h-point *)
    unfold isExactHPoint in Hexact. rewrite Hrank in *. fold fs in Hexact |- *.
    apply Z.gtb_lt in Hexact.
    set (mask := zip_with Z.eqb fs (range 1 (V + 1))) in *.
    unfold np_where. destruct (np_where_from 0 mask) as [| j rest] eqn:Hwhere.
    { pose proof (np_where_from_length 0 mask) as Hlen.
      rewrite Hwhere in Hlen. simpl in Hlen. lia. }
    destruct (np_where_from_head _ _ _ _ Hwhere) as (k & -> & Hk & _).
    destruct (QuitaIndices.mask_lookup Z.eqb fs V k true (eq_sym HVlen) Hk) as (x & Hx & Heq).
    symmetry in Heq. apply Z.eqb_eq in Heq. subst x.
    apply lookup_lt_Some in Hx as Hlt.
    assert (List.last fs 0 <= V) as Hsmall.
    { destruct (Z.gtb_spec (List.last fs 0%Z) V) as [Hgt | Hle]; [| exact Hle].
      symmetry in HlastV. apply Z.ltb_lt in HlastV.
      assert (Z.of_nat k < r1) as Hkr by lia.
      pose proof (Hprefix k _ Hx) as Hk1.
      apply Z.ltb_lt in Hkr. rewrite Hkr in Hk1. apply Z.gtb_lt in Hk1. lia. }
    apply Z.leb_le in Hsmall. rewrite Hsmall.
    eexists. cbn [item0 bind]. split; [reflexivity |]. cbn [to_F].
    change (of_Z (F:=Q)) with inject_Z. change 1%Q with (inject_Z 1).
    rewrite <- !Zle_Qle. split; [lia |]. split; [lia | discriminate].
  - (* no exact h-point *)
    unfold isExactHPoint in Hexact. rewrite Hrank in Hexact. fold fs in Hexact.
    assert (count_true (zip_with Z.eqb fs (range 1 (V + 1))) = 0) as Hnone.
    { pose proof (count_true_bounds (zip_with Z.eqb fs (range 1 (V + 1)))) as [H0 _].
      destruct (Z.gtb_spec (count_true (zip_with Z.eqb fs (range 1 (V + 1)))) 0);
        [discriminate | lia]. }
    assert (forall i x, fs !! i = Some x -> x <> 1 + Z.of_nat i) as Hneq.
    { intros i x Hx Heq.
      assert (zip_with Z.eqb fs (range 1 (V + 1)) !! i = Some true) as Hm.
      { rewrite lookup_zip_with, Hx. cbn.
        apply lookup_lt_Some in Hx as Hi. rewrite range_lookup by lia. cbn.
        f_equal. apply Z.eqb_eq. lia. }
      pose proof (count_true_zero _ _ _ Hnone Hm). discriminate. }
    rewrite Hrank. fold fs. fold r1.
    replace (V + 1) with (1 + Z.of_nat (length fs)) by lia.
    rewrite !np_take_rank. rewrite <- HVlen.
    (* the first frequency exceeds the first rank *)
    assert (1 <= r1) as Hlo.
    { destruct (lookup_lt_is_Some_2 fs 0%nat) as [f0 Hf0]; [lia |].
      pose proof (Hprefix 0%nat f0 Hf0) as H0.
      assert (1 <= f0) as Hf0pos.
      { rewrite List.Forall_forall in Hpos. apply Hpos. apply list_elem_of_In.
        eapply list_elem_of_lookup_2. exact Hf0. }
      pose proof (Hneq 0%nat f0 Hf0) as Hn0.
      destruct (Z.gtb_spec f0 (1 + Z.of_nat 0)); [| lia].
      symmetry in H0. apply Z.ltb_lt in H0. lia. }
    destruct (Z.leb_spec 1 r1) as [_ | ?]; [| lia]. cbn [andb].
    destruct (Z.ltb_spec r1 (1 + V)) as [_ | ?]; [| lia].
    destruct (Z.leb_spec 1 (r1 + 1)) as [_ | ?]; [| lia]. cbn [andb].
    destruct (lookup_lt_is_Some_2 fs (Z.to_nat (r1 - 1))) as [f1 Hf1]; [lia |].
    rewrite Hf1. cbn [item0 bind].
    destruct (Z.leb_spec (List.last fs 0%Z) V) as [Hsmall | Hbig].
    + (* the least frequency is V at most: r1 < V *)
      assert (r1 < V) as Hhi.
      { destruct (Z.gtb_spec (List.last fs 0%Z) V); [lia |].
        symmetry in HlastV. apply Z.ltb_ge in HlastV. lia. }
      destruct (Z.ltb_spec (r1 + 1) (1 + V)) as [_ | ?]; [| lia].
      replace (Z.to_nat (r1 + 1 - 1)) with (Z.to_nat r1) by lia.
      destruct (lookup_lt_is_Some_2 fs (Z.to_nat r1)) as [f2 Hf2]; [lia |].
      rewrite Hf2. cbn [item0 bind].
      pose proof (Hprefix _ _ Hf1) as Hp1. pose proof (Hprefix _ _ Hf2) as Hp2.
      pose proof (Hneq _ _ Hf2) as Hn2.
      rewrite Z2Nat.id in Hp1, Hp2, Hn2 by lia.
      destruct (Z.ltb_spec (r1 - 1) r1) as [_ | ?]; [| lia]. apply Z.gtb_lt in Hp1.
      destruct (Z.ltb_spec r1 r1) as [? | _]; [lia |].
      destruct (Z.gtb_spec f2 (1 + r1)) as [? | Hle2]; [discriminate |].
      eexists. split; [reflexivity |]. cbn [to_F].
      change (fdiv (F:=Q)) with Qdiv.
      change (to_F (sub (mul (NpInt f1) (NpInt (r1 + 1))) (mul (NpInt f2) (NpInt r1))))
        with (inject_Z (f1 * (r1 + 1) - f2 * r1)).
      change (to_F (sub (add (sub (NpInt (r1 + 1)) (NpInt r1)) (NpInt f1)) (NpInt f2)))
        with (inject_Z (r1 + 1 - r1 + f1 - f2)).
      destruct (interpolation_between r1 f1 f2) as [Hlt1 Hlt2]; [lia | lia |].
      cbv zeta in Hlt1, Hlt2.
      set (h := (inject_Z (f1 * (r1 + 1) - f2 * r1) / inject_Z (r1 + 1 - r1 + f1 - f2))%Q)
        in *. clearbody h.
      assert (1 <= inject_Z r1)%Q as Hr1q
        by (change 1%Q with (inject_Z 1); rewrite <- Zle_Qle; lia).
      assert (inject_Z r1 + 1 <= inject_Z V)%Q as HrV.
      { change 1%Q with (inject_Z 1). rewrite <- inject_Z_plus, <- Zle_Qle. lia. }
      split; [lra |]. split; [lra |]. intros _. split; assumption.
    + (* every frequency exceeds its rank *)
      assert (r1 = V) as HrV.
      { destruct (Z.gtb_spec (List.last fs 0%Z) V); [| lia].
        symmetry in HlastV. apply Z.ltb_lt in HlastV. lia. }
      destruct (Z.ltb_spec (r1 + 1) (1 + V)) as [? | _]; [lia |]. reflexivity.
Qed.

End Interpolation.
End QuitaHPoint.

(** ** The Biber features on a text that holds a token *)

Section MaskFacts.

(** Two masks that never hold at the same place count the length at
    most. *)
Lemma count_true_disjoint {A} (p q : A -> bool) l :
  (forall a, p a && q a = false) ->
  count_true (map p l) + count_true (map q l) <= Z.of_nat (length l).
Proof.
  intros Hpq. induction l as [| a l IH]; [unfold count_true; simpl; lia |].
  cbn [map length]. rewrite !count_true_cons, Nat2Z.inj_succ.
  specialize (Hpq a). destruct (p a), (q a); try discriminate; lia.
Qed.

Lemma FreqDist_length tokens :
  tokens <> [] ->
  (1 <= length (FreqDist tokens) <= length tokens)%nat.
Proof.
  intros Hne. split.
  - pose proof (FreqDist_nonempty tokens Hne).
    destruct (FreqDist tokens); [congruence | cbn; lia].
  - pose proof (QuitaExact.zsum_ge_length _ (FreqDist_positive tokens)) as Hle.
    rewrite FreqDist_sum in Hle. unfold counts in Hle. rewrite length_map in Hle. lia.
Qed.

End MaskFacts.

Module BiberReturns.
Import Biber.

Section Returns.
Context {F : Type} `{Float64 F} `{NLTK}.

Lemma truediv_int (a n : Z) :
  n <> 0 -> truediv (PyInt a) (PyInt n) = Ok (PyFloat (F:=F) (fdiv (of_Z a) (of_Z n))).
Proof.
  intros Hn. unfold truediv. cbn [is_np orb is_zero to_F].
  destruct (Z.eqb_spec n 0); [contradiction | reflexivity].
Qed.

(** The average word length is returned whatever the text. *)
Lemma feature_44_returns (self : BiberText) : exists x, feature_44 self = Ok (NpFloat x).
Proof.
  unfold feature_44.
  destruct (QuitaCleaning.sub_Ok "[0-9]" "" (rawText self)) as (r1 & _ & ->);
    [vm_compute; reflexivity |]. cbn [bind].
  destruct (QuitaCleaning.sub_Ok "'s|'m|'t" "" (Re.sub_scan r1 "" (rawText self) 0))
    as (r2 & _ & ->); [vm_compute; reflexivity |]. cbn [bind].
  unfold Re.findall.
  destruct (Re.compile "\w+") as [r |] eqn:Hr; [| vm_compute in Hr; discriminate].
  cbn [bind]. eexists. reflexivity.
Qed.

Ltac head_of t := lazymatch t with ?f _ => head_of f | _ => t end.

(** Unfold the feature at the head of the goal, evaluate its counts and
    divide. *)
Ltac feature_returns HN :=
  lazymatch goal with
  | |- exists v, ?e = Ok v => let f := head_of e in unfold f; cbv zeta
  end;
  repeat (rewrite BiberTheory.count_Ok by (vm_compute; reflexivity); cbn [bind]);
  lazymatch goal with
  | |- exists v, per_1000 _ _ = Ok v =>
      eexists; apply BiberTheory.per_1000_value; exact HN
  | |- exists v, truediv (PyInt _) (PyInt _) = Ok v =>
      eexists; apply truediv_int; exact HN
  end.

(** With a token every feature returns: every pattern compiles and every
    division has a divisor other than zero. *)
Lemma biber_entries_return (self : BiberText) :
  tokenNum self <> 0 ->
  Forall (fun entry => exists v, snd entry = Ok v) (biber_entries (F:=F) self).
Proof.
  intros HN. unfold biber_entries.
  repeat (constructor;
          [ cbn [snd];
            first [ feature_returns HN
                  | destruct (feature_44_returns self) as [x ->]; eexists; reflexivity ]
          | ]).
  constructor.
Qed.

(** X9.  [getBiberFeature] returns a profile for every text that holds a
    token. *)
Theorem getBiberFeature_returns text (h : heap F) :
  word_tokenize text <> [] ->
  exists l h', getBiberFeature text h = Ok (l, h').
Proof.
  intros Hne. rewrite BiberTheory.getBiberFeature_run.
  destruct (assign_all_Ok one_float (biber_entries (init text)) ∅) as [m ->].
  - apply biber_entries_return. unfold init. cbn [tokenNum].
    destruct (word_tokenize text); [congruence | cbn [length]; lia].
  - eexists. eexists. reflexivity.
Qed.

End Returns.

Section Rates.
Context `{NLTK}.

(** X10.  The rates of the past and of the present tense and the type-token
    ratio of a text that holds a token, for a tagger that keeps the
    length of its input: the two rates are positive or zero and add up to
    [1000] at most, and the ratio lies in [(0, 1]]. *)
Theorem tense_rates_and_ratio text :
  (forall tokens, length (pos_tag tokens) = length tokens) ->
  word_tokenize text <> [] ->
  exists past present ratio : Q,
    feature_01 (init text) = Ok (PyFloat past)
    /\ feature_03 (init text) = Ok (PyFloat present)
    /\ feature_43 (init text) = Ok (PyFloat ratio)
    /\ (0 <= past)%Q /\ (0 <= present)%Q /\ (past + present <= 1000)%Q
    /\ (0 < ratio)%Q /\ (ratio <= 1)%Q.
Proof.
  intros Htag Hne.
  set (tokens := word_tokenize text) in *.
  assert (tokenNum (init text) = Z.of_nat (length tokens)) as HN by reflexivity.
  assert (0 < Z.of_nat (length tokens)) as Hpos
    by (destruct tokens; [congruence | cbn [length]; lia]).
  assert (tokenNum (init text) <> 0) as HN0 by lia.
  set (tags := tagList (init text)).
  assert (length tags = length tokens) as Htags
    by (unfold tags, init; cbn [tagList]; rewrite length_map; apply Htag).
  set (past := count_true (map (fun pos => String.eqb pos "VBD") tags)).
  set (present := count_true (map (fun pos => existsb (String.eqb pos) ["VBP"; "VBZ"]) tags)).
  assert (past + present <= Z.of_nat (length tokens)) as Hsum.
  { rewrite <- Htags. apply count_true_disjoint. intros pos.
    destruct (String.eqb_spec pos "VBD") as [-> | _]; reflexivity. }
  pose proof (count_true_bounds (map (fun pos => String.eqb pos "VBD") tags)) as [Hp0 _].
  pose proof (count_true_bounds
                (map (fun pos => existsb (String.eqb pos) ["VBP"; "VBZ"]) tags)) as [Hq0 _].
  fold past in Hp0. fold present in Hq0.
  pose proof (FreqDist_length tokens Hne) as [HV1 HVN].
  exists (inject_Z (1000 * past) / inject_Z (Z.of_nat (length tokens)))%Q,
         (inject_Z (1000 * present) / inject_Z (Z.of_nat (length tokens)))%Q,
         (inject_Z (typeNum (init text)) / inject_Z (Z.of_nat (length tokens)))%Q.
  split; [unfold feature_01; rewrite (BiberTheory.per_1000_value _ _ HN0), HN; reflexivity |].
  split; [unfold feature_03; rewrite (BiberTheory.per_1000_value _ _ HN0), HN; reflexivity |].
  split; [unfold feature_43; rewrite (truediv_int _ _ HN0), HN; reflexivity |].
  assert (typeNum (init text) = Z.of_nat (length (FreqDist tokens))) as HV
    by (unfold init; cbn [typeNum]; rewrite length_map; reflexivity).
  rewrite HV.
  set (N := Z.of_nat (length tokens)) in *. set (V := Z.of_nat (length (FreqDist tokens))) in *.
  assert (1 <= V <= N) as HVrange by lia.
  clearbody N V past present.
  assert (0 < inject_Z N)%Q as HNq by (rewrite <- (Zlt_Qlt 0); lia).
  assert (~ inject_Z N == 0)%Q as Hnz
    by (intros Hz; rewrite Hz in HNq; apply (Qlt_irrefl 0 HNq)).
  repeat split.
  - apply Qle_shift_div_l; [exact HNq |]. rewrite Qmult_0_l, <- (Zle_Qle 0). lia.
  - apply Qle_shift_div_l; [exact HNq |]. rewrite Qmult_0_l, <- (Zle_Qle 0). lia.
  - assert (inject_Z (1000 * past) / inject_Z N + inject_Z (1000 * present) / inject_Z N
            == inject_Z (1000 * (past + present)) / inject_Z N)%Q as ->.
    { rewrite !inject_Z_mult, inject_Z_plus. field. exact Hnz. }
    apply Qle_shift_div_r; [exact HNq |].
    change 1000%Q with (inject_Z 1000). rewrite <- inject_Z_mult, <- Zle_Qle. lia.
  - apply Qlt_shift_div_l; [exact HNq |]. rewrite Qmult_0_l, <- (Zlt_Qlt 0). lia.
  - apply Qle_shift_div_r; [exact HNq |]. rewrite Qmult_1_l, <- Zle_Qle. lia.
Qed.

End Rates.
End BiberReturns.

(** ** Matches that start with a blank, and runs of word characters *)

Module ReScans.
Import Re.

Lemma orelse_Some a b rest : orelse a b = Some rest -> a = Some rest \/ b = Some rest.
Proof. destruct a; simpl; auto. Qed.

(** A match of a pattern that leads with [c] starts at a [c]. *)
Lemma leads_head c r : forall s k rest,
  leads c r = true -> matchk r s k = Some rest -> exists s', s = String c s'.
Proof.
  induction r as [| c' | | | ranges | r1 IH1 r2 IH2 | r1 IH1 r2 IH2 | r IH lo hi greedy];
    intros s k rest Hlead Hmatch; try discriminate.
  - simpl in Hlead. apply Ascii.eqb_eq in Hlead as ->.
    destruct s as [| a s']; [discriminate |]. simpl in Hmatch.
    destruct (Ascii.eqb_spec c a) as [-> | _]; [eauto | discriminate].
  - simpl in Hlead, Hmatch. exact (IH1 _ _ _ Hlead Hmatch).
  - simpl in Hlead, Hmatch. apply andb_true_iff in Hlead as [H1 H2].
    apply orelse_Some in Hmatch as [Hm | Hm]; eauto.
Qed.

Lemma blanks_nonneg s : 0 <= blanks s.
Proof. induction s as [| a s IH]; simpl; [lia | destruct (Ascii.eqb a " "); lia]. Qed.

(** The scan finds one match per blank at most. *)
Lemma findall_scan_blanks r s : forall skip,
  leads " " r = true ->
  Z.of_nat (length (findall_scan r s skip)) <= blanks s.
Proof.
  induction s as [| a s IH]; intros skip Hlead.
  - destruct skip; simpl; [| lia].
    unfold match_len, match_at.
    destruct (matchk r "" Some) as [rest |] eqn:Hm; simpl; [| lia].
    destruct (leads_head _ _ _ _ _ Hlead Hm) as [s' Hs]. discriminate.
  - pose proof (blanks_nonneg s) as Hs.
    destruct skip as [| skip]; cbn [findall_scan blanks].
    + unfold match_len, match_at.
      destruct (matchk r (String a s) Some) as [rest |] eqn:Hm.
      * destruct (leads_head _ _ _ _ _ Hlead Hm) as [s' [= -> _]].
        cbn [length]. rewrite Nat2Z.inj_succ.
        match goal with
        | |- context [findall_scan r s ?k] => specialize (IH k Hlead)
        end.
        change (Ascii.eqb " " " ") with true. cbv iota. lia.
      * specialize (IH O Hlead). destruct (Ascii.eqb a " "); lia.
    + specialize (IH skip Hlead). destruct (Ascii.eqb a " "); lia.
Qed.

Lemma count_matches_blanks pattern text :
  blank_led pattern = true ->
  0 <= count_matches pattern text <= blanks text.
Proof.
  unfold blank_led, count_matches.
  destruct (compile pattern) as [r |]; [| discriminate].
  intros Hlead. split; [lia | apply findall_scan_blanks; exact Hlead].
Qed.

Lemma match_at_word s :
  match_at (Rep Word 1 None true) s = word_loop (String.length s) 0 s.
Proof. reflexivity. Qed.

Lemma word_loop_shorter fuel : forall count s rest,
  word_loop fuel count s = Some rest ->
  (String.length rest <= String.length s)%nat
  /\ (count = O -> (String.length rest < String.length s)%nat).
Proof.
  induction fuel as [| fuel IH]; intros count s rest.
  - destruct count; [discriminate |]. intros [= <-]. split; [lia | discriminate].
  - cbn [word_loop]. cbv zeta. intros Hm. apply orelse_Some in Hm as [Hm | Hm].
    + destruct s as [| a s']; [discriminate |].
      destruct (isword a); [| discriminate].
      destruct (String.length s' <? String.length (String a s'))%nat; [| discriminate].
      apply IH in Hm as [Hle _]. cbn [String.length]. split; [lia | intros _; lia].
    + destruct count; [discriminate |]. injection Hm as <-. split; [lia | discriminate].
Qed.

(** A run of word characters: a match of [\w+] leaves less than it was
    given. *)
Lemma word_run_shorter s rest :
  match_at (Rep Word 1 None true) s = Some rest ->
  (String.length rest < String.length s)%nat.
Proof.
  rewrite match_at_word. intros Hm.
  apply word_loop_shorter in Hm as [_ Hlt]. apply Hlt. reflexivity.
Qed.

Lemma take_length n s : (n <= String.length s)%nat -> String.length (take n s) = n.
Proof.
  revert n; induction s as [| a s IH]; intros [| n]; simpl; try lia.
  intros Hn. rewrite IH by lia. reflexivity.
Qed.

(** Every token [\w+] finds holds a character. *)
Lemma findall_scan_word s : forall skip,
  Forall (fun token => (1 <= String.length token)%nat)
         (findall_scan (Rep Word 1 None true) s skip).
Proof.
  induction s as [| a s IH]; intros skip.
  - destruct skip; cbn [findall_scan]; [| constructor].
    unfold match_len. destruct (match_at _ "") as [rest |] eqn:Hm; [| constructor].
    apply word_run_shorter in Hm. simpl in Hm. lia.
  - destruct skip as [| skip]; cbn [findall_scan]; [| apply IH].
    unfold match_len. destruct (match_at _ (String a s)) as [rest |] eqn:Hm; [| apply IH].
    apply word_run_shorter in Hm. constructor; [| apply IH].
    rewrite take_length by lia. lia.
Qed.

End ReScans.

(** ** Token lengths, and the token no pattern sees *)

Module QuitaTokens.
Import Quita QuitaTheory.

Section Tokens.
Context `{NLTK}.

(** X11.  Every token of a text holds a character, and the average token
    length of a text that holds a token is [1] at least. *)
Theorem getATL_at_least_one text (self : QuitaText (F:=Q)) :
  init text = Ok self ->
  tokenList self <> [] ->
  Forall (fun token => (1 <= String.length token)%nat) (tokenList self)
  /\ exists atl, getATL self = Ok (NpFloat atl) /\ (1 <= atl)%Q.
Proof.
  intros Hinit Hne.
  destruct (init_Ok _ _ Hinit) as (cleaned & _ & Htok & _).
  unfold regexp_tokenize, Re.findall in Htok.
  change (Re.compile "\w+") with (Ok (Re.Rep Re.Word 1 None true)) in Htok.
  cbn [bind] in Htok. injection Htok as Htok.
  assert (Forall (fun token => (1 <= String.length token)%nat) (tokenList self)) as Hlen
    by (rewrite <- Htok; apply ReScans.findall_scan_word).
  split; [exact Hlen |].
  unfold getATL. eexists. split; [reflexivity |].
  unfold np_average. rewrite length_map.
  change (fdiv (F:=Q)) with Qdiv. change (of_Z (F:=Q)) with inject_Z.
  rewrite <- (map_map (fun i => Z.of_nat (String.length i)) inject_Z).
  rewrite QuitaVerbs.np_sum_inject_Z.
  assert (Z.of_nat (length (tokenList self))
          <= zsum (map (fun i => Z.of_nat (String.length i)) (tokenList self))) as Hsum.
  { rewrite <- (length_map (fun i => Z.of_nat (String.length i))).
    apply QuitaExact.zsum_ge_length. apply Forall_map.
    eapply List.Forall_impl; [| exact Hlen]. cbv beta. intros token Ht. lia. }
  assert (0 < Z.of_nat (length (tokenList self))) as Hpos
    by (destruct (tokenList self); [congruence | cbn [length]; lia]).
  apply Qle_shift_div_l; [rewrite <- (Zlt_Qlt 0); exact Hpos |].
  rewrite Qmult_1_l, <- Zle_Qle. exact Hsum.
Qed.

End Tokens.
End QuitaTokens.

Module BiberBlanks.
Import Biber.

Lemma lower_char_blank c : Ascii.eqb (lower_char c) " " = Ascii.eqb c " ".
Proof. destruct c as [[] [] [] [] [] [] [] []]; reflexivity. Qed.

Lemma blanks_lower s : blanks (lower s) = blanks s.
Proof.
  induction s as [| c s IH]; [reflexivity |].
  cbn [lower blanks]. rewrite lower_char_blank, IH. reflexivity.
Qed.

Lemma blanks_app s t : blanks (s +:+ t) = blanks s + blanks t.
Proof.
  induction s as [| c s IH]; [reflexivity |].
  simpl. rewrite IH. lia.
Qed.

(** Words without blanks, joined by blanks. *)
Lemma blanks_join l :
  Forall (fun word => blanks word = 0) l ->
  blanks (join " " l) = Z.of_nat (length l) - match l with [] => 0 | _ => 1 end.
Proof.
  induction 1 as [| x l Hx Hall IH]; [reflexivity |].
  destruct l as [| y l].
  - cbn. lia.
  - change (join " " (x :: y :: l)) with (x +:+ " " +:+ join " " (y :: l)).
    rewrite !blanks_app, IH, Hx. cbn [length blanks]. change (Ascii.eqb " " " ") with true.
    cbv iota. lia.
Qed.

Section Blanks.
Context {F : Type} `{Float64 F} `{NLTK}.

(** The tagged text of [n] tokens without blanks holds [n - 1] blanks. *)
Lemma posTag_blanks text :
  Forall (fun i => blanks (fst i) = 0 /\ blanks (snd i) = 0)
         (pos_tag (word_tokenize text)) ->
  pos_tag (word_tokenize text) <> [] ->
  blanks (posTag text) = Z.of_nat (length (pos_tag (word_tokenize text))) - 1.
Proof.
  intros Hall Hne. unfold posTag. rewrite blanks_join.
  - rewrite length_map. destruct (pos_tag (word_tokenize text)); [congruence | reflexivity].
  - apply Forall_map. eapply List.Forall_impl; [| exact Hall]. cbv beta.
    intros i [Hw Ht]. rewrite !blanks_app, blanks_lower, Hw, Ht. reflexivity.
Qed.

Ltac head_of t := lazymatch t with ?f _ => head_of f | _ => t end.

(** A feature of one pattern counts one match per blank at most. *)
Lemma one_pattern_features_blanks (self : BiberText) :
  tokenNum self <> 0 ->
  Forall (fun feature =>
            exists c,
              feature self
              = Ok (PyFloat (fdiv (of_Z (1000 * c)) (of_Z (tokenNum self))))
              /\ 0 <= c <= blanks (taggedText self))
         (one_pattern_features (F:=F)).
Proof.
  intros HN. unfold one_pattern_features.
  repeat (constructor;
          [ lazymatch goal with
            | |- exists c, ?e = _ /\ _ => let f := head_of e in unfold f; cbv zeta
            end;
            rewrite BiberTheory.count_Ok by (vm_compute; reflexivity); cbn [bind];
            lazymatch goal with
            | |- exists c, per_1000 (count_matches ?p ?t) _ = _ /\ _ =>
                exists (count_matches p t); split;
                [ apply BiberTheory.per_1000_value; exact HN
                | apply ReScans.count_matches_blanks; vm_compute; reflexivity ]
            end
          | ]).
  constructor.
Qed.

(** X12.  The patterns of these features start with the blank that separates
    two tokens of the tagged text, and the tagged text starts with none:
    the first token is never counted.  For a tokenizer and a tagger that
    put no blank in a token or a tag, a text of [N] tokens has [N - 1]
    matches at most. *)
Theorem first_token_not_counted text :
  let tagged := pos_tag (word_tokenize text) in
  length tagged = length (word_tokenize text) ->
  Forall (fun i => blanks (fst i) = 0 /\ blanks (snd i) = 0) tagged ->
  word_tokenize text <> [] ->
  let N := tokenNum (init text) in
  Forall (fun feature =>
            exists c,
              feature (init text) = Ok (PyFloat (fdiv (of_Z (1000 * c)) (of_Z N)))
              /\ 0 <= c <= N - 1)
         (one_pattern_features (F:=F)).
Proof.
  intros tagged Hlen Hall Hne N.
  assert (N = Z.of_nat (length (word_tokenize text))) as HN by reflexivity.
  assert (N <> 0) as HN0
    by (rewrite HN; destruct (word_tokenize text); [congruence | cbn [length]; lia]).
  assert (blanks (taggedText (init text)) = N - 1) as Hblanks.
  { change (taggedText (init text)) with (posTag text).
    rewrite posTag_blanks; [fold tagged; lia | exact Hall |].
    fold tagged. intros Hnil. rewrite Hnil in Hlen. simpl in Hlen. lia. }
  pose proof (one_pattern_features_blanks (init text) HN0) as Hfeatures.
  rewrite Hblanks in Hfeatures. exact Hfeatures.
Qed.

End Blanks.
End BiberBlanks.

(** ** The ranks the secondary thematic concentration reads *)

Section LoopFacts.

Lemma mapM_In_Raise {A B} (f : A -> result B) l x e :
  In x l -> f x = Raise e -> exists e', mapM f l = Raise e'.
Proof.
  induction l as [| a l IH]; [intros [] |].
  intros [-> | Hin] Hx; cbn [mapM].
  - rewrite Hx. exists e. reflexivity.
  - destruct (f a) as [b | e0]; [| exists e0; reflexivity]. cbn [bind].
    destruct (IH Hin Hx) as [e' ->]. exists e'. reflexivity.
Qed.

Lemma range_In a b x : a <= x < b -> In x (range a b).
Proof.
  intros Hx. unfold range. apply in_map_iff. exists (Z.to_nat (x - a)).
  split; [lia |]. apply in_seq. lia.
Qed.

Lemma at_label_out {A} (column : list A) i :
  Z.of_nat (length column) <= i -> at_label column i = Raise KeyError.
Proof.
  intros Hi. unfold at_label. destruct (Z.ltb_spec i 0); [reflexivity |].
  destruct (nth_error column (Z.to_nat i)) eqn:Hnth; [| reflexivity].
  assert (nth_error column (Z.to_nat i) <> None) as Hsome by congruence.
  apply nth_error_Some in Hsome. lia.
Qed.

End LoopFacts.

Module QuitaThemes.
Import Quita QuitaTheory.

Section Themes.
Context {F : Type} `{Float64 F} `{Libm F} `{NLTK}.

(** X13.  [getSTC] reads the rows from [int(h)] to [2 * int(h) - 1]: on a table
    of fewer types it asks for a row that is not there and raises, and no
    profile is returned. *)
Theorem getSTC_out_of_table (self : QuitaText (F:=F)) h ih :
  getHPoint self = Ok h ->
  py_int h = Ok ih ->
  let V := Z.of_nat (length (typeData self)) in
  ih - 1 <= V ->
  V < 2 * ih - 1 ->
  (exists e, getSTC self = Raise e)
  /\ forall text h0, init text = Ok self -> exists e, getQuitaFeature text h0 = Raise e.
Proof.
  intros Hh Hih V Hlo Hhi.
  assert (exists e, getSTC self = Raise e) as [e HSTC].
  { unfold getSTC. rewrite Hh. cbn [bind]. rewrite Hih. cbn [bind].
    destruct (mapM_In_Raise (TC_at self h) (range (ih - 1) (2 * ih - 1)) V KeyError)
      as [e' ->].
    - apply range_In. lia.
    - unfold TC_at. rewrite at_label_out; [reflexivity |]. rewrite length_map. fold V. lia.
    - exists e'. reflexivity. }
  split; [exists e; exact HSTC |].
  intros text h0 Hinit.
  apply (QuitaFaults.getQuitaFeature_Raise text h0 self (firstn 7 (quita_entries self)) "STC"
           e (skipn 8 (quita_entries self)) Hinit).
  unfold quita_entries. rewrite HSTC. reflexivity.
Qed.

End Themes.
End QuitaThemes.

(** ** The signs of the thematic concentrations *)

Section SumSigns.

Lemma mapM_concat_Forall {A B} (f : A -> result (list B)) (P : B -> Prop) l ls :
  (forall x y, In x l -> f x = Ok y -> Forall P y) ->
  mapM f l = Ok ls -> Forall P (concat ls).
Proof.
  revert ls; induction l as [| a l IH]; intros ls Hf; cbn [mapM].
  - intros [= <-]. constructor.
  - destruct (f a) as [y |] eqn:Hy; [| discriminate]. cbn [bind].
    destruct (mapM f l) as [ys |]; [| discriminate]. cbn [bind]. intros [= <-].
    cbn [concat]. apply Forall_app. split.
    + apply (Hf a y); [left; reflexivity | exact Hy].
    + apply IH; [| reflexivity]. intros x y' Hin. apply Hf. right. exact Hin.
Qed.

Lemma np_sum_nonneg (l : list Q) : Forall (fun x => 0 <= x)%Q l -> (0 <= np_sum l)%Q.
Proof.
  induction 1 as [| x l Hx _ IH]; [apply Qle_refl |].
  rewrite QuitaExact.np_sum_cons. lra.
Qed.

Lemma np_sum_nonpos (l : list Q) : Forall (fun x => x <= 0)%Q l -> (np_sum l <= 0)%Q.
Proof.
  induction 1 as [| x l Hx _ IH]; [apply Qle_refl |].
  rewrite QuitaExact.np_sum_cons. lra.
Qed.

Lemma at_label_Ok {A} (column : list A) i x :
  at_label column i = Ok x -> 0 <= i /\ column !! Z.to_nat i = Some x.
Proof.
  unfold at_label. destruct (Z.ltb_spec i 0); [discriminate |].
  destruct (nth_error column (Z.to_nat i)) as [y |] eqn:Hnth; [| discriminate].
  intros [= <-]. split; [assumption |].
  rewrite <- Hnth. clear. generalize (Z.to_nat i). intros n.
  revert n; induction column as [| a column IH]; intros [| n]; simpl; auto.
Qed.

End SumSigns.

Module QuitaThemeSigns.
Import Quita QuitaTheory.

Section Signs.
Context `{NLTK}.

(** The term a row adds to [TCList] when the h-point is the rank [r]:
    positive or zero above the h-point, negative or zero from it on. *)
Lemma TC_at_sign (self : QuitaText (F:=Q)) r i terms :
  well_formed self -> 2 <= r ->
  TC_at self (NpInt r) i = Ok terms ->
  Forall (fun t => (i + 1 <= r -> (0 <= to_F t)%Q) /\ (r <= i + 1 -> (to_F t <= 0)%Q)) terms.
Proof.
  intros (_ & Hpos & _ & Hrank & _ & _) Hr. unfold TC_at.
  destruct (at_label (map type (typeData self)) i) as [word |]; [| discriminate]. cbn [bind].
  destruct (isFunctionWord word) as [fw |]; [| discriminate]. cbn [bind].
  destruct fw; cbn [negb]; [intros [= <-]; constructor |].
  destruct (at_label (map freq (typeData self)) 0) as [f1 |] eqn:Hf1; [| discriminate].
  cbn [bind].
  destruct (at_label (map freq (typeData self)) i) as [f |] eqn:Hf; [| discriminate].
  cbn [bind].
  destruct (at_label (map rank (typeData self)) i) as [k |] eqn:Hk; [| discriminate].
  cbn [bind]. intros [= <-]. constructor; [| constructor].
  apply at_label_Ok in Hf1 as [_ Hf1]. apply at_label_Ok in Hf as [Hi Hf].
  apply at_label_Ok in Hk as [_ Hk].
  rewrite List.Forall_forall in Hpos.
  assert (1 <= f1) as Hf1pos
    by (apply Hpos, list_elem_of_In; eapply list_elem_of_lookup_2; exact Hf1).
  assert (1 <= f) as Hfpos
    by (apply Hpos, list_elem_of_In; eapply list_elem_of_lookup_2; exact Hf).
  assert (k = i + 1) as ->.
  { rewrite Hrank in Hk. apply lookup_lt_Some in Hk as Hlt. rewrite range_length in Hlt.
    rewrite range_lookup in Hk by lia. injection Hk as <-. lia. }
  change (to_F (F:=Q) _) with (inject_Z (2 * ((r - (i + 1)) * f)) / inject_Z (r * (r - 1) * f1))%Q.
  assert (0 < inject_Z (r * (r - 1) * f1))%Q as Hden by (rewrite <- (Zlt_Qlt 0); nia).
  split; intros Hside.
  - apply Qle_shift_div_l; [exact Hden |]. rewrite Qmult_0_l, <- (Zle_Qle 0). nia.
  - apply Qle_shift_div_r; [exact Hden |]. rewrite Qmult_0_l, <- (Zle_Qle _ 0). nia.
Qed.

(** X14.  With an exact h-point [r >= 2], in exact arithmetic: the thematic
    concentration is never negative, and the secondary thematic
    concentration, which weighs the rows from [r] on by [h - rank] as
    well, is never positive. *)
Theorem thematic_concentration_signs (self : QuitaText (F:=Q)) r :
  well_formed self ->
  getHPoint self = Ok (NpInt r) ->
  2 <= r ->
  (forall tc, getTC self = Ok tc -> (0 <= to_F tc)%Q)
  /\ (forall stc, getSTC self = Ok stc -> (to_F stc <= 0)%Q).
Proof.
  intros Hwf Hh Hr. split.
  - intros tc. unfold getTC. rewrite Hh. cbn [bind py_int].
    destruct (mapM (TC_at self (NpInt r)) (range 0 (r - 1))) as [TCList |] eqn:Hloop;
      [| discriminate].
    cbn [bind]. intros [= <-]. cbn [to_F]. apply np_sum_nonneg. apply Forall_map.
    apply (mapM_concat_Forall _ (fun t => (0 <= to_F t)%Q) _ _) in Hloop; [exact Hloop |].
    intros i terms Hin Hterms. apply in_map_iff in Hin as (n & <- & Hn). apply in_seq in Hn.
    pose proof (TC_at_sign self r _ terms Hwf Hr Hterms) as Hsign.
    eapply List.Forall_impl; [| exact Hsign]. cbv beta. intros t [Hup _]. apply Hup. lia.
  - intros stc. unfold getSTC. rewrite Hh. cbn [bind py_int].
    destruct (mapM (TC_at self (NpInt r)) (range (r - 1) (2 * r - 1))) as [TCList |] eqn:Hloop;
      [| discriminate].
    cbn [bind]. intros [= <-]. cbn [to_F]. apply np_sum_nonpos. apply Forall_map.
    apply (mapM_concat_Forall _ (fun t => (to_F t <= 0)%Q) _ _) in Hloop; [exact Hloop |].
    intros i terms Hin Hterms. apply in_map_iff in Hin as (n & <- & Hn).
    pose proof (TC_at_sign self r _ terms Hwf Hr Hterms) as Hsign.
    eapply List.Forall_impl; [| exact Hsign]. cbv beta. intros t [_ Hdown]. apply Hdown. lia.
Qed.

End Signs.
End QuitaThemeSigns.

(** ** When the QUITA aggregator returns *)

Section KindFacts.
Context {F : Type} `{Float64 F}.

Lemma truediv_np (a b : number F) :
  is_np a || is_np b = true -> truediv a b = Ok (NpFloat (fdiv (to_F a) (to_F b))).
Proof. intros Hnp. unfold truediv. rewrite Hnp. reflexivity. Qed.

Lemma arith_np fz ff (a b : number F) :
  is_np a || is_np b = true -> is_np (arith fz ff a b) = true.
Proof. destruct a, b; simpl; intros Hnp; first [reflexivity | discriminate]. Qed.

(** A loop whose steps return, returns; what every step establishes
    holds at the end of a loop of one step at least. *)
Lemma foldM_Ok {A B} (f : B -> A -> result B) (P : B -> Prop) l : forall b,
  (forall b a, In a l -> exists b', f b a = Ok b' /\ P b') ->
  exists b', foldM f l b = Ok b' /\ (l <> [] -> P b').
Proof.
  induction l as [| a l IH]; intros b Hf; cbn [foldM].
  - exists b. split; [reflexivity | congruence].
  - destruct (Hf b a (or_introl eq_refl)) as (b1 & -> & Hb1). cbn [bind].
    destruct (IH b1) as (b' & Hb' & HP); [intros; apply Hf; right; assumption |].
    exists b'. split; [exact Hb' |]. intros _.
    destruct l as [| a' l]; [| apply HP; discriminate].
    cbn [foldM] in Hb'. injection Hb' as <-. exact Hb1.
Qed.

Lemma mapM_Ok {A B} (f : A -> result B) l :
  (forall x, In x l -> exists y, f x = Ok y) -> exists ys, mapM f l = Ok ys.
Proof.
  induction l as [| a l IH]; intros Hf; cbn [mapM]; [eexists; reflexivity |].
  destruct (Hf a (or_introl eq_refl)) as [y ->]. cbn [bind].
  destruct IH as [ys ->]; [intros; apply Hf; right; assumption |].
  eexists. reflexivity.
Qed.

Lemma at_label_in {A} (column : list A) i :
  0 <= i < Z.of_nat (length column) -> exists x, at_label column i = Ok x.
Proof.
  intros Hi. unfold at_label. destruct (Z.ltb_spec i 0); [lia |].
  destruct (nth_error column (Z.to_nat i)) as [x |] eqn:Hnth; [exists x; reflexivity |].
  apply nth_error_None in Hnth. lia.
Qed.

(** [a[rank == k]] holds one element when [k] is a rank and none
    otherwise. *)
Lemma np_take_rank_length {A} (a : list A) k : forall s,
  length (np_take a (map (fun x => x =? k) (range s (s + Z.of_nat (length a)))))
  = if (s <=? k) && (k <? s + Z.of_nat (length a)) then 1%nat else 0%nat.
Proof.
  induction a as [| x a IH]; intros s.
  - cbn [np_take length]. destruct (Z.leb_spec s k), (Z.ltb_spec k (s + Z.of_nat 0));
      cbn [andb]; first [reflexivity | lia].
  - rewrite range_cons by (cbn [length]; lia). cbn [map np_take].
    replace (s + Z.of_nat (length (x :: a))) with (s + 1 + Z.of_nat (length a))
      by (cbn [length]; lia).
    specialize (IH (s + 1)).
    destruct (Z.eqb_spec s k) as [-> | Hne]; cbn [length]; rewrite IH.
    + destruct (Z.leb_spec (k + 1) k); [lia |]. cbn [andb].
      destruct (Z.leb_spec k k); [| lia].
      destruct (Z.ltb_spec k (k + 1 + Z.of_nat (length a))); [reflexivity | lia].
    + destruct (Z.leb_spec (s + 1) k), (Z.leb_spec s k); try lia; cbn [andb]; reflexivity.
Qed.

End KindFacts.

Module QuitaReturns.
Import Quita QuitaTheory.

Section Returns.
Context {F : Type} `{Float64 F} `{Libm F} `{NLTK}.

Lemma getHPoint_np (self : QuitaText (F:=F)) h : getHPoint self = Ok h -> is_np h = true.
Proof.
  unfold getHPoint. destruct (isExactHPoint self).
  - destruct (item0 _); [| discriminate]. intros [= <-]. reflexivity.
  - cbv zeta. destruct (item0 _); [| discriminate]. cbn [bind].
    destruct (item0 _); [| discriminate]. cbn [bind].
    rewrite truediv_np by reflexivity. intros [= <-]. reflexivity.
Qed.

Section Indices.
Variable self : QuitaText (F:=F).
Variables (h : number F) (ih : Z) (verbs adjs : list bool).
Hypothesis Hwf : well_formed self.
Hypothesis Htag : forall word, exists tag, tag_of word = Ok tag.
Hypothesis Hh : getHPoint self = Ok h.
Hypothesis Hih : py_int h = Ok ih.
Hypothesis Hih1 : 1 <= ih.
Hypothesis HihV : 2 * ih - 1 <= typeNum self.
Hypothesis HV2 : 2 <= typeNum self.
Hypothesis Hverbs : mapM isVerb (tokenList self) = Ok verbs.
Hypothesis Hadjs : mapM isAdjective (tokenList self) = Ok adjs.
Hypothesis Hsome : 0 < count_true verbs + count_true adjs.

Lemma columns_length :
  Z.of_nat (length (typeData self)) = typeNum self
  /\ map rank (typeData self) = range 1 (1 + Z.of_nat (length (typeData self)))
  /\ 0 < tokenNum self.
Proof using All.
  destruct Hwf as (HV & Hpos & _ & Hrank & HtypeNum & HtokenNum).
  pose proof (QuitaExact.zsum_ge_length _ Hpos) as HN.
  rewrite length_map in *. split; [symmetry; exact HtypeNum |].
  split; [rewrite Hrank; f_equal; lia | lia].
Qed.

Lemma column_at {A} (g : row (F:=F) -> A) i :
  0 <= i < typeNum self -> exists x, at_label (map g (typeData self)) i = Ok x.
Proof using All.
  intros Hi. apply at_label_in. rewrite length_map.
  destruct columns_length as (-> & _). exact Hi.
Qed.

Lemma isFunctionWord_returns word : exists b, isFunctionWord word = Ok b.
Proof using All.
  unfold isFunctionWord. destruct (Htag word) as [tag ->]. eexists. reflexivity.
Qed.

Lemma TC_at_returns i :
  0 <= i < typeNum self -> exists terms, TC_at self h i = Ok terms.
Proof using All.
  intros Hi. unfold TC_at.
  destruct (column_at type i Hi) as [word ->]. cbn [bind].
  destruct (isFunctionWord_returns word) as [fw ->]. cbn [bind].
  destruct fw; cbn [negb]; [eexists; reflexivity |].
  destruct (column_at freq 0) as [f1 ->]; [lia |]. cbn [bind].
  destruct (column_at freq i Hi) as [f ->]. cbn [bind].
  destruct (column_at rank i Hi) as [k ->]. cbn [bind].
  rewrite truediv_np; [eexists; reflexivity |].
  apply orb_true_iff. left. unfold mul. apply arith_np, orb_true_iff. right.
  apply arith_np, orb_true_iff. right. reflexivity.
Qed.

Lemma loop_returns a b :
  0 <= a -> b <= typeNum self ->
  exists TCList, mapM (TC_at self h) (range a b) = Ok TCList.
Proof using All.
  intros Ha Hb. apply mapM_Ok. intros i Hin.
  apply in_map_iff in Hin as (n & <- & Hn). apply in_seq in Hn.
  apply TC_at_returns. lia.
Qed.

Lemma getTC_returns : exists x, getTC self = Ok x.
Proof using All.
  unfold getTC. rewrite Hh. cbn [bind]. rewrite Hih. cbn [bind].
  destruct (loop_returns 0 (ih - 1)) as [TCList ->]; [lia | lia |].
  eexists. reflexivity.
Qed.

Lemma getSTC_returns : exists x, getSTC self = Ok x.
Proof using All.
  unfold getSTC. rewrite Hh. cbn [bind]. rewrite Hih. cbn [bind].
  destruct (loop_returns (ih - 1) (2 * ih - 1)) as [TCList ->]; [lia | lia |].
  eexists. reflexivity.
Qed.

(** The curve over the first [n] rows is returned, as a numpy float as
    soon as it has a segment. *)
Lemma getCurveLen_returns arg :
  let n := match arg with None => typeNum self | Some n => n end in
  n <= typeNum self ->
  exists x, getCurveLen self arg = Ok x /\ (2 <= n -> is_np x = true).
Proof using All.
  intros n Hn. unfold getCurveLen. fold n.
  destruct (foldM_Ok
              (fun euclidLength i =>
                 let* freq1 := at_label (map freq (typeData self)) i in
                 let* freq2 := at_label (map freq (typeData self)) (i + 1) in
                 Ok (add euclidLength
                         (pow_half_num
                            (add (square (sub (NpInt freq1) (NpInt freq2))) (PyInt 1)))))
              (fun x => is_np x = true) (range 0 (n - 1)) (PyInt 0)) as (x & Hx & Hnp).
  - intros b i Hin. apply in_map_iff in Hin as (k & <- & Hk). apply in_seq in Hk.
    destruct (column_at freq (0 + Z.of_nat k)) as [f1 ->]; [lia |]. cbn [bind].
    destruct (column_at freq (0 + Z.of_nat k + 1)) as [f2 ->]; [lia |]. cbn [bind].
    eexists. split; [reflexivity |]. unfold add. apply arith_np, orb_true_iff. right.
    reflexivity.
  - exists x. split; [exact Hx |]. intros Hbig. apply Hnp.
    rewrite range_cons by lia. discriminate.
Qed.

Lemma getTTR_returns : exists x, getTTR self = Ok x.
Proof using All.
  destruct columns_length as (_ & _ & HN). unfold getTTR, truediv. cbn [is_np orb is_zero].
  destruct (Z.eqb_spec (tokenNum self) 0); [lia | eexists; reflexivity].
Qed.

Lemma getVocabRich_returns : exists x, getVocabRich self = Ok x.
Proof using All.
  pose proof (getHPoint_np _ _ Hh) as Hnp.
  destruct columns_length as (HV & Hrank & _).
  assert (forall k, 1 <= k <= typeNum self ->
            length (np_take (map cumProb (typeData self)) (rank_is self k)) = 1%nat) as Hone.
  { intros k Hk. unfold rank_is. rewrite Hrank.
    rewrite <- (length_map cumProb (typeData self)), np_take_rank_length.
    rewrite length_map.
    destruct (Z.leb_spec 1 k); [| lia].
    destruct (Z.ltb_spec k (1 + Z.of_nat (length (typeData self)))); [reflexivity | lia]. }
  assert (exists t, truediv (square h) (mul (PyInt 2) (PyInt (tokenNum self))) = Ok t)
    as [t Ht].
  { rewrite truediv_np; [eexists; reflexivity |].
    apply orb_true_iff. left. unfold square, mul. apply arith_np. rewrite Hnp. reflexivity. }
  unfold getVocabRich. cbv zeta. rewrite Hh. cbn [bind]. rewrite Hih. cbn [bind].
  rewrite Ht. cbn [bind].
  destruct (isExactHPoint self).
  - pose proof (Hone ih ltac:(lia)) as Hlen.
    destruct (np_take (map cumProb (typeData self)) (rank_is self ih)) as [| c l];
      [discriminate |].
    eexists. reflexivity.
  - rewrite (Hone ih) by lia. rewrite (Hone (ih + 1)) by lia. cbn [Nat.eqb bind].
    eexists. reflexivity.
Qed.

Lemma getActivity_returns : exists q, getActivity self = Ok (PyFloat q).
Proof using All.
  unfold getActivity. rewrite Hverbs, Hadjs. cbn [bind add arith].
  unfold truediv. cbn [is_np orb is_zero].
  destruct (Z.eqb_spec (count_true verbs + count_true adjs) 0); [lia | eexists; reflexivity].
Qed.

Lemma getCLI_returns : exists x, getCLI self = Ok x.
Proof using All.
  unfold getCLI. rewrite Hh. cbn [bind]. rewrite Hih. cbn [bind].
  destruct (getCurveLen_returns (Some (ih - 1))) as (before & -> & _); [cbv zeta; lia |].
  cbn [bind].
  destruct (getCurveLen_returns None) as (all & -> & Hnp); [cbv zeta; lia |]. cbn [bind].
  cbv zeta in Hnp. rewrite truediv_np; [eexists; reflexivity |].
  rewrite (Hnp HV2). apply orb_true_r.
Qed.

Lemma getLambda_returns : exists x, getLambda self = Ok x.
Proof using All.
  unfold getLambda.
  destruct (getCurveLen_returns None) as (euclidLength & -> & _); [cbv zeta; lia |].
  cbn [bind]. rewrite truediv_np; [eexists; reflexivity |].
  apply orb_true_iff. left. unfold mul. apply arith_np, orb_true_r.
Qed.

Lemma getAdjMod_returns : exists x, getAdjMod self = Ok x.
Proof using All.
  pose proof (getHPoint_np _ _ Hh) as Hnp.
  unfold getAdjMod. destruct (column_at freq 0) as [f1 ->]; [lia |]. cbn [bind].
  rewrite Hh. cbn [bind]. rewrite (truediv_np (NpInt f1) h) by reflexivity. cbn [bind].
  rewrite (truediv_np _ h) by (rewrite Hnp; apply orb_true_r). cbn [bind].
  rewrite truediv_np; [eexists; reflexivity | apply orb_true_r].
Qed.

Lemma getGiniCoef_returns : exists x, getGiniCoef self = Ok x.
Proof using All.
  unfold getGiniCoef. cbv zeta. rewrite truediv_np by reflexivity. cbn [bind].
  rewrite truediv_np; [eexists; reflexivity |].
  apply orb_true_iff. left. unfold sub. apply arith_np, orb_true_r.
Qed.

Lemma getHL_returns : exists x, getHL self = Ok x.
Proof using All.
  destruct columns_length as (_ & _ & HN). unfold getHL, truediv. cbn [is_np orb is_zero].
  destruct (Z.eqb_spec (tokenNum self) 0); [lia | eexists; reflexivity].
Qed.

Lemma getAlpha_returns : exists x, getAlpha self = Ok x.
Proof using All.
  pose proof (getHPoint_np _ _ Hh) as Hnp.
  unfold getAlpha. destruct (column_at freq 0) as [f1 ->]; [lia |]. cbn [bind].
  rewrite Hh. cbn [bind]. cbv zeta.
  rewrite truediv_np; [eexists; reflexivity |].
  apply orb_true_iff. left. unfold mul. apply arith_np, orb_true_iff. left.
  unfold sub. apply arith_np. rewrite Hnp. apply orb_true_r.
Qed.

(** Every assignment of the aggregator has a value. *)
Lemma quita_entries_return :
  Forall (fun entry => exists v, snd entry = Ok v) (quita_entries self).
Proof using All.
  unfold quita_entries.
  repeat (constructor; [cbn [snd] |]); try constructor.
  - exact getTTR_returns.
  - exists h. exact Hh.
  - eexists. reflexivity.
  - exact getVocabRich_returns.
  - eexists. reflexivity.
  - unfold getRRmc, getRR. cbn [bind]. rewrite truediv_np by reflexivity. cbn [bind].
    rewrite truediv_np; [eexists; reflexivity |].
    apply orb_true_iff. right. reflexivity.
  - exact getTC_returns.
  - exact getSTC_returns.
  - destruct getActivity_returns as [q ->]. eexists. reflexivity.
  - unfold getDescriptivity. destruct getActivity_returns as [q ->]. eexists. reflexivity.
  - destruct (getCurveLen_returns None) as (x & -> & _); [cbv zeta; lia |].
    eexists. reflexivity.
  - exact getCLI_returns.
  - exact getLambda_returns.
  - exact getAdjMod_returns.
  - exact getGiniCoef_returns.
  - exact getHL_returns.
  - exact getAlpha_returns.
  - unfold getVerbDist. rewrite Hverbs. eexists. reflexivity.
Qed.

End Indices.

(** X15.  A profile is returned for a text of two types at least whose table
    holds the rows up to [2 * int(h) - 1], with a verb or an adjective,
    when the tagger tags every single word and the h-point has an
    integer part that is [1] at least. *)
Theorem getQuitaFeature_returns text (self : QuitaText (F:=F)) h ih verbs adjs
    (store : heap F) :
  init text = Ok self ->
  (forall word, exists tag, tag_of word = Ok tag) ->
  getHPoint self = Ok h ->
  py_int h = Ok ih ->
  1 <= ih ->
  2 * ih - 1 <= typeNum self ->
  2 <= typeNum self ->
  mapM isVerb (tokenList self) = Ok verbs ->
  mapM isAdjective (tokenList self) = Ok adjs ->
  0 < count_true verbs + count_true adjs ->
  exists l store', getQuitaFeature text store = Ok (l, store').
Proof.
  intros Hinit Htag Hh Hih Hih1 HihV HV2 Hverbs Hadjs Hsome.
  assert (well_formed self) as Hwf.
  { apply (init_well_formed text _ Hinit). intros Hnil.
    destruct (init_Ok _ _ Hinit) as (_ & _ & _ & Ht & _ & HtypeNum).
    destruct (getTypeData_columns _ _ Ht) as (Hlen & _). rewrite Hnil in Hlen.
    cbn in Hlen. lia. }
  rewrite Aggregators.getQuitaFeature_run, Hinit.
  destruct (assign_all_Ok PyNum (quita_entries self) ∅) as [m ->].
  - exact (quita_entries_return self h ih verbs adjs Hwf Htag Hh Hih Hih1 HihV HV2
             Hverbs Hadjs Hsome).
  - eexists. eexists. reflexivity.
Qed.

End Returns.
End QuitaReturns.

(** ** The range of the vocabulary richness *)

Section PrefixSums.

Lemma np_take_rank_gen {A} (a : list A) r : forall k,
  np_take a (map (fun x => x =? r) (range k (k + Z.of_nat (length a))))
  = if (k <=? r) && (r <? k + Z.of_nat (length a))
    then match a !! Z.to_nat (r - k) with Some f => [f] | None => [] end
    else [].
Proof.
  induction a as [| f a IH]; intros k.
  - simpl. destruct (_ && _); reflexivity.
  - rewrite range_cons by (cbn [length]; lia). cbn [map np_take].
    replace (k + Z.of_nat (length (f :: a))) with (k + 1 + Z.of_nat (length a))
      by (cbn [length]; lia).
    rewrite IH. destruct (Z.eqb_spec k r) as [-> | Hkr].
    + destruct (Z.leb_spec (r + 1) r); [lia |]. cbn [andb].
      destruct (Z.leb_spec r r); [| lia].
      destruct (Z.ltb_spec r (r + 1 + Z.of_nat (length a))); [| lia].
      replace (Z.to_nat (r - r)) with 0%nat by lia. reflexivity.
    + destruct (Z.leb_spec (k + 1) r); destruct (Z.leb_spec k r); try lia; cbn [andb];
        [| reflexivity].
      destruct (r <? _); [| reflexivity].
      replace (Z.to_nat (r - k)) with (S (Z.to_nat (r - (k + 1)))) by lia.
      reflexivity.
Qed.

Lemma zsum_app l l' : zsum (l ++ l') = zsum l + zsum l'.
Proof.
  induction l as [| x l IH]; [rewrite zsum_nil; reflexivity |].
  cbn [app]. rewrite !zsum_cons, IH. lia.
Qed.

Lemma zsum_ge_const x l :
  Forall (fun y => x <= y) l -> Z.of_nat (length l) * x <= zsum l.
Proof.
  induction 1 as [| y l Hy _ IH]; [rewrite zsum_nil; simpl; lia |].
  rewrite zsum_cons. cbn [length]. lia.
Qed.

(** In a descending column the rows down to a row are that row at
    least. *)
Lemma desc_prefix_ge fs : forall j x,
  desc fs -> fs !! j = Some x -> Forall (fun y => x <= y) (firstn (S j) fs).
Proof.
  induction fs as [| f fs IH]; intros j x Hdesc Hx; [discriminate |].
  destruct j as [| j]; cbn in Hx.
  - injection Hx as <-. cbn [firstn]. repeat constructor. lia.
  - cbn [firstn]. constructor.
    + pose proof (desc_tail_le _ _ Hdesc) as Hall. rewrite List.Forall_forall in Hall.
      apply Hall. apply list_elem_of_In. eapply list_elem_of_lookup_2. exact Hx.
    + apply IH; [exact (desc_tail _ _ Hdesc) | exact Hx].
Qed.

End PrefixSums.

Module QuitaRichness.
Import Quita QuitaTheory.

Section Richness.
Context `{NLTK}.

(** X16.  With an exact h-point, in exact arithmetic, the vocabulary richness
    [1 - (F(h) - h^2 / (2 N))] lies strictly between [0] and [1]: the
    first [h] types hold [h^2] tokens at least. *)
Theorem getVocabRich_range text (self : QuitaText (F:=Q)) r :
  init text = Ok self ->
  tokenList self <> [] ->
  getHPoint self = Ok (NpInt r) ->
  exists R4, getVocabRich self = Ok (NpFloat R4) /\ (0 < R4)%Q /\ (R4 < 1)%Q.
Proof.
  intros Hinit Hne Hh.
  destruct (init_well_formed _ _ Hinit Hne) as (HV & Hpos & Hdesc & Hrank & HtypeNum & HN).
  destruct (init_Ok _ _ Hinit) as (_ & _ & _ & Ht & _ & _).
  destruct (getTypeData_columns _ _ Ht) as (_ & _ & Hfreq & _ & _ & Hcum).
  cbv zeta in Hcum. rewrite length_map in HV, Hrank, HtypeNum.
  set (fs := map freq (typeData self)) in *.
  set (V := Z.of_nat (length (typeData self))) in *.
  assert (Z.of_nat (length fs) = V) as Hlen by (unfold fs; rewrite length_map; reflexivity).
  (* the h-point is exact: the frequency at the rank [r] is [r] *)
  assert (isExactHPoint self = true /\ 1 <= r <= V /\ fs !! Z.to_nat (r - 1) = Some r)
    as (Hexact & Hr & Hfr).
  { unfold getHPoint in Hh. destruct (isExactHPoint self) eqn:Hexact.
    - split; [reflexivity |]. rewrite Hrank in Hh. fold fs in Hh.
      unfold np_where in Hh.
      destruct (np_where_from 0 (zip_with Z.eqb fs (range 1 (V + 1)))) as [| j rest] eqn:Hwhere;
        [discriminate |].
      cbn [item0 bind] in Hh. injection Hh as <-.
      destruct (np_where_from_head _ _ _ _ Hwhere) as (k & -> & Hk & _).
      destruct (QuitaIndices.mask_lookup Z.eqb fs V k true Hlen Hk) as (x & Hx & Heq).
      symmetry in Heq. apply Z.eqb_eq in Heq. subst x.
      apply lookup_lt_Some in Hx as Hlt.
      replace (Z.to_nat (Z.of_nat (0 + k) + 1 - 1)) with k by lia.
      split; [lia |]. rewrite Hx. f_equal; lia.
    - cbv zeta in Hh. destruct (item0 _); [| discriminate]. cbn [bind] in Hh.
      destruct (item0 _); [| discriminate]. cbn [bind] in Hh.
      rewrite truediv_np in Hh by reflexivity. discriminate. }
  (* the tokens of the first [r] types *)
  set (head := zsum (firstn (Z.to_nat r) fs)).
  assert (r * r <= head <= tokenNum self) as Hhead.
  { split.
    - pose proof (desc_prefix_ge fs _ _ Hdesc Hfr) as Hall.
      replace (S (Z.to_nat (r - 1))) with (Z.to_nat r) in Hall by lia.
      apply zsum_ge_const in Hall.
      rewrite length_firstn, Nat.min_l, Z2Nat.id in Hall by lia. exact Hall.
    - rewrite HN. rewrite <- (firstn_skipn (Z.to_nat r) fs). rewrite zsum_app. fold head.
      assert (0 <= zsum (skipn (Z.to_nat r) fs)); [| lia].
      apply zsum_nonneg. rewrite <- (firstn_skipn (Z.to_nat r) fs) in Hpos.
      apply Forall_app in Hpos as [_ Hskip]. exact Hskip. }
  assert (0 < tokenNum self) as HNpos by nia.
  (* the cumulative probability at the rank [r] *)
  set (total := zsum (counts (FreqDist (tokenList self)))) in *.
  assert (total = tokenNum self) as Htotal.
  { rewrite HN, Hfreq.
    apply zsum_perm, Permutation_map. symmetry. apply sort_values_desc_perm. }
  change (map (fun freq => fdiv (of_Z freq) (of_Z total))
              (counts (sort_values_desc (FreqDist (tokenList self)))))
    with (probabilities total (counts (sort_values_desc (FreqDist (tokenList self))))) in Hcum.
  rewrite <- Hfreq in Hcum.
  assert (Z.of_nat (length (sort_values_desc (FreqDist (tokenList self)))) = V) as HlenV.
  { rewrite <- Hlen, Hfreq. unfold counts. rewrite length_map. reflexivity. }
  rewrite HlenV in Hcum.
  assert (np_take (map cumProb (typeData self)) (rank_is self r)
          = [np_sum (firstn (Z.to_nat r) (probabilities total fs))]) as Htake.
  { unfold rank_is. rewrite Hrank.
    assert (V + 1 = 1 + Z.of_nat (length (map cumProb (typeData self)))) as ->
      by (rewrite length_map; fold V; lia).
    rewrite np_take_rank_gen. rewrite length_map. fold V.
    destruct (Z.leb_spec 1 r); [| lia]. destruct (Z.ltb_spec r (1 + V)); [| lia].
    cbn [andb]. rewrite Hcum, list_lookup_fmap, range_lookup by lia. cbn.
    do 3 f_equal. lia. }
  unfold getVocabRich. cbv zeta. rewrite Hexact, Hh. cbn [bind py_int]. rewrite Htake.
  rewrite truediv_np by reflexivity. cbn [bind map item0].
  eexists. split; [reflexivity |].
  change (to_F (F:=Q) (square (NpInt r))) with (inject_Z (r * r)).
  change (to_F (F:=Q) (mul (PyInt 2) (PyInt (tokenNum self))))
    with (inject_Z (2 * tokenNum self)).
  unfold probabilities. rewrite firstn_map.
  change (map (fun freq => fdiv (of_Z freq) (of_Z total)) (firstn (Z.to_nat r) fs))
    with (probabilities total (firstn (Z.to_nat r) fs)).
  pose proof (QuitaExact.np_sum_probabilities total (firstn (Z.to_nat r) fs)) as Hc.
  fold head in Hc. specialize (Hc ltac:(lia)).
  set (c := np_sum (probabilities total (firstn (Z.to_nat r) fs))) in *.
  rewrite Htotal in Hc.
  change (0 < 1 - (c - inject_Z (r * r) / inject_Z (2 * tokenNum self))
          /\ 1 - (c - inject_Z (r * r) / inject_Z (2 * tokenNum self)) < 1)%Q.
  clearbody c. rewrite Hc. clear Hc c.
  set (N := tokenNum self) in *. clearbody N head.
  assert (0 < inject_Z N)%Q as HNq by (rewrite <- (Zlt_Qlt 0); lia).
  assert (~ inject_Z N == 0)%Q as Hnz
    by (intros Hz; rewrite Hz in HNq; apply (Qlt_irrefl 0 HNq)).
  assert (1 - (inject_Z head / inject_Z N - inject_Z (r * r) / inject_Z (2 * N))
          == inject_Z (2 * N - 2 * head + r * r) / inject_Z (2 * N))%Q as ->.
  { unfold Zminus. rewrite !inject_Z_plus, inject_Z_opp, !inject_Z_mult.
    change (inject_Z 2) with 2%Q. field. exact Hnz. }
  assert (0 < inject_Z (2 * N))%Q as H2N by (rewrite <- (Zlt_Qlt 0); lia).
  split.
  - apply Qlt_shift_div_l; [exact H2N |]. rewrite Qmult_0_l, <- (Zlt_Qlt 0). nia.
  - apply Qlt_shift_div_r; [exact H2N |]. rewrite Qmult_1_l, <- Zlt_Qlt. nia.
Qed.

End Richness.
End QuitaRichness.

(** ** More runs on sample texts *)

Module MoreRuns.
Import Sample.
Local Open Scope string_scope.

Lemma sample_well_formed : well_formed (quita_exact "a a b").
Proof.
  apply (QuitaTheory.init_well_formed "a a b"); [vm_compute; reflexivity |].
  vm_compute. discriminate.
Qed.

(** The table of ["a a b"]: two rows, of frequencies 2 and 1. *)
Lemma getTypeData_frequencies_witness :
  Quita.getTypeData (F:=Q) ["a"; "a"; "b"] = Ok (Quita.typeData (quita_exact "a a b"))
  /\ zsum (map Quita.freq (Quita.typeData (quita_exact "a a b"))) = 3
  /\ desc (map Quita.freq (Quita.typeData (quita_exact "a a b")))
  /\ Forall (fun r => Quita.freq r = occurrences ["a"; "a"; "b"] (Quita.type r)
                      /\ 1 <= Quita.freq r
                      /\ Quita.prob r = fdiv (of_Z (Quita.freq r)) (of_Z 3))
            (Quita.typeData (quita_exact "a a b")).
Proof.
  assert (Quita.getTypeData (F:=Q) ["a"; "a"; "b"] = Ok (Quita.typeData (quita_exact "a a b")))
    as Ht by (vm_compute; reflexivity).
  split; [exact Ht |].
  exact (QuitaColumns.getTypeData_frequencies ["a"; "a"; "b"] _ Ht).
Defined.

Lemma getTTR_getHL_range_witness :
  well_formed (quita_exact "a a b")
  /\ exists ttr hl,
       Quita.getTTR (quita_exact "a a b") = Ok (PyFloat ttr)
       /\ Quita.getHL (quita_exact "a a b") = Ok (PyFloat hl)
       /\ (0 <= hl)%Q /\ (hl <= ttr)%Q /\ (0 < ttr)%Q /\ (ttr <= 1)%Q.
Proof.
  split; [exact sample_well_formed |].
  exact (QuitaRanges.getTTR_getHL_range (quita_exact "a a b") sample_well_formed).
Defined.

Lemma getRR_range_witness :
  Quita.init "a a b" = Ok (quita_exact "a a b")
  /\ Quita.tokenList (quita_exact "a a b") <> []
  /\ exists rr,
       Quita.getRR (quita_exact "a a b") = Ok (NpFloat rr)
       /\ (1 / inject_Z (Quita.typeNum (quita_exact "a a b")) <= rr)%Q /\ (rr <= 1)%Q.
Proof.
  assert (Quita.init "a a b" = Ok (quita_exact "a a b")) as Hinit by (vm_compute; reflexivity).
  assert (Quita.tokenList (quita_exact "a a b") <> []) as Hne by (vm_compute; discriminate).
  split; [exact Hinit |]. split; [exact Hne |].
  exact (QuitaRanges.getRR_range "a a b" (quita_exact "a a b") Hinit Hne).
Defined.

(** [nouns] holds articles, nouns and a conjunction. *)
Lemma no_verb_no_adjective_witness :
  let verbs := default_to (mapM Quita.isVerb (Quita.tokenList (quita nouns))) [] in
  let adjs := default_to (mapM Quita.isAdjective (Quita.tokenList (quita nouns))) [] in
  mapM Quita.isVerb (Quita.tokenList (quita nouns)) = Ok verbs
  /\ mapM Quita.isAdjective (Quita.tokenList (quita nouns)) = Ok adjs
  /\ count_true verbs + count_true adjs = 0
  /\ Quita.getActivity (quita nouns) = Raise ZeroDivisionError
  /\ Quita.getDescriptivity (quita nouns) = Raise ZeroDivisionError
  /\ forall text h, Quita.init text = Ok (quita nouns) ->
                    exists e, Quita.getQuitaFeature text h = Raise e.
Proof.
  intros verbs adjs.
  assert (mapM Quita.isVerb (Quita.tokenList (quita nouns)) = Ok verbs) as Hverbs
    by (vm_compute; reflexivity).
  assert (mapM Quita.isAdjective (Quita.tokenList (quita nouns)) = Ok adjs) as Hadjs
    by (vm_compute; reflexivity).
  assert (count_true verbs + count_true adjs = 0) as Hzero by (vm_compute; reflexivity).
  split; [exact Hverbs |]. split; [exact Hadjs |]. split; [exact Hzero |].
  exact (QuitaFaults.no_verb_no_adjective (quita nouns) verbs adjs Hverbs Hadjs Hzero).
Defined.

Example nouns_raises : Quita.getQuitaFeature nouns ∅ = Raise ZeroDivisionError.
Proof. vm_compute. reflexivity. Qed.

(** One token. *)
Lemma single_type_text_witness :
  well_formed (quita "run")
  /\ Quita.typeNum (quita "run") = 1
  /\ Quita.getCurveLen (quita "run") None = Ok (PyInt 0)
  /\ Quita.getCLI (quita "run")
     = Raise (if (Quita.tokenNum (quita "run") =? 1)%Z then ZeroDivisionError else IndexError)
  /\ forall text h, Quita.init text = Ok (quita "run") ->
                    exists e, Quita.getQuitaFeature text h = Raise e.
Proof.
  assert (well_formed (quita "run")) as Hwf.
  { apply (QuitaTheory.init_well_formed "run"); [vm_compute; reflexivity |].
    vm_compute. discriminate. }
  assert (Quita.typeNum (quita "run") = 1) as HV by (vm_compute; reflexivity).
  split; [exact Hwf |]. split; [exact HV |].
  exact (QuitaFaults.single_type_text (quita "run") Hwf HV).
Defined.

(** [fable] holds the verb "saw" twice and the adjective "big". *)
Lemma getActivity_range_witness :
  let verbs := default_to (mapM Quita.isVerb (Quita.tokenList (quita_exact fable))) [] in
  let adjs := default_to (mapM Quita.isAdjective (Quita.tokenList (quita_exact fable))) [] in
  mapM Quita.isVerb (Quita.tokenList (quita_exact fable)) = Ok verbs
  /\ mapM Quita.isAdjective (Quita.tokenList (quita_exact fable)) = Ok adjs
  /\ 0 < count_true verbs + count_true adjs
  /\ exists q d,
       Quita.getActivity (quita_exact fable) = Ok (PyFloat q)
       /\ Quita.getDescriptivity (quita_exact fable) = Ok (PyFloat d)
       /\ (q == inject_Z (count_true verbs) / inject_Z (count_true verbs + count_true adjs))%Q
       /\ (0 <= q)%Q /\ (q <= 1)%Q /\ (q + d == 1)%Q.
Proof.
  intros verbs adjs.
  assert (mapM Quita.isVerb (Quita.tokenList (quita_exact fable)) = Ok verbs) as Hverbs
    by (vm_compute; reflexivity).
  assert (mapM Quita.isAdjective (Quita.tokenList (quita_exact fable)) = Ok adjs) as Hadjs
    by (vm_compute; reflexivity).
  assert (0 < count_true verbs + count_true adjs) as Hsome by (vm_compute; reflexivity).
  split; [exact Hverbs |]. split; [exact Hadjs |]. split; [exact Hsome |].
  exact (QuitaVerbs.getActivity_range (quita_exact fable) verbs adjs Hverbs Hadjs Hsome).
Defined.

(** The two verbs of [fable] stand at the places 2 and 8: one gap of 6. *)
Lemma getVerbDist_span_witness :
  let verbs := default_to (mapM Quita.isVerb (Quita.tokenList (quita_exact fable))) [] in
  mapM Quita.isVerb (Quita.tokenList (quita_exact fable)) = Ok verbs
  /\ np_where verbs = [2; 8]%nat
  /\ exists vd,
       Quita.getVerbDist (quita_exact fable) = Ok (NpFloat vd)
       /\ (vd == inject_Z (Z.of_nat (List.last (np_where verbs) 0%nat)
                           - Z.of_nat (hd 0%nat (np_where verbs)))
                 / inject_Z (Z.of_nat (length (np_where verbs)) - 1))%Q
       /\ (1 <= vd)%Q.
Proof.
  intros verbs.
  assert (mapM Quita.isVerb (Quita.tokenList (quita_exact fable)) = Ok verbs) as Hverbs
    by (vm_compute; reflexivity).
  assert (np_where verbs = [2; 8]%nat) as Hwhere by (vm_compute; reflexivity).
  split; [exact Hverbs |]. split; [exact Hwhere |].
  apply (QuitaVerbs.getVerbDist_span (quita_exact fable) verbs Hverbs).
  rewrite Hwhere. cbn [length]. lia.
Defined.

Lemma getHPoint_domain_witness :
  well_formed (quita_exact "a a b")
  /\ map Quita.freq (Quita.typeData (quita_exact "a a b")) = [2; 1]
  /\ exists h,
       Quita.getHPoint (quita_exact "a a b") = Ok h
       /\ (1 <= to_F h)%Q /\ (to_F h <= 2)%Q
       /\ (Quita.isExactHPoint (quita_exact "a a b") = false ->
           (1 < to_F h)%Q /\ (to_F h < 1 + 1)%Q).
Proof.
  split; [exact sample_well_formed |]. split; [vm_compute; reflexivity |].
  pose proof (QuitaHPoint.getHPoint_domain (quita_exact "a a b") sample_well_formed) as Hdom.
  cbv zeta in Hdom.
  change (List.last (map Quita.freq (Quita.typeData (quita_exact "a a b"))) 0
          <=? Quita.typeNum (quita_exact "a a b"))%Z with true in Hdom.
  cbv iota in Hdom. exact Hdom.
Defined.

(** On binary64 the h-point of ["a a b"] is [1.5]. *)
Example getHPoint_aab : Quita.getHPoint (quita "a a b") = Ok (NpFloat 1.5%float).
Proof. vm_compute. reflexivity. Qed.

Lemma getBiberFeature_returns_witness :
  word_tokenize did_go <> []
  /\ exists l h', Biber.getBiberFeature (F:=float) did_go ∅ = Ok (l, h').
Proof.
  assert (word_tokenize did_go <> []) as Hne by (vm_compute; discriminate).
  split; [exact Hne |].
  exact (BiberReturns.getBiberFeature_returns did_go ∅ Hne).
Defined.

(** The sample tagger tags every token. *)
Lemma tense_rates_and_ratio_witness :
  (forall tokens, length (pos_tag tokens) = length tokens)
  /\ word_tokenize did_go <> []
  /\ exists past present ratio : Q,
       Biber.feature_01 (Biber.init did_go) = Ok (PyFloat past)
       /\ Biber.feature_03 (Biber.init did_go) = Ok (PyFloat present)
       /\ Biber.feature_43 (Biber.init did_go) = Ok (PyFloat ratio)
       /\ (0 <= past)%Q /\ (0 <= present)%Q /\ (past + present <= 1000)%Q
       /\ (0 < ratio)%Q /\ (ratio <= 1)%Q.
Proof.
  assert (forall tokens, length (pos_tag tokens) = length tokens) as Htag
    by (intros tokens; apply length_map).
  assert (word_tokenize did_go <> []) as Hne by (vm_compute; discriminate).
  split; [exact Htag |]. split; [exact Hne |].
  exact (BiberReturns.tense_rates_and_ratio did_go Htag Hne).
Defined.

(** One of the four tokens of [did_go] is in the past tense. *)
Example did_go_past :
  Biber.feature_01 (F:=float) (Biber.init did_go) = Ok (PyFloat 250%float).
Proof. vm_compute. reflexivity. Qed.

Lemma getATL_at_least_one_witness :
  Quita.init "a a b" = Ok (quita_exact "a a b")
  /\ Quita.tokenList (quita_exact "a a b") <> []
  /\ Forall (fun token => (1 <= String.length token)%nat)
            (Quita.tokenList (quita_exact "a a b"))
  /\ exists atl, Quita.getATL (quita_exact "a a b") = Ok (NpFloat atl) /\ (1 <= atl)%Q.
Proof.
  assert (Quita.init "a a b" = Ok (quita_exact "a a b")) as Hinit by (vm_compute; reflexivity).
  assert (Quita.tokenList (quita_exact "a a b") <> []) as Hne by (vm_compute; discriminate).
  split; [exact Hinit |]. split; [exact Hne |].
  exact (QuitaTokens.getATL_at_least_one "a a b" (quita_exact "a a b") Hinit Hne).
Defined.

Lemma first_token_not_counted_witness :
  length (pos_tag (word_tokenize did_go)) = length (word_tokenize did_go)
  /\ Forall (fun i => blanks (fst i) = 0 /\ blanks (snd i) = 0)
            (pos_tag (word_tokenize did_go))
  /\ word_tokenize did_go <> []
  /\ Forall (fun feature =>
               exists c,
                 feature (Biber.init did_go)
                 = Ok (PyFloat (fdiv (of_Z (1000 * c))
                                     (of_Z (Biber.tokenNum (Biber.init did_go)))))
                 /\ 0 <= c <= Biber.tokenNum (Biber.init did_go) - 1)
            (one_pattern_features (F:=float)).
Proof.
  assert (length (pos_tag (word_tokenize did_go)) = length (word_tokenize did_go)) as Hlen
    by (vm_compute; reflexivity).
  assert (Forall (fun i => blanks (fst i) = 0 /\ blanks (snd i) = 0)
                 (pos_tag (word_tokenize did_go))) as Hall
    by (vm_compute; repeat constructor).
  assert (word_tokenize did_go <> []) as Hne by (vm_compute; discriminate).
  split; [exact Hlen |]. split; [exact Hall |]. split; [exact Hne |].
  exact (BiberBlanks.first_token_not_counted did_go Hlen Hall Hne).
Defined.

(** A text of one adverb: the tagged text holds no blank and the count of
    adverbs is [0]. *)
Example adverb_not_counted :
  Biber.tagList (Biber.init "not") = ["RB"]
  /\ Biber.feature_42 (F:=float) (Biber.init "not") = Ok (PyFloat 0%float).
Proof. vm_compute. split; reflexivity. Qed.

(** On [triple] the h-point is the rank 3 and [getSTC] asks for the rows
    3 to 5 of a table of three. *)
Lemma getSTC_out_of_table_witness :
  Quita.getHPoint (quita triple) = Ok (NpInt 3)
  /\ py_int (F:=float) (NpInt 3) = Ok 3
  /\ 3 - 1 <= Z.of_nat (length (Quita.typeData (quita triple)))
  /\ Z.of_nat (length (Quita.typeData (quita triple))) < 2 * 3 - 1
  /\ (exists e, Quita.getSTC (quita triple) = Raise e)
  /\ forall text h0, Quita.init text = Ok (quita triple) ->
                     exists e, Quita.getQuitaFeature text h0 = Raise e.
Proof.
  assert (Quita.getHPoint (quita triple) = Ok (NpInt 3)) as Hh by (vm_compute; reflexivity).
  assert (3 - 1 <= Z.of_nat (length (Quita.typeData (quita triple)))) as Hlo
    by (vm_compute; discriminate).
  assert (Z.of_nat (length (Quita.typeData (quita triple))) < 2 * 3 - 1) as Hhi
    by (vm_compute; reflexivity).
  split; [exact Hh |]. split; [reflexivity |]. split; [exact Hlo |]. split; [exact Hhi |].
  exact (QuitaThemes.getSTC_out_of_table (quita triple) (NpInt 3) 3 Hh eq_refl Hlo Hhi).
Defined.

Example triple_STC : Quita.getSTC (quita triple) = Raise KeyError.
Proof. vm_compute. reflexivity. Qed.

(** On [fable] the h-point is the rank 2; the one term of [getSTC] that
    is not zero is [2 * (2 - 3) * 1 / (2 * 1 * 3)]. *)
Lemma thematic_concentration_signs_witness :
  well_formed (quita_exact fable)
  /\ Quita.getHPoint (quita_exact fable) = Ok (NpInt 2)
  /\ (exists tc, Quita.getTC (quita_exact fable) = Ok tc /\ (0 <= to_F tc)%Q)
  /\ (exists stc, Quita.getSTC (quita_exact fable) = Ok stc /\ (to_F stc <= 0)%Q
                  /\ (to_F stc == - (1 # 3))%Q).
Proof.
  assert (well_formed (quita_exact fable)) as Hwf.
  { apply (QuitaTheory.init_well_formed fable); [vm_compute; reflexivity |].
    vm_compute. discriminate. }
  assert (Quita.getHPoint (quita_exact fable) = Ok (NpInt 2)) as Hh
    by (vm_compute; reflexivity).
  destruct (QuitaThemeSigns.thematic_concentration_signs (quita_exact fable) 2 Hwf Hh)
    as [HTC HSTC]; [lia |].
  split; [exact Hwf |]. split; [exact Hh |]. split.
  - destruct (Quita.getTC (quita_exact fable)) as [tc |] eqn:Htc;
      [| vm_compute in Htc; discriminate].
    exists tc. split; [reflexivity | exact (HTC tc eq_refl)].
  - destruct (Quita.getSTC (quita_exact fable)) as [stc |] eqn:Hstc;
      [| vm_compute in Hstc; discriminate].
    exists stc. split; [reflexivity |]. split; [exact (HSTC stc eq_refl) |].
    vm_compute in Hstc. injection Hstc as <-. reflexivity.
Defined.

(** [fable]: nine types, the h-point at the rank 2, two verbs and an
    adjective. *)
Lemma getQuitaFeature_returns_witness :
  let verbs := default_to (mapM Quita.isVerb (Quita.tokenList (quita fable))) [] in
  let adjs := default_to (mapM Quita.isAdjective (Quita.tokenList (quita fable))) [] in
  Quita.init fable = Ok (quita fable)
  /\ (forall word, exists tag, Quita.tag_of word = Ok tag)
  /\ Quita.getHPoint (quita fable) = Ok (NpInt 2)
  /\ Quita.typeNum (quita fable) = 9
  /\ mapM Quita.isVerb (Quita.tokenList (quita fable)) = Ok verbs
  /\ mapM Quita.isAdjective (Quita.tokenList (quita fable)) = Ok adjs
  /\ 0 < count_true verbs + count_true adjs
  /\ exists l store', Quita.getQuitaFeature fable ∅ = Ok (l, store').
Proof.
  intros verbs adjs.
  assert (Quita.init fable = Ok (quita fable)) as Hinit by (vm_compute; reflexivity).
  assert (forall word, exists tag, Quita.tag_of word = Ok tag) as Htag
    by (intros word; eexists; reflexivity).
  assert (Quita.getHPoint (quita fable) = Ok (NpInt 2)) as Hh by (vm_compute; reflexivity).
  assert (Quita.typeNum (quita fable) = 9) as HV by (vm_compute; reflexivity).
  assert (mapM Quita.isVerb (Quita.tokenList (quita fable)) = Ok verbs) as Hverbs
    by (vm_compute; reflexivity).
  assert (mapM Quita.isAdjective (Quita.tokenList (quita fable)) = Ok adjs) as Hadjs
    by (vm_compute; reflexivity).
  assert (0 < count_true verbs + count_true adjs) as Hsome by (vm_compute; reflexivity).
  split; [exact Hinit |]. split; [exact Htag |]. split; [exact Hh |]. split; [exact HV |].
  split; [exact Hverbs |]. split; [exact Hadjs |]. split; [exact Hsome |].
  apply (QuitaReturns.getQuitaFeature_returns fable (quita fable) (NpInt 2) 2 verbs adjs ∅
           Hinit Htag Hh eq_refl); [lia | rewrite HV; lia | rewrite HV; lia | | |];
    assumption.
Defined.

(** On [fable] the h-point is the rank 2, exactly. *)
Lemma getVocabRich_range_witness :
  Quita.init fable = Ok (quita_exact fable)
  /\ Quita.tokenList (quita_exact fable) <> []
  /\ Quita.getHPoint (quita_exact fable) = Ok (NpInt 2)
  /\ exists R4,
       Quita.getVocabRich (quita_exact fable) = Ok (NpFloat R4) /\ (0 < R4)%Q /\ (R4 < 1)%Q.
Proof.
  assert (Quita.init fable = Ok (quita_exact fable)) as Hinit by (vm_compute; reflexivity).
  assert (Quita.tokenList (quita_exact fable) <> []) as Hne by (vm_compute; discriminate).
  assert (Quita.getHPoint (quita_exact fable) = Ok (NpInt 2)) as Hh
    by (vm_compute; reflexivity).
  split; [exact Hinit |]. split; [exact Hne |]. split; [exact Hh |].
  exact (QuitaRichness.getVocabRich_range fable (quita_exact fable) 2 Hinit Hne Hh).
Defined.

(** The richness of [fable] on binary64. *)
Example fable_richness :
  is_Ok (Quita.getVocabRich (quita fable)) = true.
Proof. vm_compute. reflexivity. Qed.

End MoreRuns.
